(** * LunarCrush -> sheet updater: flattening, header reconciliation, row upsert

    A shallow embedding of [src/v1.py].  JSON documents are a tagged tree,
    Python dicts that come from JSON are association lists in insertion
    order, the values map (a dict only ever read with [.get]) is a [gmap],
    and the worksheet is an explicit state threaded through every call that
    touches it, together with a fault schedule for the remote calls and the
    event log.

    A Python text is a [string] with one [ascii] per character, holding the
    character's code point: the model covers the texts whose characters lie
    below U+0100.  On those, [String.length] is Python's [len], and
    [strip] and [lower] below remove and fold what [str.strip] and
    [str.lower] do.  Characters from U+0100 on are outside the model. *)

From Stdlib Require Import ZArith Ascii String List Lia Bool.
From stdpp Require Import base option list strings gmap pretty.

Local Open Scope nat_scope.

(** ** Python values that a parsed JSON document can hold *)

(** [JFloat] carries the text Python prints for the float: the code only
    ever prints floats, it never computes with them. *)
Inductive json : Type :=
  | JNull : json
  | JBool : bool -> json
  | JInt : Z -> json
  | JFloat : string -> json
  | JStr : string -> json
  | JArr : list json -> json
  | JObj : list (string * json) -> json.

(** [isinstance(v, (int, float, str, bool))]. *)
Definition is_scalar (v : json) : bool :=
  match v with
  | JBool _ | JInt _ | JFloat _ | JStr _ => true
  | JNull | JArr _ | JObj _ => false
  end.

(** [isinstance(v, dict)]. *)
Definition is_dict (v : json) : bool :=
  match v with JObj _ => true | _ => false end.

(** Python truthiness, as used by [or] and [if]. *)
Definition truthy (v : json) : bool :=
  match v with
  | JNull => false
  | JBool b => b
  | JInt z => negb (Z.eqb z 0)
  | JFloat s => negb (bool_decide (s = "0.0") || bool_decide (s = "-0.0"))
  | JStr s => negb (bool_decide (s = ""))
  | JArr l => match l with [] => false | _ => true end
  | JObj kv => match kv with [] => false | _ => true end
  end.

(** ** dict access on association lists *)

(** [d[k]] / [k in d]: the entry of the first pair with key [k]. *)
Fixpoint dict_lookup (k : string) (kv : list (string * json)) : option json :=
  match kv with
  | [] => None
  | (k', v) :: rest => if bool_decide (k' = k) then Some v else dict_lookup k rest
  end.

(** [d.get(k, default)]. *)
Definition dict_get (k : string) (default : json) (kv : list (string * json)) : json :=
  match dict_lookup k kv with Some v => v | None => default end.

(** ** Text forms *)

Definition hex_digit (n : N) : ascii :=
  ascii_of_N (if (n <? 10)%N then 48 + n else 87 + n).

(** One character inside a JSON string literal, [ensure_ascii=False]. *)
Definition escape_char (c : ascii) : string :=
  let n := N_of_ascii c in
  if (n =? 34)%N then "\" +:+ String c ""
  else if (n =? 92)%N then "\\"
  else if (n =? 10)%N then "\n"
  else if (n =? 13)%N then "\r"
  else if (n =? 9)%N then "\t"
  else if (n =? 8)%N then "\b"
  else if (n =? 12)%N then "\f"
  else if (n <? 32)%N then
    "\u00" +:+ String (hex_digit (n / 16)) (String (hex_digit (n mod 16)) "")
  else String c "".

Fixpoint escape_string (s : string) : string :=
  match s with
  | EmptyString => ""
  | String c rest => escape_char c +:+ escape_string rest
  end.

Definition quote (s : string) : string :=
  String (ascii_of_N 34) (escape_string s +:+ String (ascii_of_N 34) "").

(** [", ".join(parts)]. *)
Fixpoint join_comma (parts : list string) : string :=
  match parts with
  | [] => ""
  | [p] => p
  | p :: rest => p +:+ ", " +:+ join_comma rest
  end.

(** A float inside [json.dumps]: its [repr], which is the text [str]
    prints, except for the three values that are not numbers of JSON. *)
Definition float_json_text (s : string) : string :=
  if bool_decide (s = "inf") then "Infinity"
  else if bool_decide (s = "-inf") then "-Infinity"
  else if bool_decide (s = "nan") then "NaN"
  else s.

(** [json.dumps(v, ensure_ascii=False)] with the default separators.  On a
    value that came out of a JSON parser it cannot raise, so the [except]
    branches around it in the source are never taken. *)
Fixpoint json_dumps (v : json) : string :=
  match v with
  | JNull => "null"
  | JBool true => "true"
  | JBool false => "false"
  | JInt z => pretty z
  | JFloat s => float_json_text s
  | JStr s => quote s
  | JArr l => "[" +:+ join_comma (List.map json_dumps l) +:+ "]"
  | JObj kv =>
      "{" +:+ join_comma
               (List.map (fun p : string * json => quote (fst p) +:+ ": " +:+ json_dumps (snd p)) kv)
          +:+ "}"
  end.

(** [str(v)] on a scalar; a float prints as inf, -inf or nan where
    [json.dumps] writes Infinity, -Infinity or NaN. *)
Definition py_str (v : json) : string :=
  match v with
  | JBool true => "True"
  | JBool false => "False"
  | JInt z => pretty z
  | JFloat s => s
  | JStr s => s
  | _ => json_dumps v
  end.

Definition safe_str (value : json) : string :=
  match value with
  | JNull => ""
  | JBool _ | JInt _ | JFloat _ | JStr _ => py_str value
  | JArr _ | JObj _ => json_dumps value
  end.

Definition MAX_CELL_LENGTH : N := 50000.

(** [len(s) > MAX_CELL_LENGTH]: the length counts characters, one [ascii]
    each. *)
Definition is_too_large (s : string) : bool :=
  (MAX_CELL_LENGTH <? N.of_nat (String.length s))%N.

(** [get_nested(d, path, default)]. *)
Fixpoint get_nested (d : json) (path : list string) (default : json) : json :=
  match path with
  | [] => d
  | p :: rest =>
      match d with
      | JObj kv =>
          match dict_lookup p kv with
          | Some v => get_nested v rest default
          | None => default
          end
      | _ => default
      end
  end.

(** ** Metric-trend helpers *)

Definition CONVENTIONAL_KEYS : list string :=
  ["value"; "current"; "count"; "latest"; "v"; "val"].

(** The first loop of [pick_scalar_from_metric_obj]: the first conventional
    key that is in the dict with a scalar value. *)
Fixpoint first_conventional (cs : list string) (kv : list (string * json)) : option json :=
  match cs with
  | [] => None
  | c :: rest =>
      match dict_lookup c kv with
      | Some v => if is_scalar v then Some v else first_conventional rest kv
      | None => first_conventional rest kv
      end
  end.

(** The second loop: the first item, in iteration order, with a scalar value. *)
Fixpoint first_scalar_item (kv : list (string * json)) : option json :=
  match kv with
  | [] => None
  | (_, v) :: rest => if is_scalar v then Some v else first_scalar_item rest
  end.

Definition pick_scalar_from_metric_obj (metric_obj : json) : json :=
  match metric_obj with
  | JNull => JNull
  | JBool _ | JInt _ | JFloat _ | JStr _ => metric_obj
  | JObj kv =>
      match first_conventional CONVENTIONAL_KEYS kv with
      | Some v => v
      | None =>
          match first_scalar_item kv with
          | Some v => v
          | None => JStr (json_dumps metric_obj)
          end
      end
  | JArr [] => JNull
  | JArr (x :: _) => if is_scalar x then x else JStr (json_dumps metric_obj)
  end.

Example pick_value_current :
  pick_scalar_from_metric_obj (JObj [("value", JInt 5); ("current", JInt 9)]) = JInt 5.
Proof. reflexivity. Qed.

Example dumps_nested :
  json_dumps (JObj [("a", JArr [JInt 1; JBool true; JNull]); ("b", JStr "x")])
  = "{" +:+ quote "a" +:+ ": [1, true, null], " +:+ quote "b" +:+ ": " +:+ quote "x" +:+ "}".
Proof. vm_compute. reflexivity. Qed.

(** ** Scalar picking *)

Lemma first_conventional_hit (cs pre post : list string) (c : string)
    (kv : list (string * json)) (v : json) :
  cs = pre ++ c :: post ->
  dict_lookup c kv = Some v ->
  is_scalar v = true ->
  (forall c' v', c' ∈ pre -> dict_lookup c' kv = Some v' -> is_scalar v' = false) ->
  first_conventional cs kv = Some v.
Proof.
  intros -> Hc Hv. induction pre as [|p pre IH]; intros Hpre; simpl.
  - rewrite Hc, Hv. reflexivity.
  - destruct (dict_lookup p kv) as [w|] eqn:Hp.
    + rewrite (Hpre p w); [|left|exact Hp].
      apply IH. intros c' v' Hin. apply Hpre. right. exact Hin.
    + apply IH. intros c' v' Hin. apply Hpre. right. exact Hin.
Qed.

Lemma first_conventional_miss (cs : list string) (kv : list (string * json)) :
  (forall c v', c ∈ cs -> dict_lookup c kv = Some v' -> is_scalar v' = false) ->
  first_conventional cs kv = None.
Proof.
  induction cs as [|c cs IH]; intros H; simpl; [reflexivity|].
  destruct (dict_lookup c kv) as [w|] eqn:Hc.
  - rewrite (H c w); [|left|exact Hc]. apply IH. intros c' v' Hin. apply H. right. exact Hin.
  - apply IH. intros c' v' Hin. apply H. right. exact Hin.
Qed.

Lemma first_scalar_item_hit (pre post : list (string * json)) (k : string) (v : json) :
  Forall (fun p => is_scalar p.2 = false) pre ->
  is_scalar v = true ->
  first_scalar_item (pre ++ (k, v) :: post) = Some v.
Proof.
  intros Hpre Hv. induction Hpre as [|[k' w] pre Hw _ IH]; simpl.
  - rewrite Hv. reflexivity.
  - simpl in Hw. rewrite Hw. exact IH.
Qed.

Lemma first_scalar_item_miss (kv : list (string * json)) :
  Forall (fun p => is_scalar p.2 = false) kv -> first_scalar_item kv = None.
Proof.
  induction 1 as [|[k w] kv Hw _ IH]; simpl; [reflexivity|].
  simpl in Hw. rewrite Hw. exact IH.
Qed.

Lemma dict_lookup_elem (k : string) (kv : list (string * json)) (v : json) :
  dict_lookup k kv = Some v -> (k, v) ∈ kv.
Proof.
  induction kv as [|[k' w] kv IH]; simpl; [discriminate|].
  case_bool_decide as Hk.
  - intros [= ->]. subst k'. left.
  - intros H. right. apply IH, H.
Qed.

Lemma no_scalar_no_conventional (cs : list string) (kv : list (string * json)) :
  Forall (fun p => is_scalar p.2 = false) kv -> first_conventional cs kv = None.
Proof.
  intros Hall. apply first_conventional_miss. intros c w _ Hc.
  apply dict_lookup_elem in Hc.
  rewrite Forall_forall in Hall. apply (Hall (c, w)), Hc.
Qed.

(** C1 (as the code has it).  A scalar is returned as it is.  For a dict the
    first conventional key, in the order value, current, count, latest, v,
    val, that is present with a scalar value wins; failing that the first
    item with a scalar value in iteration order; failing that the text of the
    whole dict.  So the dict with value 5 and current 9 gives 5, the dict
    with only foo = bar gives bar, and the empty dict gives the text of the
    empty dict, an opening and a closing brace, which is also what the cell
    receives. *)
Theorem pick_scalar_precedence :
  (forall v, is_scalar v = true -> pick_scalar_from_metric_obj v = v) /\
  (forall kv pre c post v,
      CONVENTIONAL_KEYS = pre ++ c :: post ->
      dict_lookup c kv = Some v -> is_scalar v = true ->
      (forall c' v', c' ∈ pre -> dict_lookup c' kv = Some v' -> is_scalar v' = false) ->
      pick_scalar_from_metric_obj (JObj kv) = v) /\
  (forall pre k v post,
      (forall c v', c ∈ CONVENTIONAL_KEYS ->
                    dict_lookup c (pre ++ (k, v) :: post) = Some v' -> is_scalar v' = false) ->
      Forall (fun p => is_scalar p.2 = false) pre ->
      is_scalar v = true ->
      pick_scalar_from_metric_obj (JObj (pre ++ (k, v) :: post)) = v) /\
  (forall kv,
      Forall (fun p => is_scalar p.2 = false) kv ->
      pick_scalar_from_metric_obj (JObj kv) = JStr (json_dumps (JObj kv))) /\
  pick_scalar_from_metric_obj (JObj [("value", JInt 5); ("current", JInt 9)]) = JInt 5 /\
  pick_scalar_from_metric_obj (JObj [("foo", JStr "bar")]) = JStr "bar" /\
  pick_scalar_from_metric_obj (JObj []) = JStr "{}" /\
  safe_str (pick_scalar_from_metric_obj (JObj [])) = "{}".
Proof.
  repeat split.
  - intros v Hv. destruct v; simpl in Hv; try discriminate; reflexivity.
  - intros kv pre c post v Hcs Hc Hv Hpre. unfold pick_scalar_from_metric_obj.
    rewrite (first_conventional_hit _ pre post c kv v Hcs Hc Hv Hpre). reflexivity.
  - intros pre k v post Hconv Hpre Hv. unfold pick_scalar_from_metric_obj.
    rewrite (first_conventional_miss _ _ Hconv).
    rewrite (first_scalar_item_hit pre post k v Hpre Hv). reflexivity.
  - intros kv Hall. unfold pick_scalar_from_metric_obj.
    rewrite (no_scalar_no_conventional _ _ Hall).
    rewrite (first_scalar_item_miss _ Hall). reflexivity.
Qed.

(** The third clause of [pick_scalar_precedence] at the dict with the single
    field foo. *)
Lemma pick_scalar_precedence_witness :
  pick_scalar_from_metric_obj (JObj ([] ++ ("foo", JStr "bar") :: [])) = JStr "bar".
Proof.
  apply (proj1 (proj2 (proj2 pick_scalar_precedence))).
  - intros c v' Hc. simpl. case_bool_decide; [|discriminate]. subst c.
    exfalso. unfold CONVENTIONAL_KEYS in Hc.
    repeat (apply elem_of_cons in Hc as [Hc|Hc]; [discriminate Hc|]).
    apply elem_of_nil in Hc. exact Hc.
  - constructor.
  - reflexivity.
Defined.

(** C1 as written fails at the empty dict: the claim has the result absent
    and the cell empty, the code returns the text of the dict. *)
Lemma pick_scalar_empty_dict_not_absent :
  pick_scalar_from_metric_obj (JObj []) <> JNull /\
  safe_str (pick_scalar_from_metric_obj (JObj [])) <> "".
Proof. split; discriminate. Qed.

(** ** The Flattener *)

(** The loop over a dict's values (or a list's items) inside
    [find_first_key_recursive]: the first result that is not [None]. *)
Definition first_found {A : Type} (f : A -> json) : list A -> json :=
  fix go (l : list A) : json :=
    match l with
    | [] => JNull
    | x :: rest => match f x with JNull => go rest | found => found end
    end.

Fixpoint find_first_key_recursive (obj : json) (key : string) : json :=
  match obj with
  | JObj kv =>
      match dict_lookup key kv with
      | Some v => v
      | None =>
          first_found (fun p : string * json => find_first_key_recursive (snd p) key) kv
      end
  | JArr l => first_found (fun item => find_first_key_recursive item key) l
  | _ => JNull
  end.

Definition METRIC_TRENDS_KEYS : list string :=
  ["contributors_active"; "contributors_created"; "interactions"; "posts_active"; "posts_created";
   "sentiment"; "spam"; "alt_rank"; "circulating_supply"; "close"; "galaxy_score"; "market_cap";
   "market_dominance"; "social_dominance"; "volume_24h"].

(** The keys of the first loop of [build_values_map_for_ticker]. *)
Definition DATA_COUNT_KEYS : list string :=
  ["sentiment_positive_posts"; "sentiment_positive_interactions";
   "sentiment_neutral_posts"; "sentiment_neutral_interactions";
   "sentiment_negative_posts"; "sentiment_negative_interactions";
   "posts_active"; "posts_active_prev"; "posts_created"; "posts_created_prev";
   "contributors_active"; "contributors_active_prev"; "contributors_created";
   "contributors_created_prev"].

(** The fields of the asset block, in the order the source assigns them;
    each is stored under the field name prefixed with asset_. *)
Definition ASSET_FIELDS : list string :=
  ["id"; "name"; "symbol"; "price"; "price_btc"; "market_cap"; "market_dominance";
   "percent_change_1h"; "percent_change_24h"; "percent_change_7d"; "percent_change_30d";
   "volume_24h"; "max_supply"; "circulating_supply"; "categories"; "close";
   "interactions_24h"; "galaxy_score"; "alt_rank"; "volatility"; "market_cap_rank";
   "social_dominance"; "price_all_time_high"; "price_all_time_high_date";
   "price_52_week_high"; "price_52_week_high_date"; "price_52_week_low";
   "price_52_week_low_date"].

(** [a or b]. *)
Definition py_or (a b : json) : json := if truthy a then a else b.

(** A run of assignments [m[prefix + k] = f(k)] for [k] in [ks], in order. *)
Definition assign_each (prefix : string) (f : string -> json) (ks : list string)
    (m : gmap string json) : gmap string json :=
  foldl (fun m k => <[prefix +:+ k := f k]> m) m ks.

(** Lines 425-427: the value the metric-trend columns are read from. *)
Definition locate_metric_trends (top : list (string * json)) : json :=
  let j := JObj top in
  let mt := py_or (dict_get "metric_trends" JNull top)
                  (get_nested j ["data"; "metric_trends"] JNull) in
  match mt with
  | JNull => find_first_key_recursive j "metric_trends"
  | _ => mt
  end.

(** Lines 428-440: the value stored under metric_trends_<k>. *)
Definition metric_trend_entry (top : list (string * json)) (k : string) : json :=
  match locate_metric_trends top with
  | JObj mt => pick_scalar_from_metric_obj (dict_get k JNull mt)
  | _ =>
      match get_nested (JObj top) ["data"; "change_intervals"] (JObj []) with
      | JObj ci => match dict_lookup k ci with Some v => v | None => JNull end
      | _ => JNull
      end
  end.

(** Lines 443-448: the value stored under change_intervals_<ck>. *)
Definition change_interval_entry (j : json) (ck : string) : json :=
  match get_nested j ["data"; "change_intervals"] (JObj []) with
  | JObj ci => dict_get ck JNull ci
  | _ => JNull
  end.

(** The module-level variables the builder and [run_once] share. *)
Record globals : Type := Globals {
  change_interval_keys_local : list string
}.

(** Lines 353-422 of [build_values_map_for_ticker]: the fixed columns, read
    from the document [JObj top]. *)
Definition fixed_columns (top : list (string * json)) : gmap string json :=
  let j := JObj top in
  let m : gmap string json := ∅ in
  let m := assign_each "" (fun key => get_nested j ["data"; key] JNull) DATA_COUNT_KEYS m in
  let m := <["alerts" := get_nested j ["data"; "alerts"] (JArr [])]> m in
  let ai_summary := get_nested j ["data"; "ai_summary"] (JObj []) in
  let m := <["ai_summary" := ai_summary]> m in
  let m := <["ai_summary_supportive" :=
               match ai_summary with
               | JObj kv => dict_get "supportive" JNull kv
               | _ => JArr []
               end]> m in
  let m := <["types_count" := get_nested j ["data"; "types_count"] (JObj [])]> m in
  let m := <["types_eng" := get_nested j ["data"; "types_eng"] (JObj [])]> m in
  let m := <["types_sentiment" := get_nested j ["data"; "types_sentiment"] (JObj [])]> m in
  let st := get_nested j ["data"; "sentiment_types"] (JObj []) in
  let st_get (k : string) : json :=
    match st with JObj kv => dict_get k (JObj []) kv | _ => JObj [] end in
  let m := <["sentiment_types_tweet" := st_get "tweet"]> m in
  let m := <["sentiment_types_youtube-video" := st_get "youtube-video"]> m in
  let m := <["sentiment_types_tiktok-video" := st_get "tiktok-video"]> m in
  let m := <["sentiment_types_reddit-post" := st_get "reddit-post"]> m in
  let asset := py_or (dict_get "asset" JNull top)
                     (get_nested j ["data"; "asset"] (JObj [])) in
  let m := assign_each "asset_" (fun f => get_nested asset [f] JNull) ASSET_FIELDS m in
  let m := <["interactions_24h" := get_nested j ["data"; "interactions_24h"] JNull]> m in
  let m := <["interactions_24h_prev" := get_nested j ["data"; "interactions_24h_prev"] JNull]> m in
  <["whatsup" := get_nested j ["data"; "whatsup"] JNull]> m.

(** [build_values_map_for_ticker(j, change_interval_keys)].  [None] is an
    exception: [j.get] on a document that is not a dict.  The last loop runs
    over the module-level list, as in the source; the parameter
    [change_interval_keys] is not read. *)
Definition build_values_map_for_ticker (g : globals) (j : json)
    (change_interval_keys : list string) : option (gmap string json) :=
  match j with
  | JObj top =>
      let m := fixed_columns top in
      let m := assign_each "metric_trends_" (metric_trend_entry top) METRIC_TRENDS_KEYS m in
      let m := assign_each "change_intervals_" (change_interval_entry j)
                           (change_interval_keys_local g) m in
      Some m
  | _ => None
  end.

Definition doc_btc : json :=
  JObj [("data", JObj [("posts_active", JInt 7);
                       ("change_intervals", JObj [("1h", JInt 3); ("24h", JObj [("x", JInt 1)])])]);
        ("metric_trends", JObj [("galaxy_score", JObj [("value", JInt 61)]);
                                ("close", JFloat "1.5")])].

Example build_btc_galaxy :
  (build_values_map_for_ticker (Globals ["1h"]) doc_btc [] ≫= (.!! "metric_trends_galaxy_score"))
  = Some (JInt 61).
Proof. vm_compute. reflexivity. Qed.

Example build_btc_ci :
  (build_values_map_for_ticker (Globals ["1h"]) doc_btc [] ≫= (.!! "change_intervals_1h"))
  = Some (JInt 3).
Proof. vm_compute. reflexivity. Qed.

(** ** Facts about runs of assignments *)

Lemma append_inj_r (p a b : string) : p +:+ a = p +:+ b -> a = b.
Proof. induction p as [|c p IH]; simpl; [tauto|]. intros [= H]. apply IH, H. Qed.

Lemma assign_each_other (p : string) (f : string -> json) (ks : list string)
    (m : gmap string json) (key : string) :
  (forall k, k ∈ ks -> p +:+ k <> key) ->
  assign_each p f ks m !! key = m !! key.
Proof.
  unfold assign_each. revert m. induction ks as [|k ks IH]; intros m H; simpl; [reflexivity|].
  rewrite IH; [|intros k' Hk'; apply H; right; exact Hk'].
  apply lookup_insert_ne, H. left.
Qed.

Lemma assign_each_hit (p : string) (f : string -> json) (ks : list string)
    (m : gmap string json) (k : string) :
  k ∈ ks -> assign_each p f ks m !! (p +:+ k) = Some (f k).
Proof.
  unfold assign_each. revert m. induction ks as [|k0 ks IH]; intros m Hin; simpl.
  - apply elem_of_nil in Hin. destruct Hin.
  - destruct (decide (k ∈ ks)) as [Hk|Hk]; [apply IH, Hk|].
    apply elem_of_cons in Hin as [->|Hin]; [|contradiction].
    fold (assign_each p f ks (<[p +:+ k0 := f k0]> m)).
    rewrite assign_each_other.
    + apply lookup_insert_eq.
    + intros k' Hk' Heq. apply append_inj_r in Heq. subst k'. contradiction.
Qed.

(** No fixed column has a name that starts with change_intervals_ or with
    metric_trends_. *)
Lemma data_count_keys_plain (ks : list string) (p rest : string) :
  ks = DATA_COUNT_KEYS ->
  p = "change_intervals_" \/ p = "metric_trends_" ->
  forall k, k ∈ ks -> "" +:+ k <> p +:+ rest.
Proof.
  intros -> Hp k Hk. unfold DATA_COUNT_KEYS in Hk.
  repeat (apply elem_of_cons in Hk as [->|Hk]; [destruct Hp as [->| ->]; discriminate|]).
  apply elem_of_nil in Hk. destruct Hk.
Qed.

Lemma fixed_columns_no_dynamic (top : list (string * json)) (p rest : string) :
  p = "change_intervals_" \/ p = "metric_trends_" ->
  fixed_columns top !! (p +:+ rest) = None.
Proof.
  intros Hp. unfold fixed_columns.
  rewrite !lookup_insert_ne by (destruct Hp as [->| ->]; discriminate).
  rewrite assign_each_other by (intros; destruct Hp as [->| ->]; discriminate).
  rewrite !lookup_insert_ne by (destruct Hp as [->| ->]; discriminate).
  rewrite assign_each_other by (apply data_count_keys_plain; [reflexivity|exact Hp]).
  apply lookup_empty.
Qed.

(** What the finished map holds under a change_intervals_ column. *)
Lemma build_lookup_change_interval (g : globals) (j : json) (keys : list string)
    (m : gmap string json) (ck : string) :
  build_values_map_for_ticker g j keys = Some m ->
  m !! ("change_intervals_" +:+ ck)
  = if bool_decide (ck ∈ change_interval_keys_local g)
    then Some (change_interval_entry j ck) else None.
Proof.
  destruct j as [| | | | | |top]; [discriminate..|].
  unfold build_values_map_for_ticker. intros H. apply (inj Some) in H. subst m.
  case_bool_decide as Hin.
  - apply assign_each_hit, Hin.
  - rewrite assign_each_other
      by (intros k Hk Heq; apply append_inj_r in Heq; subst k; contradiction).
    rewrite assign_each_other by (intros; discriminate).
    apply fixed_columns_no_dynamic. left. reflexivity.
Qed.

(** ** Where the metric-trend columns come from *)





(** Only a nested block has the key. *)
Definition doc_nested : json :=
  JObj [("data", JObj [("asset", JObj [("id", JInt 1)])]);
        ("extra", JArr [JInt 0; JObj [("metric_trends", JObj [("close", JObj [("v", JInt 2)])])]])].


Example locate_nested :
  match doc_nested with
  | JObj top => metric_trend_entry top "close" = JInt 2
  | _ => False
  end.
Proof. vm_compute. reflexivity. Qed.






(** ** The worksheet, the remote calls and the event log *)

Inductive level : Type := INFO | WARNING | ERROR.

(** One line written by [log_event], [log_warn] or [log_error]; the
    constructor stands for the fixed text of the message and the arguments
    for the values formatted into it. *)
Inductive event : Type :=
  | AppendedHeaders (missing : list string)
  | FailedAppendHeaders
  | FailedSearchingTicker
  | SkippingCell (h : string) (row_idx : nat)
  | WroteRow (row_idx : nat)
  | FailedWriteRow (row_idx : nat)
  | CellTooLarge (h t : string)
  | UpdatedRow (row_idx : nat)
  | AppendedRow (row_idx : nat)
  | WriteFailed (t : string)
  | FallbackUpdated
  | FallbackAppended
  | FinalFallbackFailed (t : string).

Definition level_of (e : event) : level :=
  match e with
  | AppendedHeaders _ | WroteRow _ | UpdatedRow _ | AppendedRow _
  | FallbackUpdated | FallbackAppended => INFO
  | FailedSearchingTicker | SkippingCell _ _ | CellTooLarge _ _ => WARNING
  | FailedAppendHeaders | FailedWriteRow _ | WriteFailed _ | FinalFallbackFailed _ => ERROR
  end.

(** One call of [ws.update] on a single-row range starting in column A. *)
Record update_call : Type := UpdateCall {
  uc_row : nat;
  uc_end_col : string;
  uc_values : list json;
  uc_ok : bool
}.

(** The worksheet holds rows of cells, row 1 first.  [faults] says, for each
    remote call still to come, whether it raises (none left: no call raises).
    [updates] records every [ws.update] attempted, oldest first.  A call that
    raises leaves the sheet as it was. *)
Record world : Type := World {
  sheet : list (list json);
  faults : list bool;
  log : list event;
  updates : list update_call
}.

(** The text a cell shows when read back. *)
Definition cell_text (v : json) : string :=
  match v with
  | JStr s => s
  | _ => safe_str v
  end.

Definition first_cell_text (row : list json) : string :=
  match row with [] => "" | c :: _ => cell_text c end.

Fixpoint drop_leading_empty (l : list string) : list string :=
  match l with
  | [] => []
  | s :: rest => if bool_decide (s = "") then drop_leading_empty rest else l
  end.

(** [ws.col_values(1)]: column A from row 1 down to its last filled cell. *)
Definition col_a (sh : list (list json)) : list string :=
  rev (drop_leading_empty (rev (List.map first_cell_text sh))).

(** Overwrite the first cells of row [r] (counted from 1), adding empty rows
    when the sheet is shorter. *)
Definition set_row (r : nat) (values : list json) (sh : list (list json))
    : list (list json) :=
  let padded := sh ++ replicate (r - length sh) [] in
  match padded !! (r - 1)%nat with
  | Some old => <[(r - 1)%nat := values ++ drop (length values) old]> padded
  | None => padded
  end.

(** *** A state and exception monad over the world *)

Definition M (A : Type) : Type := world -> option A * world.

Definition ret {A : Type} (a : A) : M A := fun w => (Some a, w).

Definition raise {A : Type} : M A := fun w => (None, w).

Definition bind {A B : Type} (c : M A) (k : A -> M B) : M B :=
  fun w => match c w with
           | (Some a, w') => k a w'
           | (None, w') => (None, w')
           end.

(** [try: body except Exception: handler]. *)
Definition try_catch {A : Type} (body handler : M A) : M A :=
  fun w => match body w with
           | (Some a, w') => (Some a, w')
           | (None, w') => handler w'
           end.

Global Instance M_ret : MRet M := @ret.
Global Instance M_bind : MBind M := fun A B k c => bind c k.

Definition write_log (e : event) : M unit :=
  fun w => (Some (), World (sheet w) (faults w) (log w ++ [e]) (updates w)).

(** The next entry of the fault schedule. *)
Definition next_fault (w : world) : bool * list bool :=
  match faults w with
  | [] => (false, [])
  | f :: fs => (f, fs)
  end.

Definition ws_col_values_1 : M (list string) :=
  fun w =>
    let '(f, fs) := next_fault w in
    let w' := World (sheet w) fs (log w) (updates w) in
    if f then (None, w') else (Some (col_a (sheet w)), w').

Definition ws_update_row (r : nat) (end_col : string) (values : list json) : M unit :=
  fun w =>
    let '(f, fs) := next_fault w in
    if f then
      (None, World (sheet w) fs (log w) (updates w ++ [UpdateCall r end_col values false]))
    else
      (Some (), World (set_row r values (sheet w)) fs (log w)
                      (updates w ++ [UpdateCall r end_col values true])).

(** *** Helpers of the source *)

Fixpoint number_to_column_loop (fuel n : nat) (letters : list ascii) : list ascii :=
  match fuel with
  | O => letters
  | S fuel' =>
      if (n =? 0)%nat then letters
      else number_to_column_loop fuel' ((n - 1) / 26)%nat
             (ascii_of_nat (65 + (n - 1) mod 26) :: letters)
  end.

(** [number_to_column(n)]; [None] is the [ValueError]. *)
Definition number_to_column (n : nat) : option string :=
  if (n <? 1)%nat then None
  else Some (string_of_list_ascii (number_to_column_loop n n [])).

Example number_to_column_28 : number_to_column 28 = Some "AB".
Proof. reflexivity. Qed.

Example number_to_column_703 : number_to_column 703 = Some "AAA".
Proof. vm_compute. reflexivity. Qed.

(** [c.isspace()] for a character below U+0100: tab to carriage return,
    the four separators U+001C..U+001F, the space, U+0085 and U+00A0. *)
Definition is_space (c : ascii) : bool :=
  let n := N_of_ascii c in
  ((9 <=? n) && (n <=? 13) || (28 <=? n) && (n <=? 32)
   || (n =? 133) || (n =? 160))%N.

Fixpoint lstrip (s : string) : string :=
  match s with
  | EmptyString => EmptyString
  | String c rest => if is_space c then lstrip rest else s
  end.

(** [s.strip()]. *)
Definition strip (s : string) : string :=
  String.rev (lstrip (String.rev (lstrip s))).

(** [c.lower()] for a character below U+0100: the capitals A..Z and
    U+00C0..U+00DE, the sign U+00D7 left out, move up by 32. *)
Definition lower_char (c : ascii) : ascii :=
  let n := N_of_ascii c in
  if ((65 <=? n) && (n <=? 90)
      || (192 <=? n) && (n <=? 222) && negb (n =? 215))%N
  then ascii_of_N (n + 32) else c.

(** [s.lower()]. *)
Fixpoint lower (s : string) : string :=
  match s with
  | EmptyString => EmptyString
  | String c rest => String (lower_char c) (lower rest)
  end.

Definition same_ticker (v ticker : string) : bool :=
  bool_decide (lower (strip v) = lower (strip ticker)).

Example same_ticker_btc : same_ticker " Btc " "BTC" = true.
Proof. vm_compute. reflexivity. Qed.

(** ** Header reconciliation and row writes *)

(** [append_new_headers(ws, current_headers, new_headers)].  The header row
    is row 3. *)
Definition append_new_headers (current_headers new_headers : list string)
    : M (list string) :=
  let missing := filter (fun h => h ∉ current_headers) new_headers in
  match missing with
  | [] => mret current_headers
  | _ :: _ =>
      let updated := current_headers ++ missing in
      try_catch
        (match number_to_column (length updated) with
         | None => raise
         | Some end_col =>
             ws_update_row 3 end_col (JStr <$> updated);;
             write_log (AppendedHeaders missing)
         end)
        (write_log FailedAppendHeaders;; raise);;
      mret updated
  end.

(** The loop of [find_row_for_ticker]: [vs] are the cells from row [idx] on. *)
Fixpoint scan_from (idx : nat) (vs : list string) (ticker : string) : option nat :=
  match vs with
  | [] => None
  | v :: rest => if same_ticker v ticker then Some idx else scan_from (S idx) rest ticker
  end.

(** [col_a[start_row - 1:]] for a start row from 0 on: at 0 the slice
    starts at index -1 and holds the last cell only. *)
Definition cells_from (start_row : nat) (col : list string) : list string :=
  match start_row with
  | O => drop (length col - 1) col
  | S n => drop n col
  end.

(** [find_row_for_ticker(ws, ticker, start_row)]. *)
Definition find_row_for_ticker (ticker : string) (start_row : nat) : M (option nat) :=
  try_catch
    (col ← ws_col_values_1;
     mret (scan_from start_row (cells_from start_row col) ticker))
    (write_log FailedSearchingTicker;; mret None).

(** [values_map.get(h, "")]. *)
Definition vm_get (values_map : gmap string json) (h : string) : json :=
  default (JStr "") (values_map !! h).

(** One turn of the loop of [write_row_by_header_order]: the cell for
    header [h]. *)
Definition row_cell (values_map : gmap string json) (row_idx : nat) (h : string) : M json :=
  if bool_decide (h = "ticker") then mret (vm_get values_map "ticker")
  else
    let s := safe_str (vm_get values_map h) in
    if is_too_large s then write_log (SkippingCell h row_idx);; mret (JStr "")
    else mret (JStr s).

(** [for h in headers: ... row.append(...)]. *)
Fixpoint for_each {A : Type} (body : string -> M A) (headers : list string) : M (list A) :=
  match headers with
  | [] => mret []
  | h :: rest => c ← body h; cs ← for_each body rest; mret (c :: cs)
  end.

(** [write_row_by_header_order(ws, headers, values_map, row_idx)].  With no
    header [number_to_column] raises inside the [try]; the handler then
    raises in turn when it formats [range_str], which was never bound, so
    nothing is logged. *)
Definition write_row_by_header_order (headers : list string)
    (values_map : gmap string json) (row_idx : nat) : M unit :=
  row ← for_each (row_cell values_map row_idx) headers;
  match number_to_column (length row) with
  | None => raise
  | Some end_col =>
      try_catch
        (ws_update_row row_idx end_col row;; write_log (WroteRow row_idx))
        (write_log (FailedWriteRow row_idx);; raise)
  end.

(** ** The write of one ticker in [run_once] (lines 571-607) *)

(** One turn of the loop at lines 582-588. *)
Definition append_cell (values_map : gmap string json) (t h : string) : M json :=
  let s := safe_str (vm_get values_map h) in
  if is_too_large s then write_log (CellTooLarge h t);; mret (JStr "")
  else mret (JStr s).

(** The comprehension at line 602. *)
Definition fallback_cell (values_map : gmap string json) (h : string) : json :=
  if is_too_large (safe_str (vm_get values_map h)) then JStr ""
  else JStr (safe_str (vm_get values_map h)).

(** [max(4, len(data_ws.col_values(1)) + 1)]. *)
Definition next_free_row : M nat :=
  col ← ws_col_values_1; mret (Nat.max 4 (length col + 1)).

(** Lines 573-592, the body of the outer [try]. *)
Definition first_attempt (headers : list string) (values_map : gmap string json)
    (t : string) (row_idx : option nat) : M unit :=
  match row_idx with
  | Some r =>
      write_row_by_header_order headers values_map r;;
      write_log (UpdatedRow r)
  | None =>
      append_row_idx ← next_free_row;
      row_vals ← for_each (append_cell values_map t) headers;
      match number_to_column (length row_vals) with
      | None => raise
      | Some end_col =>
          ws_update_row append_row_idx end_col row_vals;;
          write_log (AppendedRow append_row_idx)
      end
  end.

(** The value stored under raw_json at line 596. *)
Definition raw_json_value (j : json) : json :=
  JStr (if is_too_large (safe_str j) then "" else safe_str j).

(** Lines 596-605, the body of the inner [try]. *)
Definition fallback_attempt (headers : list string) (values_map : gmap string json)
    (j : json) (row_idx : option nat) : M unit :=
  let values_map := <["raw_json" := raw_json_value j]> values_map in
  match row_idx with
  | Some r =>
      write_row_by_header_order headers values_map r;;
      write_log FallbackUpdated
  | None =>
      append_row_idx ← next_free_row;
      let row_vals := fallback_cell values_map <$> headers in
      match number_to_column (length row_vals) with
      | None => raise
      | Some end_col =>
          ws_update_row append_row_idx end_col row_vals;;
          write_log FallbackAppended
      end
  end.

(** Lines 571-607: locate the row, write, and on failure write once more. *)
Definition upsert (headers : list string) (values_map : gmap string json)
    (j : json) (t : string) : M unit :=
  row_idx ← find_row_for_ticker t 4;
  try_catch
    (first_attempt headers values_map t row_idx)
    (write_log (WriteFailed t);;
     try_catch
       (fallback_attempt headers values_map j row_idx)
       (write_log (FinalFallbackFailed t))).

(** The sheet of the end-to-end scenario: token row, header row, BTC in
    row 4. *)
Definition sheet_btc : list (list json) :=
  [[]; [JStr "token"; JStr "2024-01-01"]; [JStr "ticker"; JStr "asset_price"];
   [JStr "BTC"; JStr "1"]].

Definition world_btc (fs : list bool) : world := World sheet_btc fs [] [].

Definition vm_eth : gmap string json :=
  <["ticker" := JStr "eth"]> (<["asset_price" := JInt 3000]> ∅).

Example upsert_eth_appends :
  sheet (upsert ["ticker"; "asset_price"] vm_eth JNull "eth" (world_btc [])).2
  = sheet_btc ++ [[JStr "eth"; JStr "3000"]].
Proof. vm_compute. reflexivity. Qed.

Example upsert_btc_in_place :
  sheet (upsert ["ticker"; "asset_price"]
           (<["ticker" := JStr "BTC"]> (<["asset_price" := JInt 65000]> ∅))
           JNull "BTC"
           (World (sheet_btc ++ [[JStr "eth"; JStr "3000"]]) [] [] [])).2
  = [[]; [JStr "token"; JStr "2024-01-01"]; [JStr "ticker"; JStr "asset_price"];
     [JStr "BTC"; JStr "65000"]; [JStr "eth"; JStr "3000"]].
Proof. vm_compute. reflexivity. Qed.

(** ** Header reconciliation: no-op, idempotence, monotonicity *)

Ltac unfold_monad :=
  unfold mbind, M_bind, mret, M_ret, bind, ret, raise, try_catch, write_log,
    ws_update_row, ws_col_values_1, next_fault in *.

Lemma filter_all_present (current new : list string) :
  (forall h, h ∈ new -> h ∈ current) ->
  filter (fun h => h ∉ current) new = [].
Proof.
  induction new as [|h new IH]; intros Hall; [reflexivity|].
  rewrite filter_cons. destruct (decide (h ∉ current)) as [Hn|_].
  - exfalso. apply Hn, Hall. left.
  - apply IH. intros h' Hh'. apply Hall. right. exact Hh'.
Qed.

(** A call that returns gives the old header followed by the candidates
    that were missing, in the order supplied. *)
Lemma append_new_headers_result (current new h1 : list string) (w w1 : world) :
  append_new_headers current new w = (Some h1, w1) ->
  h1 = current ++ filter (fun h => h ∉ current) new.
Proof.
  unfold append_new_headers.
  destruct (filter (fun h => h ∉ current) new) as [|m ms] eqn:Hf.
  - unfold_monad. intros [= <- _]. symmetry. apply app_nil_r.
  - unfold_monad.
    destruct (number_to_column (length (current ++ m :: ms))); simpl;
      destruct (faults w) as [|[] fs]; simpl; intros [= <- _]; reflexivity.
Qed.

Lemma append_new_headers_covers (current new : list string) (h : string) :
  h ∈ new -> h ∈ current ++ filter (fun h => h ∉ current) new.
Proof.
  intros Hin. destruct (decide (h ∈ current)) as [Hc|Hc].
  - apply elem_of_app. left. exact Hc.
  - apply elem_of_app. right. apply list_elem_of_filter. split; assumption.
Qed.

(** C5.  When every candidate is already in the header the call returns the
    header it was given and leaves the world as it was: no update is sent,
    nothing is logged.  So when a first call has returned a header, a second
    call on that header with the same candidates returns it again and
    changes nothing. *)
Theorem reconcile_noop_and_idempotent :
  (forall (current new : list string) (w : world),
      (forall h, h ∈ new -> h ∈ current) ->
      append_new_headers current new w = (Some current, w)) /\
  (forall (current new h1 : list string) (w w1 : world),
      append_new_headers current new w = (Some h1, w1) ->
      append_new_headers h1 new w1 = (Some h1, w1)).
Proof.
  assert (Hnoop : forall (current new : list string) (w : world),
             (forall h, h ∈ new -> h ∈ current) ->
             append_new_headers current new w = (Some current, w)).
  { intros current new w Hall. unfold append_new_headers.
    rewrite (filter_all_present _ _ Hall). reflexivity. }
  split; [exact Hnoop|].
  intros current new h1 w w1 H1. apply Hnoop.
  apply append_new_headers_result in H1. subst h1.
  intros h. apply append_new_headers_covers.
Qed.

Lemma reconcile_noop_and_idempotent_witness :
  append_new_headers ["ticker"; "raw_json"] ["raw_json"] (world_btc [true])
  = (Some ["ticker"; "raw_json"], world_btc [true]) /\
  append_new_headers ["ticker"; "raw_json"; "change_intervals_1h"]
    ["raw_json"; "change_intervals_1h"]
    (append_new_headers ["ticker"] ["raw_json"; "change_intervals_1h"] (world_btc [])).2
  = (Some ["ticker"; "raw_json"; "change_intervals_1h"],
     (append_new_headers ["ticker"] ["raw_json"; "change_intervals_1h"] (world_btc [])).2).
Proof.
  split.
  - apply (proj1 reconcile_noop_and_idempotent).
    intros h Hh. apply list_elem_of_singleton in Hh. subst h. right. left.
  - apply (proj2 reconcile_noop_and_idempotent ["ticker"]
             ["raw_json"; "change_intervals_1h"] _ (world_btc [])).
    vm_compute. reflexivity.
Defined.

(** A run of reconcile calls, each on the header the one before returned;
    the result lists the headers returned, first call first. *)
Fixpoint reconcile_seq (h : list string) (cands : list (list string))
    : M (list (list string)) :=
  match cands with
  | [] => mret []
  | c :: rest =>
      h' ← append_new_headers h c;
      hs ← reconcile_seq h' rest;
      mret (h' :: hs)
  end.

Lemma reconcile_seq_cons (h c : list string) (rest : list (list string))
    (hs : list (list string)) (w w' : world) :
  reconcile_seq h (c :: rest) w = (Some hs, w') ->
  exists h' hs' w1,
    append_new_headers h c w = (Some h', w1) /\
    reconcile_seq h' rest w1 = (Some hs', w') /\
    hs = h' :: hs'.
Proof.
  simpl. unfold mbind at 1, M_bind, bind.
  destruct (append_new_headers h c w) as [[h'|] w1] eqn:Hstep; [|discriminate].
  unfold mbind at 1, M_bind, bind.
  destruct (reconcile_seq h' rest w1) as [[hs'|] w2] eqn:Hrest; [|discriminate].
  unfold mret, M_ret, ret. intros [= <- <-].
  exists h', hs', w1. split; [reflexivity|]. split; [exact Hrest|reflexivity].
Qed.

Lemma append_keeps_nodup (current new : list string) :
  NoDup current -> NoDup new ->
  NoDup (current ++ filter (fun h => h ∉ current) new).
Proof.
  intros Hc Hn. apply NoDup_app. split; [exact Hc|]. split.
  - intros x Hx Hf. apply list_elem_of_filter in Hf as [Hnot _]. contradiction.
  - apply NoDup_filter, Hn.
Qed.

(** Every header of a run extends the one the run started from. *)
Lemma reconcile_seq_extends (cands : list (list string)) :
  forall (h : list string) (hs : list (list string)) (w w' : world),
    reconcile_seq h cands w = (Some hs, w') ->
    length hs = length cands /\
    Forall (fun h' => h `prefix_of` h') hs /\
    (forall i j hi hj, (i <= j)%nat -> hs !! i = Some hi -> hs !! j = Some hj ->
                       hi `prefix_of` hj) /\
    (NoDup h -> Forall (fun c => NoDup c) cands -> Forall (fun h' => NoDup h') hs).
Proof.
  induction cands as [|c rest IH]; intros h hs w w' Hrun.
  - simpl in Hrun. unfold mret, M_ret, ret in Hrun. injection Hrun as <- _.
    repeat split; [constructor| |constructor].
    intros i j hi hj _ Hi. rewrite lookup_nil in Hi. discriminate.
  - apply reconcile_seq_cons in Hrun as (h' & hs' & w1 & Hstep & Hrest & ->).
    apply append_new_headers_result in Hstep.
    destruct (IH h' hs' w1 w' Hrest) as (Hlen & Hpre & Hmono & Hnd).
    assert (Hhh' : h `prefix_of` h') by (subst h'; apply prefix_app_r; reflexivity).
    repeat split.
    + simpl. rewrite Hlen. reflexivity.
    + constructor; [exact Hhh'|].
      eapply Forall_impl; [exact Hpre|]. intros x Hx. etrans; eassumption.
    + intros i j hi hj Hij Hi Hj. destruct i as [|i]; destruct j as [|j]; simpl in *.
      * injection Hi as <-. injection Hj as <-. reflexivity.
      * injection Hi as <-. rewrite Forall_lookup in Hpre. eapply Hpre, Hj.
      * lia.
      * eapply Hmono; [|exact Hi|exact Hj]. lia.
    + intros Hh Hc. inversion Hc as [|c0 rest0 Hc0 Hrest0]; subst c0 rest0.
      assert (Hh' : NoDup h') by (rewrite Hstep; apply append_keeps_nodup; assumption).
      constructor; [exact Hh'|]. apply Hnd; assumption.
Qed.

(** C6 (as the code has it).  In a run of reconcile calls that return, each
    header is a prefix of every later one, the one the run started from
    included, so the column count never goes down and no column is removed
    or moved; and when the starting header and every candidate list are free
    of duplicates, so is every header of the run. *)
Theorem reconcile_seq_monotone (h0 : list string) (cands hs : list (list string))
    (w w' : world) :
  reconcile_seq h0 cands w = (Some hs, w') ->
  (forall i j hi hj, (i <= j)%nat ->
      (h0 :: hs) !! i = Some hi -> (h0 :: hs) !! j = Some hj ->
      hi `prefix_of` hj /\ (length hi <= length hj)%nat) /\
  (NoDup h0 -> Forall (fun c => NoDup c) cands -> Forall (fun h => NoDup h) (h0 :: hs)).
Proof.
  intros Hrun.
  destruct (reconcile_seq_extends cands h0 hs w w' Hrun) as (_ & Hpre & Hmono & Hnd).
  split.
  - assert (Hp : forall i j hi hj, (i <= j)%nat ->
                (h0 :: hs) !! i = Some hi -> (h0 :: hs) !! j = Some hj ->
                hi `prefix_of` hj).
    { intros i j hi hj Hij Hi Hj. destruct i as [|i]; destruct j as [|j]; simpl in *.
      - injection Hi as <-. injection Hj as <-. reflexivity.
      - injection Hi as <-. rewrite Forall_lookup in Hpre. eapply Hpre, Hj.
      - lia.
      - eapply Hmono; [|exact Hi|exact Hj]. lia. }
    intros i j hi hj Hij Hi Hj. split; [eapply Hp; eassumption|].
    apply prefix_length. eapply Hp; eassumption.
  - intros Hh Hc. constructor; [exact Hh|]. apply Hnd; assumption.
Qed.

Lemma reconcile_seq_monotone_witness :
  ["ticker"] `prefix_of` ["ticker"; "raw_json"; "change_intervals_1h"] /\
  (length ["ticker"] <= length ["ticker"; "raw_json"; "change_intervals_1h"])%nat.
Proof.
  apply (proj1 (reconcile_seq_monotone ["ticker"]
                  [["raw_json"]; ["raw_json"; "change_intervals_1h"]; ["ticker"]]
                  [["ticker"; "raw_json"]; ["ticker"; "raw_json"; "change_intervals_1h"];
                   ["ticker"; "raw_json"; "change_intervals_1h"]]
                  (world_btc [])
                  (reconcile_seq ["ticker"]
                     [["raw_json"]; ["raw_json"; "change_intervals_1h"]; ["ticker"]]
                     (world_btc [])).2
                  ltac:(vm_compute; reflexivity)) 0%nat 2%nat);
    [lia|reflexivity|reflexivity].
Defined.

(** C6 as written fails in its last part: a candidate list that names a
    missing column twice puts it into the header twice. *)
Lemma reconcile_duplicate_candidates :
  NoDup (@nil string) /\
  (append_new_headers [] ["a"; "a"] (world_btc [])).1 = Some ["a"; "a"] /\
  ~ NoDup ["a"; "a"].
Proof.
  split; [constructor|]. split; [vm_compute; reflexivity|].
  intros H. apply NoDup_cons in H as [Hin _]. apply Hin. left.
Qed.

(** ** The row sent by a write *)

(** The cell [write_row_by_header_order] sends for header [h]. *)
Definition row_value (values_map : gmap string json) (h : string) : json :=
  if bool_decide (h = "ticker") then vm_get values_map "ticker"
  else if is_too_large (safe_str (vm_get values_map h)) then JStr ""
       else JStr (safe_str (vm_get values_map h)).

(** The warnings it logs while building the row. *)
Definition row_warnings (values_map : gmap string json) (row_idx : nat)
    (headers : list string) : list event :=
  omap (fun h => if bool_decide (h = "ticker") then None
                 else if is_too_large (safe_str (vm_get values_map h))
                      then Some (SkippingCell h row_idx) else None) headers.

(** The same for the loop of the append branch of [run_once]. *)
Definition append_warnings (values_map : gmap string json) (t : string)
    (headers : list string) : list event :=
  omap (fun h => if is_too_large (safe_str (vm_get values_map h))
                 then Some (CellTooLarge h t) else None) headers.

Definition add_log (es : list event) (w : world) : world :=
  World (sheet w) (faults w) (log w ++ es) (updates w).

Lemma add_log_nil (w : world) : add_log [] w = w.
Proof. destruct w. unfold add_log. simpl. rewrite app_nil_r. reflexivity. Qed.

Lemma add_log_app (es1 es2 : list event) (w : world) :
  add_log es2 (add_log es1 w) = add_log (es1 ++ es2) w.
Proof. unfold add_log. simpl. rewrite app_assoc. reflexivity. Qed.

Lemma for_each_row_cell (values_map : gmap string json) (row_idx : nat)
    (headers : list string) (w : world) :
  for_each (row_cell values_map row_idx) headers w
  = (Some (row_value values_map <$> headers),
     add_log (row_warnings values_map row_idx headers) w).
Proof.
  revert w. induction headers as [|h rest IH]; intros w; simpl.
  - unfold mret, M_ret, ret. rewrite add_log_nil. reflexivity.
  - unfold mbind at 1, M_bind, bind, row_cell, row_value.
    case_bool_decide as Hh.
    + unfold mret at 1, M_ret, ret. unfold mbind at 1, M_bind, bind. rewrite IH.
      unfold mret, M_ret, ret. reflexivity.
    + destruct (is_too_large (safe_str (vm_get values_map h))).
      * unfold mbind at 1, M_bind, bind, write_log, mret at 1, M_ret, ret.
        unfold mbind at 1, M_bind, bind. rewrite IH.
        unfold mret, M_ret, ret. simpl.
        change (World (sheet w) (faults w) (log w ++ [SkippingCell h row_idx]) (updates w))
          with (add_log [SkippingCell h row_idx] w).
        rewrite add_log_app. reflexivity.
      * unfold mret at 1, M_ret, ret. unfold mbind at 1, M_bind, bind. rewrite IH.
        unfold mret, M_ret, ret. reflexivity.
Qed.

Lemma for_each_append_cell (values_map : gmap string json) (t : string)
    (headers : list string) (w : world) :
  for_each (append_cell values_map t) headers w
  = (Some (fallback_cell values_map <$> headers),
     add_log (append_warnings values_map t headers) w).
Proof.
  revert w. induction headers as [|h rest IH]; intros w; simpl.
  - unfold mret, M_ret, ret. rewrite add_log_nil. reflexivity.
  - unfold mbind at 1, M_bind, bind, append_cell, fallback_cell.
    destruct (is_too_large (safe_str (vm_get values_map h))).
    + unfold mbind at 1, M_bind, bind, write_log, mret at 1, M_ret, ret.
      unfold mbind at 1, M_bind, bind. rewrite IH.
      unfold mret, M_ret, ret. simpl.
      change (World (sheet w) (faults w) (log w ++ [CellTooLarge h t]) (updates w))
        with (add_log [CellTooLarge h t] w).
      rewrite add_log_app. reflexivity.
    + unfold mret at 1, M_ret, ret. unfold mbind at 1, M_bind, bind. rewrite IH.
      unfold mret, M_ret, ret. reflexivity.
Qed.

(** What one call of [write_row_by_header_order] does, by cases on the
    header count and on whether the update raises. *)
Lemma write_row_by_header_order_eq (headers : list string)
    (values_map : gmap string json) (row_idx : nat) (w : world) :
  write_row_by_header_order headers values_map row_idx w
  = let row := row_value values_map <$> headers in
    let w1 := add_log (row_warnings values_map row_idx headers) w in
    match number_to_column (length headers) with
    | None => (None, w1)
    | Some end_col =>
        let '(f, fs) := next_fault w in
        if f then
          (None, World (sheet w) fs (log w1 ++ [FailedWriteRow row_idx])
                       (updates w ++ [UpdateCall row_idx end_col row false]))
        else
          (Some (), World (set_row row_idx row (sheet w)) fs (log w1 ++ [WroteRow row_idx])
                          (updates w ++ [UpdateCall row_idx end_col row true]))
    end.
Proof.
  unfold write_row_by_header_order. unfold mbind at 1, M_bind, bind.
  rewrite for_each_row_cell. rewrite length_fmap. simpl.
  destruct (number_to_column (length headers)) as [end_col|]; [|reflexivity].
  unfold_monad. simpl. destruct (faults w) as [|[] fs]; reflexivity.
Qed.

Lemma number_to_column_pos (n : nat) : (0 < n)%nat -> is_Some (number_to_column n).
Proof.
  intros Hn. unfold number_to_column.
  destruct (n <? 1)%nat eqn:E; [|eexists; reflexivity].
  apply Nat.ltb_lt in E. lia.
Qed.

(** A text of 50001 characters. *)
Definition big_text : string := string_of_list_ascii (replicate (N.to_nat 50001) "x"%char).

Example big_text_too_large : is_too_large big_text = true.
Proof. vm_compute. reflexivity. Qed.


Lemma row_warnings_has (values_map : gmap string json) (row_idx : nat)
    (headers : list string) (h : string) :
  h ∈ headers -> h <> "ticker" ->
  is_too_large (safe_str (vm_get values_map h)) = true ->
  SkippingCell h row_idx ∈ row_warnings values_map row_idx headers.
Proof.
  intros Hin Hne Hbig. apply list_elem_of_omap. exists h. split; [exact Hin|].
  rewrite bool_decide_eq_false_2 by exact Hne. rewrite Hbig. reflexivity.
Qed.


(** C10.  In the row [write_row_by_header_order] sends, the cell of a column
    named ticker is the map's ticker entry as it is, not its text and not
    subject to the length check, and the empty text when the map has no
    ticker entry; every other cell is the text of the entry, or empty when
    that text is too long.  So an in-place write with no ticker entry blanks
    the identity cell, and a ticker text over the limit is sent in full. *)
Theorem ticker_cell_sent_raw (headers : list string) (values_map : gmap string json)
    (row_idx : nat) (w : world) (i : nat) :
  headers !! i = Some "ticker" ->
  exists end_col row ok,
    updates (write_row_by_header_order headers values_map row_idx w).2
    = updates w ++ [UpdateCall row_idx end_col row ok] /\
    length row = length headers /\
    row !! i = Some (default (JStr "") (values_map !! "ticker")) /\
    (values_map !! "ticker" = None -> row !! i = Some (JStr "")) /\
    (forall s, values_map !! "ticker" = Some (JStr s) -> is_too_large s = true ->
               row !! i = Some (JStr s)) /\
    (forall k h, headers !! k = Some h -> h <> "ticker" ->
       row !! k = Some (JStr (if is_too_large (safe_str (vm_get values_map h))
                              then "" else safe_str (vm_get values_map h)))).
Proof.
  intros Hi. rewrite write_row_by_header_order_eq. cbv zeta.
  assert (Hpos : (0 < length headers)%nat).
  { apply lookup_lt_Some in Hi. lia. }
  destruct (number_to_column_pos _ Hpos) as [end_col Hcol]. rewrite Hcol.
  assert (Hrow : (row_value values_map <$> headers) !! i
                 = Some (default (JStr "") (values_map !! "ticker"))).
  { rewrite list_lookup_fmap, Hi. reflexivity. }
  exists end_col, (row_value values_map <$> headers).
  exists (negb (next_fault w).1).
  split; [|split; [|split; [|split; [|split]]]].
  - destruct (next_fault w) as [[] fs]; reflexivity.
  - apply length_fmap.
  - exact Hrow.
  - intros Hnone. rewrite Hrow, Hnone. reflexivity.
  - intros s Hs _. rewrite Hrow, Hs. reflexivity.
  - intros k h Hk Hne. rewrite list_lookup_fmap, Hk. simpl. unfold row_value.
    rewrite bool_decide_eq_false_2 by exact Hne.
    destruct (is_too_large _); reflexivity.
Qed.

Lemma ticker_cell_sent_raw_witness :
  exists end_col row ok,
    updates (write_row_by_header_order ["ticker"; "asset_price"]
               (<["ticker" := JStr big_text]> (<["asset_price" := JStr big_text]> ∅))
               4 (world_btc [])).2
    = updates (world_btc []) ++ [UpdateCall 4 end_col row ok] /\
    row !! 0%nat = Some (JStr big_text) /\
    row !! 1%nat = Some (JStr "").
Proof.
  destruct (ticker_cell_sent_raw ["ticker"; "asset_price"]
              (<["ticker" := JStr big_text]> (<["asset_price" := JStr big_text]> ∅))
              4 (world_btc []) 0 eq_refl)
    as (end_col & row & ok & Hup & _ & _ & _ & Hbig & Hrest).
  exists end_col, row, ok. split; [exact Hup|]. split.
  - apply Hbig; [reflexivity|exact big_text_too_large].
  - rewrite (Hrest 1%nat "asset_price" eq_refl ltac:(discriminate)).
    change (vm_get _ "asset_price") with (JStr big_text).
    change (safe_str (JStr big_text)) with big_text.
    rewrite big_text_too_large. reflexivity.
Defined.

(** ** Row targeting and the fallback write *)

(** *** The identity column *)

Lemma drop_leading_empty_split (l : list string) :
  exists n, l = replicate n "" ++ drop_leading_empty l.
Proof.
  induction l as [|s l [n IH]]; [exists 0; reflexivity|]. simpl.
  case_bool_decide as Hs.
  - subst s. exists (S n). simpl. rewrite <- IH. reflexivity.
  - exists 0. reflexivity.
Qed.

(** Column A as read is the first cells of the rows up to the last one
    that is filled; the rows below have an empty first cell. *)
Lemma col_a_split (sh : list (list json)) :
  exists n, List.map first_cell_text sh = col_a sh ++ replicate n "".
Proof.
  unfold col_a.
  destruct (drop_leading_empty_split (rev (List.map first_cell_text sh))) as [n Hn].
  exists n. apply (f_equal (@rev string)) in Hn. rewrite rev_involutive in Hn.
  rewrite Hn at 1. rewrite rev_app_distr. f_equal.
  clear. induction n as [|n IH]; [reflexivity|]. simpl. rewrite IH.
  clear. induction n as [|n IH]; [reflexivity|]. simpl. rewrite <- IH. reflexivity.
Qed.

Lemma col_a_length (sh : list (list json)) : length (col_a sh) <= length sh.
Proof.
  destruct (col_a_split sh) as [n Hn]. apply (f_equal (@length string)) in Hn.
  rewrite length_map, length_app in Hn. lia.
Qed.

Lemma col_a_below_empty (sh : list (list json)) (k : nat) (row : list json) :
  sh !! k = Some row -> first_cell_text row <> "" -> k < length (col_a sh).
Proof.
  intros Hk Hne. destruct (col_a_split sh) as [n Hn].
  destruct (decide (k < length (col_a sh))) as [|Hge]; [assumption|]. exfalso.
  assert (Hl : List.map first_cell_text sh !! k = Some (first_cell_text row)).
  { change (List.map first_cell_text sh) with (first_cell_text <$> sh).
    rewrite list_lookup_fmap, Hk. reflexivity. }
  rewrite Hn, lookup_app_r in Hl by lia.
  apply lookup_replicate_1 in Hl as [Hl _]. congruence.
Qed.

(** [max(4, len(col_values(1)) + 1)] on a given sheet. *)
Definition free_row (sh : list (list json)) : nat := Nat.max 4 (length (col_a sh) + 1).

(** *** The scan for the ticker *)

Lemma scan_from_Some (vs : list string) (ticker : string) :
  forall (s r : nat),
    scan_from s vs ticker = Some r <->
    exists i v, r = s + i /\ vs !! i = Some v /\ same_ticker v ticker = true /\
                forall i' v', i' < i -> vs !! i' = Some v' -> same_ticker v' ticker = false.
Proof.
  induction vs as [|v0 vs IH]; intros s r; simpl.
  - split; [discriminate|]. intros (i & v & _ & Hi & _). rewrite lookup_nil in Hi. discriminate.
  - destruct (same_ticker v0 ticker) eqn:Hv0.
    + split.
      * intros [= <-]. exists 0, v0. repeat split; [lia|exact Hv0|]. intros i' v' Hlt. lia.
      * intros (i & v & -> & Hi & Hv & Hfirst). destruct i as [|i]; [f_equal; lia|].
        exfalso. specialize (Hfirst 0 v0 ltac:(lia) eq_refl). congruence.
    + rewrite IH. split.
      * intros (i & v & -> & Hi & Hv & Hfirst). exists (S i), v.
        repeat split; [lia|exact Hi|exact Hv|].
        intros [|i'] v' Hlt Hi'; simpl in Hi'; [congruence|].
        apply (Hfirst i' v'); [lia|exact Hi'].
      * intros (i & v & -> & Hi & Hv & Hfirst). destruct i as [|i]; simpl in Hi.
        { congruence. }
        exists i, v. repeat split; [lia|exact Hi|exact Hv|].
        intros i' v' Hlt Hi'. apply (Hfirst (S i') v'); [lia|exact Hi'].
Qed.

Lemma scan_from_None (vs : list string) (ticker : string) (s : nat) :
  scan_from s vs ticker = None <->
  forall i v, vs !! i = Some v -> same_ticker v ticker = false.
Proof.
  revert s. induction vs as [|v0 vs IH]; intros s; simpl.
  - split; [|reflexivity]. intros _ i v Hi. rewrite lookup_nil in Hi. discriminate.
  - destruct (same_ticker v0 ticker) eqn:Hv0.
    + split; [discriminate|]. intros H. specialize (H 0 v0 eq_refl). congruence.
    + rewrite IH. split.
      * intros H [|i] v Hi; simpl in Hi; [congruence|]. eapply H, Hi.
      * intros H i v Hi. apply (H (S i) v Hi).
Qed.

Lemma find_row_for_ticker_eq (ticker : string) (w : world) :
  find_row_for_ticker ticker 4 w
  = let '(f, fs) := next_fault w in
    if f then (Some None, World (sheet w) fs (log w ++ [FailedSearchingTicker]) (updates w))
    else (Some (scan_from 4 (drop 3 (col_a (sheet w))) ticker),
          World (sheet w) fs (log w) (updates w)).
Proof.
  unfold find_row_for_ticker. unfold_monad. simpl.
  destruct (faults w) as [|[] fs]; reflexivity.
Qed.

(** A row found by the scan lies inside the sheet, at or below row 4. *)
Lemma scan_in_sheet (sh : list (list json)) (ticker : string) (r : nat) :
  scan_from 4 (drop 3 (col_a sh)) ticker = Some r -> 4 <= r <= length sh.
Proof.
  intros H. apply scan_from_Some in H as (i & v & -> & Hi & _).
  apply lookup_lt_Some in Hi. rewrite length_drop in Hi.
  pose proof (col_a_length sh). lia.
Qed.

(** *** Writing one row *)

Lemma set_row_other (r : nat) (values : list json) (sh : list (list json)) (k : nat) :
  k <> r - 1 -> k < length sh -> set_row r values sh !! k = sh !! k.
Proof.
  intros Hk Hlen. unfold set_row.
  destruct ((sh ++ replicate (r - length sh) []) !! (r - 1)) as [old|].
  - rewrite list_lookup_insert_ne by lia. apply lookup_app_l, Hlen.
  - apply lookup_app_l, Hlen.
Qed.

Lemma set_row_length_inside (r : nat) (values : list json) (sh : list (list json)) :
  r <= length sh -> length (set_row r values sh) = length sh.
Proof.
  intros Hr. unfold set_row. replace (r - length sh) with 0 by lia.
  simpl. rewrite app_nil_r. destruct (sh !! (r - 1)); [apply length_insert|reflexivity].
Qed.

(** What one write attempt on row [r] with cells [row] leaves behind: it
    raised and the sheet is as before, with at most one failed update
    recorded, or it returned and the row is written by one update. *)
Definition attempt_post (r : nat) (row : list json) (w : world)
    (out : option unit * world) : Prop :=
  (out.1 = None /\ sheet out.2 = sheet w /\
   (updates out.2 = updates w \/
    exists c, updates out.2 = updates w ++ [UpdateCall r c row false])) \/
  (out.1 = Some () /\ sheet out.2 = set_row r row (sheet w) /\
   exists c, updates out.2 = updates w ++ [UpdateCall r c row true]).

Lemma write_row_post (headers : list string) (values_map : gmap string json)
    (r : nat) (w : world) :
  attempt_post r (row_value values_map <$> headers) w
    (write_row_by_header_order headers values_map r w).
Proof.
  rewrite write_row_by_header_order_eq. cbv zeta. unfold attempt_post.
  destruct (number_to_column (length headers)) as [c|].
  - destruct (next_fault w) as [[] fs]; simpl.
    + left. split; [reflexivity|]. split; [reflexivity|]. right. exists c. reflexivity.
    + right. split; [reflexivity|]. split; [reflexivity|]. exists c. reflexivity.
  - left. simpl. split; [reflexivity|]. split; [reflexivity|]. left. reflexivity.
Qed.

Lemma next_free_row_eq (w : world) :
  next_free_row w
  = let '(f, fs) := next_fault w in
    if f then (None, World (sheet w) fs (log w) (updates w))
    else (Some (free_row (sheet w)), World (sheet w) fs (log w) (updates w)).
Proof.
  unfold next_free_row. unfold_monad. simpl.
  destruct (faults w) as [|[] fs]; reflexivity.
Qed.

(** The row and the cells the first attempt writes. *)
Definition target_row (row_idx : option nat) (sh : list (list json)) : nat :=
  match row_idx with Some r => r | None => free_row sh end.

Definition first_cells (headers : list string) (values_map : gmap string json)
    (row_idx : option nat) : list json :=
  match row_idx with
  | Some _ => row_value values_map <$> headers
  | None => fallback_cell values_map <$> headers
  end.

Lemma first_attempt_post (headers : list string) (values_map : gmap string json)
    (t : string) (row_idx : option nat) (w : world) :
  attempt_post (target_row row_idx (sheet w)) (first_cells headers values_map row_idx) w
    (first_attempt headers values_map t row_idx w).
Proof.
  destruct row_idx as [r|]; [simpl|].
  - unfold first_attempt. unfold mbind at 1, M_bind, bind.
    pose proof (write_row_post headers values_map r w) as H.
    destruct (write_row_by_header_order headers values_map r w) as [[[]|] w1].
    + unfold write_log. unfold attempt_post in *. simpl in *.
      destruct H as [(Hn & _)|H]; [discriminate|]. right. exact H.
    + unfold attempt_post in *. simpl in *. exact H.
  - unfold attempt_post.
    destruct (first_attempt headers values_map t None w) as [res w'] eqn:E. simpl.
    unfold first_attempt in E. unfold mbind at 1, M_bind, bind in E.
    rewrite next_free_row_eq in E.
    destruct (next_fault w) as [[] fs] eqn:Hf; simpl in E.
    + injection E as <- <-. left. split; [reflexivity|]. split; [reflexivity|].
      left. reflexivity.
    + unfold mbind at 1, M_bind, bind in E. rewrite for_each_append_cell in E.
      rewrite length_fmap in E.
      destruct (number_to_column (length headers)) as [c|].
      * unfold_monad. simpl in E. destruct fs as [|[] fs']; simpl in E;
          injection E as <- <-; simpl.
        -- right. split; [reflexivity|]. split; [reflexivity|]. exists c. reflexivity.
        -- left. split; [reflexivity|]. split; [reflexivity|]. right. exists c. reflexivity.
        -- right. split; [reflexivity|]. split; [reflexivity|]. exists c. reflexivity.
      * unfold raise in E. injection E as <- <-. simpl. left.
        split; [reflexivity|]. split; [reflexivity|]. left. reflexivity.
Qed.

(** The values map of the second attempt. *)
Definition with_raw_json (values_map : gmap string json) (j : json) : gmap string json :=
  <["raw_json" := raw_json_value j]> values_map.

Lemma fallback_attempt_post (headers : list string) (values_map : gmap string json)
    (j : json) (row_idx : option nat) (w : world) :
  attempt_post (target_row row_idx (sheet w))
    (first_cells headers (with_raw_json values_map j) row_idx) w
    (fallback_attempt headers values_map j row_idx w).
Proof.
  destruct row_idx as [r|]; [simpl|].
  - unfold fallback_attempt. unfold mbind at 1, M_bind, bind.
    pose proof (write_row_post headers (with_raw_json values_map j) r w) as H.
    unfold with_raw_json in *.
    destruct (write_row_by_header_order headers _ r w) as [[[]|] w1].
    + unfold write_log. unfold attempt_post in *. simpl in *.
      destruct H as [(Hn & _)|H]; [discriminate|]. right. exact H.
    + unfold attempt_post in *. simpl in *. exact H.
  - unfold attempt_post, with_raw_json.
    destruct (fallback_attempt headers values_map j None w) as [res w'] eqn:E. simpl.
    unfold fallback_attempt in E. unfold mbind at 1, M_bind, bind in E.
    rewrite next_free_row_eq in E.
    destruct (next_fault w) as [[] fs] eqn:Hf; simpl in E.
    + injection E as <- <-. left. split; [reflexivity|]. split; [reflexivity|].
      left. reflexivity.
    + rewrite length_fmap in E.
      destruct (number_to_column (length headers)) as [c|].
      * unfold_monad. simpl in E. destruct fs as [|[] fs']; simpl in E;
          injection E as <- <-; simpl.
        -- right. split; [reflexivity|]. split; [reflexivity|]. exists c. reflexivity.
        -- left. split; [reflexivity|]. split; [reflexivity|]. right. exists c. reflexivity.
        -- right. split; [reflexivity|]. split; [reflexivity|]. exists c. reflexivity.
      * unfold raise in E. injection E as <- <-. simpl. left.
        split; [reflexivity|]. split; [reflexivity|]. left. reflexivity.
Qed.

(** The three ways one upsert can end: the first attempt wrote the row; the
    first attempt raised and the second wrote the row; both raised and the
    sheet is as before, the last log line being the final error. *)
Definition upsert_post (r : nat) (row1 row2 : list json) (t : string) (w : world)
    (out : option unit * world) : Prop :=
  out.1 = Some () /\
  ((sheet out.2 = set_row r row1 (sheet w) /\
    exists c, updates out.2 = updates w ++ [UpdateCall r c row1 true]) \/
   (sheet out.2 = set_row r row2 (sheet w) /\
    exists pre c,
      updates out.2 = updates w ++ pre ++ [UpdateCall r c row2 true] /\
      (pre = [] \/ exists c1, pre = [UpdateCall r c1 row1 false])) \/
   (sheet out.2 = sheet w /\
    last (log out.2) = Some (FinalFallbackFailed t) /\
    exists pre post,
      updates out.2 = updates w ++ pre ++ post /\
      (pre = [] \/ exists c1, pre = [UpdateCall r c1 row1 false]) /\
      (post = [] \/ exists c2, post = [UpdateCall r c2 row2 false]))).

(** The handler of the outer [try] of [upsert], run after a first attempt
    that raised and left the sheet as it was. *)
Lemma fallback_handler_post (headers : list string) (values_map : gmap string json)
    (j : json) (t : string) (row_idx : option nat) (w w1 : world)
    (pre : list update_call) (res : option unit) (w' : world) :
  sheet w1 = sheet w ->
  updates w1 = updates w ++ pre ->
  (write_log (WriteFailed t);;
   try_catch (fallback_attempt headers values_map j row_idx)
             (write_log (FinalFallbackFailed t))) w1 = (res, w') ->
  res = Some () /\
  ((sheet w' = set_row (target_row row_idx (sheet w))
                 (first_cells headers (with_raw_json values_map j) row_idx) (sheet w) /\
    exists c, updates w' = updates w ++ pre ++
                [UpdateCall (target_row row_idx (sheet w)) c
                   (first_cells headers (with_raw_json values_map j) row_idx) true]) \/
   (sheet w' = sheet w /\
    last (log w') = Some (FinalFallbackFailed t) /\
    exists post,
      updates w' = updates w ++ pre ++ post /\
      (post = [] \/
       exists c2, post = [UpdateCall (target_row row_idx (sheet w)) c2
                            (first_cells headers (with_raw_json values_map j) row_idx)
                            false]))).
Proof.
  intros Hs Hu E.
  unfold mbind at 1, M_bind, bind, write_log at 1 in E.
  unfold try_catch in E.
  match type of E with
  | context [fallback_attempt _ _ _ _ ?w2] =>
      pose proof (fallback_attempt_post headers values_map j row_idx w2) as H2;
      destruct (fallback_attempt headers values_map j row_idx w2) as [r2 w3]
  end.
  unfold attempt_post in H2. simpl in H2. rewrite Hs, Hu in H2.
  destruct H2 as [(-> & Hs2 & Hu2)|(-> & Hs2 & c & Hu2)].
  - unfold write_log in E. injection E as <- <-. split; [reflexivity|]. right.
    simpl. split; [exact Hs2|]. split; [apply last_snoc|].
    destruct Hu2 as [Hu2|[c2 Hu2]].
    + exists []. rewrite app_nil_r. split; [exact Hu2|]. left. reflexivity.
    + eexists. rewrite Hu2, <- app_assoc. split; [reflexivity|]. right. exists c2. reflexivity.
  - injection E as <- <-. split; [reflexivity|]. left.
    split; [exact Hs2|]. exists c. rewrite Hu2, <- app_assoc. reflexivity.
Qed.

Lemma upsert_outcome (headers : list string) (values_map : gmap string json)
    (j : json) (t : string) (w : world) :
  exists row_idx,
    (find_row_for_ticker t 4 w).1 = Some row_idx /\
    upsert_post (target_row row_idx (sheet w))
      (first_cells headers values_map row_idx)
      (first_cells headers (with_raw_json values_map j) row_idx) t w
      (upsert headers values_map j t w).
Proof.
  destruct (upsert headers values_map j t w) as [res w'] eqn:E.
  unfold upsert in E. unfold mbind at 1, M_bind, bind in E.
  destruct (find_row_for_ticker t 4 w) as [[row_idx|] w0] eqn:Hfind.
  2:{ rewrite find_row_for_ticker_eq in Hfind.
      destruct (next_fault w) as [[] fs]; discriminate Hfind. }
  assert (Hw0 : sheet w0 = sheet w /\ updates w0 = updates w).
  { rewrite find_row_for_ticker_eq in Hfind.
    destruct (next_fault w) as [[] fs]; injection Hfind as _ <-; split; reflexivity. }
  destruct Hw0 as [Hs0 Hu0].
  exists row_idx. split; [reflexivity|]. unfold upsert_post. simpl.
  unfold try_catch at 1 in E.
  pose proof (first_attempt_post headers values_map t row_idx w0) as H1.
  destruct (first_attempt headers values_map t row_idx w0) as [r1 w1].
  unfold attempt_post in H1. simpl in H1. rewrite Hs0, Hu0 in H1.
  destruct H1 as [(-> & Hs1 & Hu1)|(-> & Hs1 & c & Hu1)].
  - destruct Hu1 as [Hu1|[c1 Hu1]].
    + destruct (fallback_handler_post headers values_map j t row_idx w w1 [] res w'
                  Hs1 ltac:(rewrite app_nil_r; exact Hu1) E) as [-> [H|H]].
      * split; [reflexivity|]. right. left. destruct H as [Hs [c Hu]].
        split; [exact Hs|]. exists [], c. split; [exact Hu|]. left. reflexivity.
      * split; [reflexivity|]. right. right. destruct H as (Hs & Hl & post & Hu & Hpost).
        split; [exact Hs|]. split; [exact Hl|]. exists [], post.
        split; [exact Hu|]. split; [left; reflexivity|exact Hpost].
    + destruct (fallback_handler_post headers values_map j t row_idx w w1 _ res w'
                  Hs1 Hu1 E) as [-> [H|H]].
      * split; [reflexivity|]. right. left. destruct H as [Hs [c Hu]].
        split; [exact Hs|]. eexists _, c. split; [exact Hu|]. right. exists c1. reflexivity.
      * split; [reflexivity|]. right. right. destruct H as (Hs & Hl & post & Hu & Hpost).
        split; [exact Hs|]. split; [exact Hl|]. eexists _, post.
        split; [exact Hu|]. split; [right; exists c1; reflexivity|exact Hpost].
  - injection E as <- <-. split; [reflexivity|]. left.
    split; [exact Hs1|]. exists c. exact Hu1.
Qed.

Lemma find_result (ticker : string) (w : world) (r : nat) :
  (find_row_for_ticker ticker 4 w).1 = Some (Some r) ->
  (next_fault w).1 = false /\ scan_from 4 (drop 3 (col_a (sheet w))) ticker = Some r.
Proof.
  rewrite find_row_for_ticker_eq.
  destruct (next_fault w) as [[] fs]; simpl; [discriminate|].
  intros [= H]. split; [reflexivity|exact H].
Qed.

Lemma updates_target (r : nat) (row1 row2 : list json) (t : string) (w : world)
    (out : option unit * world) :
  upsert_post r row1 row2 t w out ->
  exists us, updates out.2 = updates w ++ us /\ length us <= 2 /\
             Forall (fun u => uc_row u = r) us.
Proof.
  intros (_ & [(_ & c & Hu)|[(_ & pre & c & Hu & Hpre)|(_ & _ & pre & post & Hu & Hpre & Hpost)]]).
  - eexists. split; [exact Hu|]. split; [simpl; lia|]. repeat constructor.
  - eexists. split; [exact Hu|].
    destruct Hpre as [->|[c1 ->]]; (split; [simpl; lia|repeat constructor]).
  - eexists. split; [exact Hu|].
    destruct Hpre as [->|[c1 ->]]; destruct Hpost as [->|[c2 ->]];
      (split; [simpl; lia|repeat constructor]).
Qed.

Lemma sheet_elsewhere (r : nat) (row1 row2 : list json) (t : string) (w : world)
    (out : option unit * world) (k : nat) :
  upsert_post r row1 row2 t w out ->
  k <> r - 1 -> k < length (sheet w) -> sheet out.2 !! k = sheet w !! k.
Proof.
  intros (_ & [(Hs & _)|[(Hs & _)|(Hs & _)]]) Hk Hlen; rewrite Hs;
    [apply set_row_other; assumption|apply set_row_other; assumption|reflexivity].
Qed.

Lemma sheet_length_inside (r : nat) (row1 row2 : list json) (t : string) (w : world)
    (out : option unit * world) :
  upsert_post r row1 row2 t w out ->
  r <= length (sheet w) -> length (sheet out.2) = length (sheet w).
Proof.
  intros (_ & [(Hs & _)|[(Hs & _)|(Hs & _)]]) Hr; rewrite Hs;
    [apply set_row_length_inside; assumption|apply set_row_length_inside; assumption
    |reflexivity].
Qed.

(** *** The payload of the second attempt *)

Lemma vm_get_with_raw_json (values_map : gmap string json) (j : json) (h : string) :
  h <> "raw_json" -> vm_get (with_raw_json values_map j) h = vm_get values_map h.
Proof.
  intros Hh. unfold vm_get, with_raw_json. rewrite lookup_insert_ne by congruence.
  reflexivity.
Qed.

Lemma first_cells_off_raw_json (headers : list string) (values_map : gmap string json)
    (j : json) (row_idx : option nat) (k : nat) (h : string) :
  headers !! k = Some h -> h <> "raw_json" ->
  first_cells headers (with_raw_json values_map j) row_idx !! k
  = first_cells headers values_map row_idx !! k.
Proof.
  intros Hk Hh. destruct row_idx as [r|]; simpl; rewrite !list_lookup_fmap, Hk; simpl; f_equal.
  - unfold row_value. rewrite !vm_get_with_raw_json by (exact Hh || discriminate).
    reflexivity.
  - unfold fallback_cell. rewrite !vm_get_with_raw_json by exact Hh. reflexivity.
Qed.

Lemma raw_json_value_fits (j : json) : is_too_large (safe_str (raw_json_value j)) = false.
Proof.
  unfold raw_json_value. destruct (is_too_large (safe_str j)) eqn:E; [reflexivity|exact E].
Qed.

Lemma first_cells_raw_json (headers : list string) (values_map : gmap string json)
    (j : json) (row_idx : option nat) (k : nat) :
  headers !! k = Some "raw_json" ->
  first_cells headers (with_raw_json values_map j) row_idx !! k = Some (raw_json_value j).
Proof.
  intros Hk.
  assert (Hget : vm_get (with_raw_json values_map j) "raw_json" = raw_json_value j).
  { unfold vm_get, with_raw_json. rewrite lookup_insert_eq. reflexivity. }
  destruct row_idx as [r|]; simpl; rewrite list_lookup_fmap, Hk; simpl; f_equal.
  - unfold row_value. rewrite bool_decide_eq_false_2 by discriminate.
    rewrite Hget, raw_json_value_fits. reflexivity.
  - unfold fallback_cell. rewrite Hget, raw_json_value_fits. reflexivity.
Qed.

(** *** The two attempts, call by call *)

(** The next two remote calls do not raise: the schedule starts with two
    entries that are not faults, or ends before. *)
Lemma two_calls_ok (w : world) :
  (next_fault w).1 = false -> faults w !! 1 <> Some true ->
  faults w = [] \/ faults w = [false] \/ exists fs, faults w = false :: false :: fs.
Proof.
  unfold next_fault. destruct (faults w) as [|[] [|[] fs]]; simpl; intros H1 H2;
    try discriminate; try congruence; eauto.
Qed.

(** The append branch of the first attempt when the read of the identity
    column and the update go through. *)
Lemma first_attempt_append_ok (headers : list string) (values_map : gmap string json)
    (t : string) (w : world) :
  headers <> [] -> (next_fault w).1 = false -> faults w !! 1 <> Some true ->
  exists end_col,
    first_attempt headers values_map t None w
    = (Some (),
       World (set_row (free_row (sheet w)) (fallback_cell values_map <$> headers) (sheet w))
             (drop 2 (faults w))
             (log w ++ append_warnings values_map t headers
                ++ [AppendedRow (free_row (sheet w))])
             (updates w ++ [UpdateCall (free_row (sheet w)) end_col
                              (fallback_cell values_map <$> headers) true])).
Proof.
  intros Hne H1 H2.
  assert (Hpos : 0 < length headers) by (destruct headers; [congruence|simpl; lia]).
  destruct (number_to_column_pos _ Hpos) as [c Hc]. exists c.
  destruct w as [sh fs lg us]. cbn [sheet faults log updates].
  destruct (two_calls_ok _ H1 H2) as [Hf|[Hf|[fs' Hf]]]; cbn [faults] in Hf; subst fs;
    unfold first_attempt; unfold mbind at 1, M_bind, bind; rewrite next_free_row_eq;
    cbn [next_fault faults sheet log updates];
    unfold mbind at 1, M_bind, bind; rewrite for_each_append_cell;
    rewrite length_fmap, Hc; unfold_monad; unfold add_log; simpl;
    rewrite <- app_assoc; reflexivity.
Qed.


(** With a header, the second attempt sends its update unless its own read
    of the identity column raises; the update is recorded as gone through
    exactly when the attempt returns. *)
Lemma fallback_attempt_sends (headers : list string) (values_map : gmap string json)
    (j : json) (row_idx : option nat) (w : world) :
  headers <> [] -> is_Some row_idx \/ (next_fault w).1 = false ->
  exists c,
    updates (fallback_attempt headers values_map j row_idx w).2
    = updates w ++ [UpdateCall (target_row row_idx (sheet w)) c
                      (first_cells headers (with_raw_json values_map j) row_idx)
                      (bool_decide ((fallback_attempt headers values_map j row_idx w).1
                                    = Some ()))].
Proof.
  intros Hne Hcall.
  assert (Hpos : 0 < length headers) by (destruct headers; [congruence|simpl; lia]).
  destruct (number_to_column_pos _ Hpos) as [c Hc]. exists c.
  destruct (fallback_attempt headers values_map j row_idx w) as [res w'] eqn:E.
  cbn [fst snd]. revert E.
  destruct row_idx as [r|].
  - unfold fallback_attempt. fold (with_raw_json values_map j).
    unfold mbind at 1, M_bind, bind. rewrite write_row_by_header_order_eq. cbv zeta.
    rewrite Hc. destruct (next_fault w) as [[] fs]; intros [= <- <-]; reflexivity.
  - destruct Hcall as [[r Hr]|Hcall]; [discriminate Hr|].
    unfold fallback_attempt. fold (with_raw_json values_map j).
    unfold mbind at 1, M_bind, bind. rewrite next_free_row_eq.
    destruct w as [sh fs lg us]. unfold next_fault in *. cbn [faults sheet log updates] in *.
    destruct fs as [|f1 fs]; cbn [fst] in Hcall; [|subst f1];
      rewrite length_fmap, Hc; unfold_monad; simpl.
    + intros [= <- <-]. reflexivity.
    + destruct fs as [|[] fs]; intros [= <- <-]; reflexivity.
Qed.

(** With a header, an in-place first attempt can only raise on its update. *)
Lemma first_attempt_in_place_raises (headers : list string)
    (values_map : gmap string json) (t : string) (r : nat) (w w1 : world) :
  headers <> [] ->
  first_attempt headers values_map t (Some r) w = (None, w1) ->
  exists c, updates w1 = updates w ++ [UpdateCall r c (row_value values_map <$> headers) false].
Proof.
  intros Hne H.
  assert (Hpos : 0 < length headers) by (destruct headers; [congruence|simpl; lia]).
  destruct (number_to_column_pos _ Hpos) as [c Hc]. exists c. revert H.
  unfold first_attempt. unfold mbind at 1, M_bind, bind.
  rewrite write_row_by_header_order_eq. cbv zeta. rewrite Hc.
  destruct (next_fault w) as [[] fs]; [|discriminate]. intros [= <-]. reflexivity.
Qed.





(** *** Oversized cells in the rows sent *)






(** *** The row an upsert writes to *)

(** The sheet of the scenario with a raw_json column. *)
Definition sheet_raw : list (list json) :=
  [[]; [JStr "token"]; [JStr "ticker"; JStr "asset_price"; JStr "raw_json"];
   [JStr "BTC"; JStr "1"; JStr ""]].

Definition vm_btc : gmap string json :=
  <["ticker" := JStr "BTC"]> (<["asset_price" := JInt 65000]> ∅).

(** When the read of the identity column goes through, the row found is
    the lowest one from row 4 on whose cell matches. *)
Lemma find_row_for_ticker_lowest (t : string) (w : world) (r : nat) :
  (next_fault w).1 = false ->
  ((find_row_for_ticker t 4 w).1 = Some (Some r) <->
   exists v, 4 <= r /\ col_a (sheet w) !! (r - 1) = Some v /\ same_ticker v t = true /\
             forall r' v', 4 <= r' < r -> col_a (sheet w) !! (r' - 1) = Some v' ->
                           same_ticker v' t = false).
Proof.
  intros Hf. rewrite find_row_for_ticker_eq.
  destruct (next_fault w) as [f fs]. simpl in Hf. subst f. simpl.
  split.
  - intros [= H]. apply scan_from_Some in H as (i & v & -> & Hi & Hv & Hfirst).
    rewrite lookup_drop in Hi. exists v. split; [lia|].
    split; [replace (4 + i - 1) with (3 + i) by lia; exact Hi|]. split; [exact Hv|].
    intros r' v' Hr' Hl. apply (Hfirst (r' - 4) v'); [lia|].
    rewrite lookup_drop. replace (3 + (r' - 4)) with (r' - 1) by lia. exact Hl.
  - intros (v & Hr & Hl & Hv & Hfirst). f_equal. apply scan_from_Some.
    exists (r - 4), v. split; [lia|]. split.
    { rewrite lookup_drop. replace (3 + (r - 4)) with (r - 1) by lia. exact Hl. }
    split; [exact Hv|]. intros i' v' Hi' Hl'. rewrite lookup_drop in Hl'.
    apply (Hfirst (4 + i') v'); [lia|].
    replace (4 + i' - 1) with (3 + i') by lia. exact Hl'.
Qed.

(** C4 (as the code has it).  The scan of the identity column starts at row
    4, compares after strip and lower, and, when the read of the column goes
    through, returns the lowest matching row, and None when no cell from row
    4 on matches.  When the read raises, a warning is logged and the answer
    is None as well, whatever the column holds.  For a ticker that is
    present, with the read gone through, every update the upsert sends
    targets the lowest matching row, the sheet keeps its number of rows and
    every other row is as it was: no row is added.  When the answer of the
    scan is None, because the ticker is absent or because the read raised,
    every update the upsert sends targets the row after the last filled cell
    of the identity column (row 4 at least), which lies below every filled
    cell, and every existing row other than that one is as it was.  With a
    header and no failing store call the target row is written.  With a
    header, a read that raises and the two calls after it going through, the
    row is written below the last filled cell, also for a ticker that is
    present: the ticker then has two rows. *)
Theorem row_targeting :
  (forall t w r,
      (next_fault w).1 = false ->
      ((find_row_for_ticker t 4 w).1 = Some (Some r) <->
       exists v, 4 <= r /\ col_a (sheet w) !! (r - 1) = Some v /\ same_ticker v t = true /\
                 forall r' v', 4 <= r' < r -> col_a (sheet w) !! (r' - 1) = Some v' ->
                               same_ticker v' t = false)) /\
  (forall t w,
      (forall k v, 3 <= k -> col_a (sheet w) !! k = Some v -> same_ticker v t = false) ->
      (find_row_for_ticker t 4 w).1 = Some None) /\
  (forall t w,
      (next_fault w).1 = true ->
      (find_row_for_ticker t 4 w).1 = Some None /\
      log (find_row_for_ticker t 4 w).2 = log w ++ [FailedSearchingTicker] /\
      level_of FailedSearchingTicker = WARNING) /\
  (forall headers values_map j t w r v,
      (next_fault w).1 = false ->
      4 <= r -> col_a (sheet w) !! (r - 1) = Some v -> same_ticker v t = true ->
      (forall r' v', 4 <= r' < r -> col_a (sheet w) !! (r' - 1) = Some v' ->
                     same_ticker v' t = false) ->
      (exists us, updates (upsert headers values_map j t w).2 = updates w ++ us /\
                  Forall (fun u => uc_row u = r) us) /\
      length (sheet (upsert headers values_map j t w).2) = length (sheet w) /\
      forall k, k <> r - 1 ->
                sheet (upsert headers values_map j t w).2 !! k = sheet w !! k) /\
  (forall headers values_map j t w,
      (find_row_for_ticker t 4 w).1 = Some None ->
      (exists us, updates (upsert headers values_map j t w).2 = updates w ++ us /\
                  Forall (fun u => uc_row u = Nat.max 4 (length (col_a (sheet w)) + 1)) us) /\
      (forall k row, sheet w !! k = Some row -> first_cell_text row <> "" ->
                     k + 1 < Nat.max 4 (length (col_a (sheet w)) + 1)) /\
      forall k, k < length (sheet w) ->
                k <> Nat.max 4 (length (col_a (sheet w)) + 1) - 1 ->
                sheet (upsert headers values_map j t w).2 !! k = sheet w !! k) /\
  (forall headers values_map j t w,
      headers <> [] -> faults w = [] ->
      exists row_idx,
        (find_row_for_ticker t 4 w).1 = Some row_idx /\
        sheet (upsert headers values_map j t w).2
        = set_row (target_row row_idx (sheet w))
            (first_cells headers values_map row_idx) (sheet w)) /\
  (forall headers values_map j t w,
      headers <> [] ->
      (next_fault w).1 = true -> faults w !! 1 <> Some true -> faults w !! 2 <> Some true ->
      sheet (upsert headers values_map j t w).2
      = set_row (Nat.max 4 (length (col_a (sheet w)) + 1))
          (fallback_cell values_map <$> headers) (sheet w) /\
      exists end_col,
        updates (upsert headers values_map j t w).2
        = updates w ++ [UpdateCall (Nat.max 4 (length (col_a (sheet w)) + 1)) end_col
                          (fallback_cell values_map <$> headers) true]).
Proof.
  split; [|split; [|split; [|split; [|split; [|split]]]]].
  - intros t w r. apply find_row_for_ticker_lowest.
  - intros t w Hnone. rewrite find_row_for_ticker_eq.
    destruct (next_fault w) as [[] fs]; simpl; [reflexivity|]. f_equal.
    apply scan_from_None. intros i v Hi. rewrite lookup_drop in Hi.
    apply (Hnone (3 + i) v); [lia|exact Hi].
  - intros t w Hf. rewrite find_row_for_ticker_eq.
    destruct (next_fault w) as [f fs]. simpl in Hf. subst f. repeat split.
  - intros headers values_map j t w r v Hf Hr Hl Hv Hfirst.
    assert (Hfind : (find_row_for_ticker t 4 w).1 = Some (Some r)).
    { apply find_row_for_ticker_lowest; [exact Hf|]. exists v. auto. }
    destruct (upsert_outcome headers values_map j t w) as (ri & Hri & Hpost).
    rewrite Hfind in Hri. injection Hri as <-. simpl in Hpost.
    apply find_result in Hfind as [_ Hscan]. apply scan_in_sheet in Hscan.
    split; [|split].
    + destruct (updates_target _ _ _ _ _ _ Hpost) as (us & Hu & _ & Hall). eauto.
    + eapply sheet_length_inside; [exact Hpost|lia].
    + intros k Hk. destruct (decide (k < length (sheet w))) as [Hlt|Hge].
      * eapply sheet_elsewhere; eassumption.
      * rewrite (lookup_ge_None_2 (sheet w)) by lia. apply lookup_ge_None_2.
        erewrite sheet_length_inside; [|exact Hpost|lia]. lia.
  - intros headers values_map j t w Hfind.
    destruct (upsert_outcome headers values_map j t w) as (ri & Hri & Hpost).
    rewrite Hfind in Hri. injection Hri as <-. simpl in Hpost. unfold free_row in Hpost.
    split; [|split].
    + destruct (updates_target _ _ _ _ _ _ Hpost) as (us & Hu & _ & Hall). eauto.
    + intros k row Hk Hne. pose proof (col_a_below_empty _ _ _ Hk Hne). lia.
    + intros k Hlt Hk. eapply sheet_elsewhere; eassumption.
  - intros headers values_map j t w Hne Hf.
    assert (Hpos : 0 < length headers) by (destruct headers; [congruence|simpl; lia]).
    destruct (number_to_column_pos _ Hpos) as [c Hc].
    destruct w as [sh fs lg us]. simpl in Hf. subst fs.
    exists (scan_from 4 (drop 3 (col_a sh)) t). split; [reflexivity|].
    unfold upsert. unfold mbind at 1, M_bind, bind. rewrite find_row_for_ticker_eq.
    simpl. unfold try_catch at 1.
    destruct (scan_from 4 (drop 3 (col_a sh)) t) as [r|]; simpl.
    + unfold mbind at 1, M_bind, bind. rewrite write_row_by_header_order_eq.
      cbv zeta. rewrite Hc. reflexivity.
    + unfold mbind at 1, M_bind, bind. rewrite next_free_row_eq. simpl.
      unfold mbind at 1, M_bind, bind. rewrite for_each_append_cell.
      rewrite length_fmap, Hc. reflexivity.
  - intros headers values_map j t w Hne Hf H1 H2.
    destruct w as [sh fs lg us]. unfold next_fault in Hf. cbn [faults sheet updates] in *.
    destruct fs as [|[] rest]; try discriminate Hf. cbn [lookup list_lookup] in H1, H2.
    assert (Hrun : exists c,
      first_attempt headers values_map t None
        (World sh rest (lg ++ [FailedSearchingTicker]) us)
      = (Some (),
         World (set_row (free_row sh) (fallback_cell values_map <$> headers) sh)
               (drop 2 rest)
               ((lg ++ [FailedSearchingTicker]) ++ append_warnings values_map t headers
                  ++ [AppendedRow (free_row sh)])
               (us ++ [UpdateCall (free_row sh) c
                         (fallback_cell values_map <$> headers) true]))).
    { apply (first_attempt_append_ok headers values_map t
               (World sh rest (lg ++ [FailedSearchingTicker]) us) Hne).
      - unfold next_fault. cbn [faults]. destruct rest as [|[] rest']; try reflexivity.
        exfalso. apply H1. reflexivity.
      - exact H2. }
    destruct Hrun as [c Hrun].
    assert (Hup : upsert headers values_map j t (World sh (true :: rest) lg us)
                  = (Some (),
                     World (set_row (free_row sh) (fallback_cell values_map <$> headers) sh)
                           (drop 2 rest)
                           ((lg ++ [FailedSearchingTicker])
                              ++ append_warnings values_map t headers
                              ++ [AppendedRow (free_row sh)])
                           (us ++ [UpdateCall (free_row sh) c
                                     (fallback_cell values_map <$> headers) true]))).
    { unfold upsert. unfold mbind at 1, M_bind, bind. rewrite find_row_for_ticker_eq.
      cbn [next_fault faults sheet log updates]. unfold try_catch at 1.
      rewrite Hrun. reflexivity. }
    rewrite Hup. split; [reflexivity|]. exists c. reflexivity.
Qed.

Lemma row_targeting_witness :
  (find_row_for_ticker "btc" 4 (world_btc [])).1 = Some (Some 4) /\
  length (sheet (upsert ["ticker"; "asset_price"] vm_eth JNull "btc" (world_btc [false; true])).2)
  = length sheet_btc /\
  sheet (upsert ["ticker"; "asset_price"] vm_eth JNull "eth" (world_btc [])).2
  = set_row 5 [JStr "eth"; JStr "3000"] sheet_btc /\
  sheet (upsert ["ticker"; "asset_price"] vm_btc JNull "BTC" (world_btc [true])).2
  = set_row 5 [JStr "BTC"; JStr "65000"] sheet_btc.
Proof.
  pose proof row_targeting as (Hscan & _ & _ & Hplace & _ & Hfree & Hfail).
  split; [|split; [|split]].
  - apply (Hscan "btc" (world_btc []) 4 eq_refl).
    exists "BTC". split; [lia|]. split; [reflexivity|]. split; [reflexivity|].
    intros r' v' Hr'. lia.
  - apply (Hplace ["ticker"; "asset_price"] vm_eth JNull "btc" (world_btc [false; true])
             4 "BTC" eq_refl ltac:(lia) eq_refl eq_refl).
    intros r' v' Hr'. lia.
  - destruct (Hfree ["ticker"; "asset_price"] vm_eth JNull "eth" (world_btc [])
                ltac:(discriminate) eq_refl) as (ri & Hri & Hsheet).
    rewrite Hsheet. vm_compute in Hri. injection Hri as <-. vm_compute. reflexivity.
  - destruct (Hfail ["ticker"; "asset_price"] vm_btc JNull "BTC" (world_btc [true])
                ltac:(discriminate) eq_refl ltac:(discriminate) ltac:(discriminate))
      as [Hsheet _].
    rewrite Hsheet. vm_compute. reflexivity.
Defined.

(** C4 as written fails: BTC is in row 4, the read of the identity column
    raises, and the upsert writes BTC into row 5, so that the column holds
    the ticker twice. *)
Lemma present_ticker_gets_second_row :
  (find_row_for_ticker "BTC" 4 (world_btc [])).1 = Some (Some 4) /\
  updates (upsert ["ticker"; "asset_price"] vm_btc JNull "BTC" (world_btc [true])).2
  = [UpdateCall 5 "B" [JStr "BTC"; JStr "65000"] true] /\
  col_a (sheet (upsert ["ticker"; "asset_price"] vm_btc JNull "BTC" (world_btc [true])).2)
  = [""; "token"; "ticker"; "BTC"; "BTC"].
Proof. repeat split; vm_compute; reflexivity. Qed.

(** *** The second attempt *)

(** C2 (as the code has it).  One upsert never raises.  When the first
    attempt returns, the upsert ends there: nothing more is sent or logged.
    When the first attempt raises, the error is logged and the second
    attempt is made, once, from the state the first one left, with the same
    header and the same target row, and with the same values map in which
    the raw_json entry is set to the text of the document (empty when that
    text is over the limit): every column other than raw_json has the cell
    it had in the first attempt.  The second attempt sends one update, or
    none when there is no header or its own read of the identity column
    raises; with a header, an in-place first attempt that raises has sent
    its update, so a failed in-place write is followed by exactly one more
    update.  When the second attempt returns the row is written; when it
    raises as well the final error for the ticker is logged, the sheet is
    as it was, and nothing more is tried.  So one upsert sends at most two
    updates, all to the same row. *)
Theorem fallback_write_once (headers : list string) (values_map : gmap string json)
    (j : json) (t : string) (w : world) :
  (upsert headers values_map j t w).1 = Some () /\
  (exists row_idx us,
    (find_row_for_ticker t 4 w).1 = Some row_idx /\
    updates (upsert headers values_map j t w).2 = updates w ++ us /\
    length us <= 2 /\
    Forall (fun u => uc_row u = target_row row_idx (sheet w)) us /\
    (forall u1 u2, us = [u1; u2] ->
       uc_ok u1 = false /\
       uc_values u1 = first_cells headers values_map row_idx /\
       uc_values u2 = first_cells headers (with_raw_json values_map j) row_idx /\
       (forall k h, headers !! k = Some h -> h <> "raw_json" ->
                    uc_values u2 !! k = uc_values u1 !! k) /\
       (forall k, headers !! k = Some "raw_json" ->
                  uc_values u2 !! k = Some (raw_json_value j))) /\
    (Forall (fun u => uc_ok u = false) us ->
       sheet (upsert headers values_map j t w).2 = sheet w /\
       last (log (upsert headers values_map j t w).2) = Some (FinalFallbackFailed t))) /\
  (exists row_idx w0 res1 w1,
    find_row_for_ticker t 4 w = (Some row_idx, w0) /\
    sheet w0 = sheet w /\ updates w0 = updates w /\
    first_attempt headers values_map t row_idx w0 = (res1, w1) /\
    (res1 = Some () -> upsert headers values_map j t w = (Some (), w1)) /\
    (res1 = None ->
       sheet w1 = sheet w /\
       (headers <> [] -> is_Some row_idx ->
          exists c, updates w1
                    = updates w ++ [UpdateCall (target_row row_idx (sheet w)) c
                                      (first_cells headers values_map row_idx) false]) /\
       exists res2 w2,
         fallback_attempt headers values_map j row_idx (add_log [WriteFailed t] w1)
         = (res2, w2) /\
         upsert headers values_map j t w
         = (Some (), match res2 with
                     | Some _ => w2
                     | None => add_log [FinalFallbackFailed t] w2
                     end) /\
         (exists us2, updates w2 = updates w1 ++ us2 /\ length us2 <= 1) /\
         (res2 = Some () ->
            sheet w2 = set_row (target_row row_idx (sheet w))
                         (first_cells headers (with_raw_json values_map j) row_idx)
                         (sheet w)) /\
         (res2 = None -> sheet w2 = sheet w) /\
         (headers <> [] -> is_Some row_idx \/ (next_fault w1).1 = false ->
            exists c, updates w2
                      = updates w1 ++ [UpdateCall (target_row row_idx (sheet w)) c
                                         (first_cells headers (with_raw_json values_map j)
                                            row_idx)
                                         (bool_decide (res2 = Some ()))]))).
Proof.
  destruct (upsert_outcome headers values_map j t w) as (ri & Hri & Hres & Hpost).
  split; [exact Hres|]. split.
  { exists ri.
    assert (Hpair : forall c1 c2 ok u1 u2,
      [UpdateCall (target_row ri (sheet w)) c1 (first_cells headers values_map ri) false;
       UpdateCall (target_row ri (sheet w)) c2
         (first_cells headers (with_raw_json values_map j) ri) ok] = [u1; u2] ->
      uc_ok u1 = false /\
      uc_values u1 = first_cells headers values_map ri /\
      uc_values u2 = first_cells headers (with_raw_json values_map j) ri /\
      (forall k h, headers !! k = Some h -> h <> "raw_json" ->
                   uc_values u2 !! k = uc_values u1 !! k) /\
      (forall k, headers !! k = Some "raw_json" ->
                 uc_values u2 !! k = Some (raw_json_value j))).
    { intros c1 c2 ok u1 u2 [= <- <-]. simpl.
      split; [reflexivity|]. split; [reflexivity|]. split; [reflexivity|]. split.
      - intros k h. apply first_cells_off_raw_json.
      - intros k. apply first_cells_raw_json. }
    destruct Hpost as [(Hs & c & Hu)|[(Hs & pre & c & Hu & Hpre)
                                      |(Hs & Hl & pre & post & Hu & Hpre & Hpost)]].
    - eexists. split; [exact Hri|]. split; [exact Hu|]. split; [simpl; lia|].
      split; [repeat constructor|]. split; [intros u1 u2 [=]|].
      intros Hall. inversion Hall as [|u us Hok _]. discriminate Hok.
    - destruct Hpre as [->|[c1 ->]].
      + eexists. split; [exact Hri|]. split; [exact Hu|]. split; [simpl; lia|].
        split; [repeat constructor|]. split; [intros u1 u2 [=]|].
        intros Hall. inversion Hall as [|u us Hok _]. discriminate Hok.
      + eexists. split; [exact Hri|]. split; [exact Hu|]. split; [simpl; lia|].
        split; [repeat constructor|]. split; [intros u1 u2; apply Hpair|].
        intros Hall. inversion Hall as [|u us _ Hall']. subst.
        inversion Hall' as [|u' us' Hok _]. discriminate Hok.
    - destruct Hpre as [->|[c1 ->]]; destruct Hpost as [->|[c2 ->]];
        (eexists; split; [exact Hri|]; split; [exact Hu|]; split; [simpl; lia|];
         split; [repeat constructor|]; split;
         [first [intros u1 u2 [=]; fail | intros u1 u2; apply Hpair]
         |intros _; split; [exact Hs|exact Hl]]). }
  clear Hri Hres Hpost.
  destruct (find_row_for_ticker t 4 w) as [[row_idx|] w0] eqn:Hfind.
  2:{ rewrite find_row_for_ticker_eq in Hfind.
      destruct (next_fault w) as [[] fs]; discriminate Hfind. }
  assert (Hw0 : sheet w0 = sheet w /\ updates w0 = updates w).
  { rewrite find_row_for_ticker_eq in Hfind.
    destruct (next_fault w) as [[] fs]; injection Hfind as _ <-; split; reflexivity. }
  destruct Hw0 as [Hs0 Hu0].
  destruct (first_attempt headers values_map t row_idx w0) as [res1 w1] eqn:E1.
  exists row_idx, w0, res1, w1.
  split; [reflexivity|]. split; [exact Hs0|]. split; [exact Hu0|]. split; [exact E1|].
  assert (Hup : upsert headers values_map j t w
                = match res1 with
                  | Some _ => (Some (), w1)
                  | None =>
                      match fallback_attempt headers values_map j row_idx
                              (add_log [WriteFailed t] w1) with
                      | (Some _, w2) => (Some (), w2)
                      | (None, w2) => (Some (), add_log [FinalFallbackFailed t] w2)
                      end
                  end).
  { unfold upsert. unfold mbind at 1, M_bind, bind. rewrite Hfind.
    unfold try_catch at 1. rewrite E1. destruct res1 as [[]|]; [reflexivity|].
    unfold mbind at 1, M_bind, bind, write_log at 1.
    change (World (sheet w1) (faults w1) (log w1 ++ [WriteFailed t]) (updates w1))
      with (add_log [WriteFailed t] w1).
    unfold try_catch.
    destruct (fallback_attempt headers values_map j row_idx (add_log [WriteFailed t] w1))
      as [[[]|] w2]; reflexivity. }
  split.
  { intros ->. exact Hup. }
  intros ->.
  pose proof (first_attempt_post headers values_map t row_idx w0) as H1.
  rewrite E1 in H1. unfold attempt_post in H1. cbn [fst snd] in H1.
  destruct H1 as [(_ & Hs1 & _)|(Hn & _)]; [|discriminate Hn].
  rewrite Hs0 in Hs1.
  split; [exact Hs1|]. split.
  { intros Hne [r ->]. cbn [target_row first_cells].
    destruct (first_attempt_in_place_raises headers values_map t r w0 w1 Hne E1) as [c Hc].
    exists c. rewrite Hc, Hu0. reflexivity. }
  pose proof (fallback_attempt_post headers values_map j row_idx
                (add_log [WriteFailed t] w1)) as H2.
  pose proof (fallback_attempt_sends headers values_map j row_idx
                (add_log [WriteFailed t] w1)) as H3.
  destruct (fallback_attempt headers values_map j row_idx (add_log [WriteFailed t] w1))
    as [res2 w2] eqn:E2.
  exists res2, w2. split; [reflexivity|]. split.
  { rewrite Hup. destruct res2 as [[]|]; reflexivity. }
  unfold attempt_post in H2. cbn [fst snd add_log sheet updates] in H2, H3.
  rewrite Hs1 in H2, H3.
  split; [|split; [|split]].
  - destruct H2 as [(_ & _ & [Hu|[c Hu]])|(_ & _ & c & Hu)].
    + exists []. rewrite app_nil_r. split; [exact Hu|simpl; lia].
    + eexists. split; [exact Hu|simpl; lia].
    + eexists. split; [exact Hu|simpl; lia].
  - intros ->. destruct H2 as [(Hn & _)|(_ & Hs2 & _)]; [discriminate Hn|exact Hs2].
  - intros ->. destruct H2 as [(_ & Hs2 & _)|(Hn & _)]; [exact Hs2|discriminate Hn].
  - intros Hne Hcall. apply H3; [exact Hne|]. exact Hcall.
Qed.

Lemma fallback_write_once_witness :
  exists u1 u2,
    updates (upsert ["ticker"; "asset_price"; "raw_json"] vm_btc (JArr [JInt 1]) "BTC"
               (World sheet_raw [false; true; true] [] [])).2 = [u1; u2] /\
    uc_ok u1 = false /\
    uc_values u2 !! 1 = uc_values u1 !! 1 /\
    uc_values u2 !! 2 = Some (JStr "[1]") /\
    sheet (upsert ["ticker"; "asset_price"; "raw_json"] vm_btc (JArr [JInt 1]) "BTC"
             (World sheet_raw [false; true; true] [] [])).2 = sheet_raw.
Proof.
  destruct (fallback_write_once ["ticker"; "asset_price"; "raw_json"] vm_btc
              (JArr [JInt 1]) "BTC" (World sheet_raw [false; true; true] [] []))
    as (_ & (ri & us & _ & Hu & _ & _ & Hpair & Hfail) & _).
  assert (Hus : us = [UpdateCall 4 "C" [JStr "BTC"; JStr "65000"; JStr ""] false;
                      UpdateCall 4 "C" [JStr "BTC"; JStr "65000"; JStr "[1]"] false]).
  { vm_compute in Hu. exact (eq_sym Hu). }
  subst us. eexists _, _. split; [exact Hu|].
  destruct (Hpair _ _ eq_refl) as (Hok & _ & _ & Hsame & Hraw).
  split; [exact Hok|]. split; [exact (Hsame 1 "asset_price" eq_refl ltac:(discriminate))|].
  split; [reflexivity|]. apply Hfail. repeat constructor.
Defined.

(** C2 as written fails: the second attempt does not send a reduced row
    with the ticker alone.  It sends every column again, asset_price
    included, and adds the text of the document under raw_json. *)
Lemma fallback_payload_not_reduced :
  updates (upsert ["ticker"; "asset_price"; "raw_json"] vm_btc (JArr [JInt 1]) "BTC"
             (World sheet_raw [false; true] [] [])).2
  = [UpdateCall 4 "C" [JStr "BTC"; JStr "65000"; JStr ""] false;
     UpdateCall 4 "C" [JStr "BTC"; JStr "65000"; JStr "[1]"] true].
Proof. vm_compute. reflexivity. Qed.

(** * Further properties of the helpers and of the run *)

(** ** Column names *)

(** The number a column name stands for: A is 1, Z is 26, AA is 27. *)
Definition column_to_number (s : string) : nat :=
  foldl (fun acc c => 26 * acc + (nat_of_ascii c - 64)) 0 (list_ascii_of_string s).

Definition is_capital (c : ascii) : bool :=
  (65 <=? nat_of_ascii c) && (nat_of_ascii c <=? 90).

(** The loop puts the letters of [n] in front of those it was given. *)
Lemma number_to_column_loop_digits (fuel : nat) :
  forall (n : nat) (letters : list ascii), n <= fuel ->
    exists ds,
      number_to_column_loop fuel n letters = ds ++ letters /\
      Forall (fun c => is_capital c = true) ds /\
      foldl (fun acc c => 26 * acc + (nat_of_ascii c - 64)) 0 ds = n /\
      (0 < n -> ds <> []).
Proof.
  induction fuel as [|fuel IH]; intros n letters Hn.
  - exists []. assert (n = 0) as -> by lia. repeat split; [constructor|lia].
  - cbn [number_to_column_loop]. destruct (n =? 0) eqn:E.
    + apply Nat.eqb_eq in E. subst n. exists []. repeat split; [constructor|lia].
    + apply Nat.eqb_neq in E.
      assert (Hq : (n - 1) / 26 <= fuel).
      { etrans; [apply Nat.Div0.div_le_upper_bound with (q := n - 1); lia|lia]. }
      destruct (IH ((n - 1) / 26) (ascii_of_nat (65 + (n - 1) mod 26) :: letters) Hq)
        as (ds & Hds & Hcap & Hval & _).
      assert (Hr : (n - 1) mod 26 < 26) by (apply Nat.mod_upper_bound; lia).
      assert (Hc : nat_of_ascii (ascii_of_nat (65 + (n - 1) mod 26)) = 65 + (n - 1) mod 26).
      { apply nat_ascii_embedding. lia. }
      exists (ds ++ [ascii_of_nat (65 + (n - 1) mod 26)]).
      split; [rewrite Hds, <- app_assoc; reflexivity|]. split; [|split].
      * apply Forall_app. split; [exact Hcap|]. constructor; [|constructor].
        unfold is_capital. rewrite Hc. apply andb_true_intro.
        split; apply Nat.leb_le; lia.
      * rewrite foldl_app. cbn [foldl]. rewrite Hval, Hc.
        pose proof (Nat.div_mod_eq (n - 1) 26). lia.
      * intros _. destruct ds; discriminate.
Qed.

(** Any bound on the number of turns that is at least [n] gives the same
    letters: the loop ends because [n] has reached 0. *)
Lemma number_to_column_loop_fuel (fuel1 : nat) :
  forall (fuel2 n : nat) (letters : list ascii), n <= fuel1 -> n <= fuel2 ->
    number_to_column_loop fuel1 n letters = number_to_column_loop fuel2 n letters.
Proof.
  induction fuel1 as [|fuel1 IH]; intros fuel2 n letters H1 H2.
  - assert (n = 0) as -> by lia. destruct fuel2; reflexivity.
  - destruct fuel2 as [|fuel2].
    + assert (n = 0) as -> by lia. reflexivity.
    + cbn [number_to_column_loop]. destruct (n =? 0) eqn:E; [reflexivity|].
      apply Nat.eqb_neq in E.
      assert (Hq : (n - 1) / 26 <= n - 1).
      { apply Nat.Div0.div_le_upper_bound with (q := n - 1). lia. }
      apply IH; lia.
Qed.

Lemma number_to_column_decode (n : nat) (s : string) :
  number_to_column n = Some s -> column_to_number s = n.
Proof.
  unfold number_to_column. destruct (n <? 1); [discriminate|]. intros [= <-].
  destruct (number_to_column_loop_digits n n [] (le_n n)) as (ds & Hds & _ & Hval & _).
  unfold column_to_number. rewrite list_ascii_of_string_of_list_ascii, Hds, app_nil_r.
  exact Hval.
Qed.

(** X1.  [number_to_column] refuses 0.  For every n from 1 on it returns a
    name that is not empty, is made of capital letters only, and reads back
    as n when A..Z count as the digits 1..26 in base 26; the name is the same
    for every bound on the loop that is at least n. *)
Theorem number_to_column_round_trip :
  number_to_column 0 = None /\
  forall n, exists s,
    number_to_column (S n) = Some s /\
    s <> "" /\
    Forall (fun c => is_capital c = true) (list_ascii_of_string s) /\
    column_to_number s = S n /\
    forall fuel, S n <= fuel ->
      string_of_list_ascii (number_to_column_loop fuel (S n) []) = s.
Proof.
  split; [reflexivity|]. intros n.
  exists (string_of_list_ascii (number_to_column_loop (S n) (S n) [])).
  assert (Hsome : number_to_column (S n)
                  = Some (string_of_list_ascii (number_to_column_loop (S n) (S n) [])))
    by reflexivity.
  split; [exact Hsome|].
  destruct (number_to_column_loop_digits (S n) (S n) [] (le_n _))
    as (ds & Hds & Hcap & _ & Hne).
  rewrite app_nil_r in Hds. split; [|split; [|split]].
  - rewrite Hds. destruct ds as [|d ds]; [exfalso; apply Hne; [lia|reflexivity]|].
    discriminate.
  - rewrite list_ascii_of_string_of_list_ascii, Hds. exact Hcap.
  - apply number_to_column_decode, Hsome.
  - intros fuel Hfuel. f_equal. apply number_to_column_loop_fuel; lia.
Qed.

Lemma number_to_column_round_trip_witness :
  column_to_number "AB" = 28 /\
  string_of_list_ascii (number_to_column_loop 100 28 []) = "AB".
Proof.
  destruct (proj2 number_to_column_round_trip 27) as (s & Hs & _ & _ & Hval & Hfuel).
  assert (s = "AB") as -> by (vm_compute in Hs; congruence).
  split; [exact Hval|apply Hfuel; lia].
Defined.

(** X2.  Different column counts get different results: two positive
    counts never share a name, and only 0 is refused. *)
Theorem number_to_column_injective (n m : nat) :
  n <> m -> number_to_column n <> number_to_column m.
Proof.
  intros Hnm Heq.
  destruct (number_to_column n) as [s|] eqn:En.
  - symmetry in Heq. apply number_to_column_decode in En, Heq. congruence.
  - symmetry in Heq. unfold number_to_column in En, Heq.
    destruct (n <? 1) eqn:E1; [|discriminate]. destruct (m <? 1) eqn:E2; [|discriminate].
    apply Nat.ltb_lt in E1, E2. lia.
Qed.

Lemma number_to_column_injective_witness :
  number_to_column 26 <> number_to_column 27.
Proof. apply number_to_column_injective. lia. Defined.

(** ** The text of a cell *)

Lemma pretty_N_go_not_empty (x : N) (s : string) : s <> "" -> pretty_N_go x s <> "".
Proof.
  revert s. induction (N.lt_wf_0 x) as [x _ IH]; intros s Hs.
  assert (x = 0 \/ 0 < x)%N as [->|Hx] by lia.
  - rewrite pretty_N_go_0. exact Hs.
  - rewrite pretty_N_go_step by exact Hx. apply IH; [|discriminate].
    apply N.div_lt; lia.
Qed.

Lemma pretty_Z_not_empty (z : Z) : pretty z <> "".
Proof.
  destruct z as [|p|p]; unfold pretty, pretty_Z; [discriminate| |discriminate].
  unfold pretty, pretty_positive, pretty, pretty_N.
  destruct (decide (N.pos p = 0%N)) as [|_]; [discriminate|].
  rewrite pretty_N_go_step by lia. apply pretty_N_go_not_empty. discriminate.
Qed.

(** X3.  [safe_str] gives the empty text only for None and for the empty
    string (and for a float whose own text is empty, which no parsed number
    has): every Boolean, every integer, every list and every dict, the empty
    ones included, gets a text that is not empty. *)
Theorem safe_str_blank (v : json) :
  safe_str v = "" <-> v = JNull \/ v = JStr "" \/ v = JFloat "".
Proof.
  split.
  - destruct v as [|[]|z|s|s|l|kv]; simpl; intros H.
    + left. reflexivity.
    + discriminate H.
    + discriminate H.
    + exfalso. exact (pretty_Z_not_empty z H).
    + right. right. rewrite H. reflexivity.
    + right. left. rewrite H. reflexivity.
    + discriminate H.
    + discriminate H.
  - intros [->|[->| ->]]; reflexivity.
Qed.

(** ** Walking a document *)

Lemma get_nested_off_dict (d : json) (path : list string) (default : json) :
  is_dict d = false -> path <> [] -> get_nested d path default = default.
Proof. destruct path as [|p rest]; [congruence|]. destruct d; [reflexivity..|discriminate]. Qed.

(** X4.  With a default that is not a dict, going down a path made of two
    parts is going down the first part and then, from what that gave, down
    the second: a break in the first part gives the default at once. *)
Theorem get_nested_path_app (d : json) (p q : list string) (default : json) :
  is_dict default = false ->
  get_nested d (p ++ q) default = get_nested (get_nested d p default) q default.
Proof.
  intros Hdef.
  assert (Hstop : get_nested default q default = default).
  { destruct q as [|k q]; [reflexivity|]. apply get_nested_off_dict; [exact Hdef|discriminate]. }
  revert d. induction p as [|k p IH]; intros d; [reflexivity|]. simpl.
  destruct d as [| | | | | |kv]; try (symmetry; exact Hstop).
  destruct (dict_lookup k kv) as [v|]; [apply IH|symmetry; exact Hstop].
Qed.

Lemma get_nested_path_app_witness :
  get_nested doc_btc (["data"; "change_intervals"] ++ ["1h"]) JNull
  = get_nested (get_nested doc_btc ["data"; "change_intervals"] JNull) ["1h"] JNull /\
  get_nested doc_btc ["data"; "change_intervals"; "1h"] JNull = JInt 3.
Proof.
  split; [apply get_nested_path_app; reflexivity|reflexivity].
Defined.

(** Induction on a document with the hypothesis for every item of a list
    and every value of a dict. *)
Lemma json_nested_ind (P : json -> Prop) :
  P JNull -> (forall b, P (JBool b)) -> (forall z, P (JInt z)) ->
  (forall s, P (JFloat s)) -> (forall s, P (JStr s)) ->
  (forall l, Forall P l -> P (JArr l)) ->
  (forall kv, Forall (fun p : string * json => P p.2) kv -> P (JObj kv)) ->
  forall v, P v.
Proof.
  intros Hn Hb Hi Hf Hs Ha Ho. fix IH 1.
  intros [|b|z|s|s|l|kv]; [exact Hn|apply Hb|apply Hi|apply Hf|apply Hs| |].
  - apply Ha. revert l. fix IHl 1. intros [|x l]; constructor; [apply IH|apply IHl].
  - apply Ho. revert kv. fix IHkv 1. intros [|[k x] kv]; constructor; [apply IH|apply IHkv].
Qed.

(** [stored_under key obj v]: some dict inside [obj], at any depth, holds
    [v] under [key]. *)
Inductive stored_under (key : string) : json -> json -> Prop :=
  | stored_here (kv : list (string * json)) (v : json) :
      dict_lookup key kv = Some v -> stored_under key (JObj kv) v
  | stored_in_value (kv : list (string * json)) (k : string) (c v : json) :
      (k, c) ∈ kv -> stored_under key c v -> stored_under key (JObj kv) v
  | stored_in_item (l : list json) (c v : json) :
      c ∈ l -> stored_under key c v -> stored_under key (JArr l) v.

Lemma first_found_cases {A : Type} (f : A -> json) (l : list A) :
  first_found f l = JNull \/ exists x, x ∈ l /\ f x = first_found f l.
Proof.
  induction l as [|x l IH]; [left; reflexivity|]. simpl.
  destruct (f x) eqn:E;
    try (right; exists x; split; [left|rewrite E; reflexivity]).
  destruct IH as [IH|(y & Hy & Hfy)]; [left; exact IH|].
  right. exists y. split; [right; exact Hy|exact Hfy].
Qed.

(** X5.  What the recursive search returns is either None or a value that
    some dict inside the object does hold under the key: the search never
    makes a value up and never returns a value stored under another key. *)
Theorem find_first_key_recursive_sound (obj : json) (key : string) :
  find_first_key_recursive obj key = JNull \/
  stored_under key obj (find_first_key_recursive obj key).
Proof.
  induction obj as [|b|z|s|s|l IH|kv IH] using json_nested_ind;
    try (left; reflexivity).
  - simpl.
    destruct (first_found_cases (fun item => find_first_key_recursive item key) l)
      as [H|(c & Hc & Hfc)]; [left; exact H|].
    rewrite <- Hfc. rewrite Forall_forall in IH.
    destruct (IH c Hc) as [H|H]; [left; exact H|].
    right. eapply stored_in_item; eassumption.
  - simpl. destruct (dict_lookup key kv) as [v|] eqn:E.
    + right. apply stored_here. exact E.
    + destruct (first_found_cases
                  (fun p : string * json => find_first_key_recursive p.2 key) kv)
        as [H|([k c] & Hc & Hfc)]; [left; exact H|].
      rewrite <- Hfc. rewrite Forall_forall in IH. simpl.
      destruct (IH (k, c) Hc) as [H|H]; [left; exact H|].
      right. eapply stored_in_value; eassumption.
Qed.

(** ** The keys of the values map and the header row *)

Definition REQUIRED_FIXED_HEADERS : list string :=
  ["ticker";
   "sentiment_positive_posts"; "sentiment_positive_interactions";
   "sentiment_neutral_posts"; "sentiment_neutral_interactions";
   "sentiment_negative_posts"; "sentiment_negative_interactions";
   "posts_active"; "posts_active_prev"; "posts_created"; "posts_created_prev";
   "contributors_active"; "contributors_active_prev";
   "contributors_created"; "contributors_created_prev";
   "alerts"; "ai_summary"; "ai_summary_supportive";
   "types_count"; "types_eng"; "types_sentiment";
   "sentiment_types_tweet"; "sentiment_types_youtube-video";
   "sentiment_types_tiktok-video"; "sentiment_types_reddit-post";
   "asset_id"; "asset_name"; "asset_symbol"; "asset_price"; "asset_price_btc";
   "asset_market_cap"; "asset_market_dominance";
   "asset_percent_change_1h"; "asset_percent_change_24h";
   "asset_percent_change_7d"; "asset_percent_change_30d";
   "asset_volume_24h"; "asset_max_supply"; "asset_circulating_supply";
   "asset_categories"; "asset_close"; "asset_interactions_24h";
   "asset_galaxy_score"; "asset_alt_rank"; "asset_volatility";
   "asset_market_cap_rank"; "asset_social_dominance";
   "asset_price_all_time_high"; "asset_price_all_time_high_date";
   "asset_price_52_week_high"; "asset_price_52_week_high_date";
   "asset_price_52_week_low"; "asset_price_52_week_low_date";
   "interactions_24h"; "interactions_24h_prev"; "whatsup"].

(** The header [run_once] writes into an empty header row (lines 504-507). *)
Definition initial_headers : list string :=
  REQUIRED_FIXED_HEADERS
  ++ ((fun k => "metric_trends_" +:+ k) <$> METRIC_TRENDS_KEYS)
  ++ ["raw_json"].

Lemma assign_each_dom (p : string) (f : string -> json) (ks : list string)
    (m : gmap string json) :
  dom (assign_each p f ks m) = list_to_set ((fun k => p +:+ k) <$> ks) ∪ dom m.
Proof.
  unfold assign_each. revert m. induction ks as [|k ks IH]; intros m; simpl.
  - rewrite (left_id_L ∅ (∪)). reflexivity.
  - rewrite IH, dom_insert_L, (assoc_L (∪)).
    rewrite (comm_L (∪) (list_to_set _) {[p +:+ k]}). reflexivity.
Qed.

Lemma fixed_columns_dom (top : list (string * json)) :
  dom (fixed_columns top) = list_to_set (tail REQUIRED_FIXED_HEADERS).
Proof.
  unfold fixed_columns. cbv zeta.
  rewrite !dom_insert_L, !assign_each_dom, !dom_insert_L, !assign_each_dom, dom_empty_L.
  apply (bool_decide_unpack _). vm_compute. exact I.
Qed.

(** The columns the builder fills when the module-level list is [ks]. *)
Definition builder_keys (ks : list string) : list string :=
  tail REQUIRED_FIXED_HEADERS
  ++ ((fun k => "metric_trends_" +:+ k) <$> METRIC_TRENDS_KEYS)
  ++ ((fun k => "change_intervals_" +:+ k) <$> ks).

Lemma build_values_map_dom (g : globals) (top : list (string * json))
    (keys : list string) (m : gmap string json) :
  build_values_map_for_ticker g (JObj top) keys = Some m ->
  dom m = list_to_set (builder_keys (change_interval_keys_local g)).
Proof.
  unfold build_values_map_for_ticker. intros H. apply (inj Some) in H. subst m.
  rewrite !assign_each_dom, fixed_columns_dom. unfold builder_keys.
  rewrite !list_to_set_app_L.
  rewrite (comm_L (∪) (list_to_set (_ <$> change_interval_keys_local g))).
  rewrite (comm_L (∪) (list_to_set (_ <$> METRIC_TRENDS_KEYS))).
  rewrite (assoc_L (∪)). reflexivity.
Qed.

Lemma build_values_map_is_Some (g : globals) (top : list (string * json))
    (keys : list string) (m : gmap string json) (h : string) :
  build_values_map_for_ticker g (JObj top) keys = Some m ->
  is_Some (m !! h) <-> h ∈ builder_keys (change_interval_keys_local g).
Proof.
  intros Hm. rewrite <- elem_of_dom, (build_values_map_dom _ _ _ _ Hm).
  apply elem_of_list_to_set.
Qed.

Lemma builder_keys_not (ks : list string) (h : string) :
  h ∈ ["ticker"; "raw_json"] -> h ∉ builder_keys ks.
Proof.
  intros Hh Hin. unfold builder_keys in Hin.
  apply elem_of_app in Hin as [Hin|Hin]; [|apply elem_of_app in Hin as [Hin|Hin]].
  - assert (Hno : Forall (fun x => x ∉ tail REQUIRED_FIXED_HEADERS) ["ticker"; "raw_json"]).
    { apply (bool_decide_unpack _). vm_compute. exact I. }
    rewrite Forall_forall in Hno. exact (Hno h Hh Hin).
  - apply list_elem_of_fmap in Hin as (k & -> & _).
    apply elem_of_cons in Hh as [Hh|Hh]; [discriminate Hh|].
    apply list_elem_of_singleton in Hh. discriminate Hh.
  - apply list_elem_of_fmap in Hin as (k & -> & _).
    apply elem_of_cons in Hh as [Hh|Hh]; [discriminate Hh|].
    apply list_elem_of_singleton in Hh. discriminate Hh.
Qed.

(** X6.  For every document that is a dict the builder returns a map, and
    the keys of that map do not depend on the document: they are the
    required fixed headers other than ticker, metric_trends_<k> for each
    known metric and change_intervals_<ck> for each key of the module-level
    list.  The map never has a ticker entry or a raw_json entry. *)
Theorem values_map_keys (g : globals) (top : list (string * json)) (keys : list string) :
  exists m,
    build_values_map_for_ticker g (JObj top) keys = Some m /\
    (forall h, is_Some (m !! h) <-> h ∈ builder_keys (change_interval_keys_local g)) /\
    m !! "ticker" = None /\
    m !! "raw_json" = None.
Proof.
  eexists. split; [reflexivity|].
  assert (Hkeys : forall h,
             is_Some (default ∅ (build_values_map_for_ticker g (JObj top) keys) !! h)
             <-> h ∈ builder_keys (change_interval_keys_local g)).
  { intros h. apply (build_values_map_is_Some g top keys). reflexivity. }
  split; [exact Hkeys|]. split.
  - apply eq_None_not_Some. intros H. apply Hkeys in H.
    revert H. apply builder_keys_not. left.
  - apply eq_None_not_Some. intros H. apply Hkeys in H.
    revert H. apply builder_keys_not. right. left.
Qed.

(** X7.  The header written into an empty header row has 72 columns, all
    different, ticker first and raw_json last, and ends in column BT.  Its
    columns other than ticker and raw_json are exactly the keys the builder
    fills while no change-interval key is known: no value the builder
    computes lacks a column and no column lacks a value. *)
Theorem initial_headers_match_builder :
  NoDup initial_headers /\
  length initial_headers = 72 /\
  head initial_headers = Some "ticker" /\
  last initial_headers = Some "raw_json" /\
  number_to_column (length initial_headers) = Some "BT" /\
  forall (top : list (string * json)) (keys : list string),
    exists m,
      build_values_map_for_ticker (Globals []) (JObj top) keys = Some m /\
      forall h, h ∈ initial_headers <-> h = "ticker" \/ h = "raw_json" \/ is_Some (m !! h).
Proof.
  split; [apply (bool_decide_unpack _); vm_compute; exact I|].
  split; [reflexivity|]. split; [reflexivity|]. split; [reflexivity|].
  split; [vm_compute; reflexivity|].
  intros top keys. eexists. split; [reflexivity|]. intros h.
  rewrite (build_values_map_is_Some (Globals []) top keys _ h eq_refl).
  unfold initial_headers, builder_keys. cbn [change_interval_keys_local fmap list_fmap].
  change REQUIRED_FIXED_HEADERS with ("ticker" :: tail REQUIRED_FIXED_HEADERS) at 1.
  rewrite app_nil_r. cbn [app].
  rewrite elem_of_cons, !elem_of_app, list_elem_of_singleton. tauto.
Qed.

(** Line 389: the value the asset_ columns are read from. *)
Definition asset_block (top : list (string * json)) : json :=
  py_or (dict_get "asset" JNull top) (get_nested (JObj top) ["data"; "asset"] (JObj [])).

Lemma build_lookup_asset (g : globals) (top : list (string * json))
    (keys : list string) (m : gmap string json) (f : string) :
  build_values_map_for_ticker g (JObj top) keys = Some m ->
  f ∈ ASSET_FIELDS ->
  m !! ("asset_" +:+ f) = Some (get_nested (asset_block top) [f] JNull).
Proof.
  unfold build_values_map_for_ticker. intros H Hf. apply (inj Some) in H. subst m.
  rewrite assign_each_other by (intros; discriminate).
  rewrite assign_each_other by (intros; discriminate).
  unfold fixed_columns. cbv zeta.
  rewrite !lookup_insert_ne by discriminate.
  apply (assign_each_hit "asset_" (fun f => get_nested (asset_block top) [f] JNull)).
  exact Hf.
Qed.

(** X8.  Each asset_ column holds the field of that name of the asset
    value, None when it is missing.  The asset value is the root's asset
    when that is truthy and the one under data otherwise, an empty dict when
    neither is there.  When the value chosen is not a dict, as with a text at
    the root, every asset_ column is None whatever data holds. *)
Theorem asset_columns_source (g : globals) (top : list (string * json))
    (keys : list string) (f : string) :
  f ∈ ASSET_FIELDS ->
  exists m,
    build_values_map_for_ticker g (JObj top) keys = Some m /\
    m !! ("asset_" +:+ f) = Some (get_nested (asset_block top) [f] JNull) /\
    (forall a, dict_lookup "asset" top = Some a -> truthy a = true -> asset_block top = a) /\
    (truthy (dict_get "asset" JNull top) = false ->
     asset_block top = get_nested (JObj top) ["data"; "asset"] (JObj [])) /\
    (forall kv, asset_block top = JObj kv ->
                m !! ("asset_" +:+ f) = Some (default JNull (dict_lookup f kv))) /\
    (is_dict (asset_block top) = false -> m !! ("asset_" +:+ f) = Some JNull).
Proof.
  intros Hf. eexists. split; [reflexivity|].
  assert (Hm : default ∅ (build_values_map_for_ticker g (JObj top) keys) !! ("asset_" +:+ f)
               = Some (get_nested (asset_block top) [f] JNull)).
  { apply (build_lookup_asset g top keys); [reflexivity|exact Hf]. }
  split; [exact Hm|]. split; [|split; [|split]].
  - intros a Ha Ht. unfold asset_block, py_or, dict_get. rewrite Ha, Ht. reflexivity.
  - intros Ht. unfold asset_block, py_or. rewrite Ht. reflexivity.
  - intros kv Hkv. etrans; [exact Hm|]. rewrite Hkv. simpl.
    destruct (dict_lookup f kv); reflexivity.
  - intros Hnd. etrans; [exact Hm|]. f_equal.
    apply get_nested_off_dict; [exact Hnd|discriminate].
Qed.

(** A text at the root hides the asset block under data. *)
Definition doc_asset_text : list (string * json) :=
  [("asset", JStr "n/a"); ("data", JObj [("asset", JObj [("price", JInt 7)])])].

Lemma asset_columns_source_witness :
  exists m,
    build_values_map_for_ticker (Globals []) (JObj doc_asset_text) [] = Some m /\
    get_nested (JObj doc_asset_text) ["data"; "asset"; "price"] JNull = JInt 7 /\
    m !! ("asset_" +:+ "price") = Some JNull.
Proof.
  destruct (asset_columns_source (Globals []) doc_asset_text [] "price")
    as (m & Hm & _ & _ & _ & _ & Hoff).
  { unfold ASSET_FIELDS. do 3 right. left. }
  exists m. split; [exact Hm|]. split; [reflexivity|]. apply Hoff. reflexivity.
Defined.

(** ** Failing store calls *)

Lemma find_row_for_ticker_any (ticker : string) (start_row : nat) (w : world) :
  find_row_for_ticker ticker start_row w
  = let '(f, fs) := next_fault w in
    if f then (Some None, World (sheet w) fs (log w ++ [FailedSearchingTicker]) (updates w))
    else (Some (scan_from start_row (cells_from start_row (col_a (sheet w))) ticker),
          World (sheet w) fs (log w) (updates w)).
Proof.
  unfold find_row_for_ticker. unfold_monad. simpl.
  destruct (faults w) as [|[] fs]; reflexivity.
Qed.

(** The scan from a start row that is at least 1: the lowest row from there
    on whose cell matches. *)
Lemma scan_cells_from (col : list string) (ticker : string) (n r : nat) :
  scan_from (S n) (cells_from (S n) col) ticker = Some r <->
  S n <= r /\
  (exists v, col !! (r - 1) = Some v /\ same_ticker v ticker = true) /\
  forall r' v', S n <= r' < r -> col !! (r' - 1) = Some v' ->
                same_ticker v' ticker = false.
Proof.
  cbn [cells_from]. rewrite scan_from_Some. split.
  - intros (i & v & -> & Hi & Hv & Hfirst). rewrite lookup_drop in Hi.
    split; [lia|]. split.
    + exists v. split; [|exact Hv]. replace (S n + i - 1) with (n + i) by lia. exact Hi.
    + intros r' v' Hr' Hl. apply (Hfirst (r' - S n) v'); [lia|].
      rewrite lookup_drop. replace (n + (r' - S n)) with (r' - 1) by lia. exact Hl.
  - intros (Hr & (v & Hl & Hv) & Hfirst). exists (r - S n), v.
    split; [lia|]. split.
    { rewrite lookup_drop. replace (n + (r - S n)) with (r - 1) by lia. exact Hl. }
    split; [exact Hv|]. intros i' v' Hi' Hl'. rewrite lookup_drop in Hl'.
    apply (Hfirst (S n + i') v'); [lia|].
    replace (S n + i' - 1) with (n + i') by lia. exact Hl'.
Qed.

(** At start row 0 the slice is the last cell alone, counted as row 0. *)
Lemma scan_cells_from_0 (col : list string) (ticker : string) :
  scan_from 0 (cells_from 0 col) ticker
  = match last col with
    | Some v => if same_ticker v ticker then Some 0 else None
    | None => None
    end.
Proof.
  cbn [cells_from]. destruct (last col) as [v|] eqn:El.
  - apply last_Some in El as [l' ->]. rewrite length_app. cbn [length].
    replace (length l' + 1 - 1) with (length l' + 0) by lia.
    rewrite drop_app_length'; [|lia]. reflexivity.
  - apply last_None in El. subst col. reflexivity.
Qed.

(** X9.  The search for a ticker makes one read of the identity column,
    sends no update and leaves the sheet as it is, and it hands back an
    answer whatever the read does (writing a log line is taken not to fail).
    When the read raises, one warning is logged and the answer is None, as
    for a ticker that is not there.  When the read goes through, nothing is
    logged; for a start row from 1 on the answer is the lowest row from the
    start row on whose cell equals the ticker after strip and lower, and
    None exactly when no such row has one; at start row 0 the slice holds
    the last cell of the column alone, and the answer is 0 when that cell
    matches and None otherwise. *)
Theorem find_row_for_ticker_never_raises (ticker : string) (start_row : nat) (w : world) :
  exists row_idx w',
    find_row_for_ticker ticker start_row w = (Some row_idx, w') /\
    sheet w' = sheet w /\ updates w' = updates w /\ faults w' = (next_fault w).2 /\
    ((next_fault w).1 = true ->
       row_idx = None /\ log w' = log w ++ [FailedSearchingTicker] /\
       level_of FailedSearchingTicker = WARNING) /\
    ((next_fault w).1 = false ->
       log w' = log w /\
       (1 <= start_row ->
        (forall r, row_idx = Some r <->
           start_row <= r /\
           (exists v, col_a (sheet w) !! (r - 1) = Some v /\ same_ticker v ticker = true) /\
           forall r' v', start_row <= r' < r -> col_a (sheet w) !! (r' - 1) = Some v' ->
                         same_ticker v' ticker = false) /\
        (row_idx = None <->
           forall r v, start_row <= r -> col_a (sheet w) !! (r - 1) = Some v ->
                       same_ticker v ticker = false)) /\
       (start_row = 0 ->
        row_idx = match last (col_a (sheet w)) with
                  | Some v => if same_ticker v ticker then Some 0 else None
                  | None => None
                  end)).
Proof.
  rewrite find_row_for_ticker_any. destruct (next_fault w) as [[] fs]; cbn [fst snd].
  - eexists _, _. split; [reflexivity|]. split; [reflexivity|]. split; [reflexivity|].
    split; [reflexivity|]. split; [intros _; repeat split|discriminate].
  - eexists _, _. split; [reflexivity|]. split; [reflexivity|]. split; [reflexivity|].
    split; [reflexivity|]. split; [discriminate|]. intros _. split; [reflexivity|]. split.
    + intros Hs. destruct start_row as [|n]; [lia|]. split.
      * intros r. apply scan_cells_from.
      * cbn [cells_from]. rewrite scan_from_None. split.
        -- intros H r v Hr Hl. apply (H (r - S n) v). rewrite lookup_drop.
           replace (n + (r - S n)) with (r - 1) by lia. exact Hl.
        -- intros H i v Hi. rewrite lookup_drop in Hi. apply (H (S n + i) v); [lia|].
           replace (S n + i - 1) with (n + i) by lia. exact Hi.
    + intros ->. apply scan_cells_from_0.
Qed.

Lemma find_row_for_ticker_never_raises_witness :
  (find_row_for_ticker "btc" 4 (world_btc [])).1 = Some (Some 4) /\
  (find_row_for_ticker "BTC" 4 (world_btc [true])).1 = Some None /\
  log (find_row_for_ticker "BTC" 4 (world_btc [true])).2 = [FailedSearchingTicker] /\
  (find_row_for_ticker "token" 0 (world_btc [])).1 = Some None.
Proof.
  split; [|split; [|split]].
  - destruct (find_row_for_ticker_never_raises "btc" 4 (world_btc []))
      as (row_idx & w' & Hfind & _ & _ & _ & _ & Hok).
    destruct (Hok eq_refl) as (_ & Hscan & _).
    destruct (Hscan ltac:(lia)) as [Hsome _].
    rewrite Hfind. cbn [fst]. f_equal. apply Hsome. split; [lia|]. split.
    + exists "BTC". split; reflexivity.
    + intros r' v' Hr'. lia.
  - destruct (find_row_for_ticker_never_raises "BTC" 4 (world_btc [true]))
      as (row_idx & w' & Hfind & _ & _ & _ & Hfault & _).
    destruct (Hfault eq_refl) as (-> & _ & _). rewrite Hfind. reflexivity.
  - destruct (find_row_for_ticker_never_raises "BTC" 4 (world_btc [true]))
      as (row_idx & w' & Hfind & _ & _ & _ & Hfault & _).
    destruct (Hfault eq_refl) as (_ & Hlog & _). rewrite Hfind. exact Hlog.
  - destruct (find_row_for_ticker_never_raises "token" 0 (world_btc []))
      as (row_idx & w' & Hfind & _ & _ & _ & _ & Hok).
    destruct (Hok eq_refl) as (_ & _ & Hzero).
    rewrite Hfind. cbn [fst]. f_equal. rewrite (Hzero eq_refl). reflexivity.
Defined.

(** X10.  When some candidate is missing, [append_new_headers] raises
    exactly when the update of the sheet raises; the column name never
    fails.  When the update goes through, the whole new header, the old one
    followed by the missing candidates, is written into row 3 from column A
    and one line is logged.  When it raises, the sheet is as before, one
    error is logged and the exception goes on to the caller. *)
Theorem append_new_headers_outcome (current new : list string) (w : world) :
  filter (fun h => h ∉ current) new <> [] ->
  let missing := filter (fun h => h ∉ current) new in
  let updated := current ++ missing in
  exists end_col,
    number_to_column (length updated) = Some end_col /\
    ((next_fault w).1 = false ->
       append_new_headers current new w
       = (Some updated,
          World (set_row 3 (JStr <$> updated) (sheet w)) (next_fault w).2
                (log w ++ [AppendedHeaders missing])
                (updates w ++ [UpdateCall 3 end_col (JStr <$> updated) true]))) /\
    ((next_fault w).1 = true ->
       append_new_headers current new w
       = (None,
          World (sheet w) (next_fault w).2 (log w ++ [FailedAppendHeaders])
                (updates w ++ [UpdateCall 3 end_col (JStr <$> updated) false]))).
Proof.
  intros Hmiss. cbv zeta. unfold append_new_headers.
  destruct (filter (fun h => h ∉ current) new) as [|m ms]; [congruence|].
  assert (Hpos : 0 < length (current ++ m :: ms)) by (rewrite length_app; simpl; lia).
  destruct (number_to_column_pos _ Hpos) as [end_col Hcol].
  exists end_col. split; [exact Hcol|]. rewrite Hcol.
  unfold_monad. destruct (faults w) as [|[] fs]; simpl;
    (split; intros Hf; try discriminate Hf; reflexivity).
Qed.

Lemma append_new_headers_outcome_witness :
  (append_new_headers ["ticker"] ["raw_json"] (world_btc [true])).1 = None /\
  sheet (append_new_headers ["ticker"] ["raw_json"] (world_btc [true])).2 = sheet_btc /\
  sheet (append_new_headers ["ticker"] ["raw_json"] (world_btc [])).2 !! 2
  = Some [JStr "ticker"; JStr "raw_json"].
Proof.
  destruct (append_new_headers_outcome ["ticker"] ["raw_json"] (world_btc [true]))
    as (c1 & _ & _ & Hbad); [discriminate|].
  destruct (append_new_headers_outcome ["ticker"] ["raw_json"] (world_btc []))
    as (c2 & _ & Hok & _); [discriminate|].
  rewrite (Hbad eq_refl), (Hok eq_refl). repeat split.
Defined.

(** X11.  [write_row_by_header_order] raises exactly when there is no
    header or the update of the sheet raises, and then the sheet is as
    before.  With no header nothing is sent and nothing is logged.  With a
    header and a failing update, the failed update is the only one recorded
    and the last line logged is the error for that row. *)
Theorem write_row_failure (headers : list string) (values_map : gmap string json)
    (row_idx : nat) (w : world) :
  ((write_row_by_header_order headers values_map row_idx w).1 = None <->
   headers = [] \/ (next_fault w).1 = true) /\
  ((write_row_by_header_order headers values_map row_idx w).1 = None ->
   sheet (write_row_by_header_order headers values_map row_idx w).2 = sheet w) /\
  (headers = [] -> write_row_by_header_order headers values_map row_idx w = (None, w)) /\
  (headers <> [] -> (next_fault w).1 = true ->
   exists end_col,
     updates (write_row_by_header_order headers values_map row_idx w).2
     = updates w ++ [UpdateCall row_idx end_col (row_value values_map <$> headers) false] /\
     last (log (write_row_by_header_order headers values_map row_idx w).2)
     = Some (FailedWriteRow row_idx) /\
     level_of (FailedWriteRow row_idx) = ERROR).
Proof.
  rewrite write_row_by_header_order_eq. cbv zeta.
  destruct headers as [|h rest].
  - simpl. rewrite add_log_nil. split; [|split; [|split]].
    + split; [intros _; left; reflexivity|reflexivity].
    + reflexivity.
    + reflexivity.
    + congruence.
  - assert (Hpos : 0 < length (h :: rest)) by (simpl; lia).
    destruct (number_to_column_pos _ Hpos) as [end_col Hcol]. rewrite Hcol.
    destruct (next_fault w) as [[] fs]; simpl; (split; [|split; [|split]]).
    + split; [intros _; right; reflexivity|reflexivity].
    + reflexivity.
    + discriminate.
    + intros _ _. exists end_col. split; [reflexivity|]. split; [apply last_snoc|reflexivity].
    + split; [discriminate|]. intros [H|H]; discriminate H.
    + discriminate.
    + discriminate.
    + intros _ H. discriminate H.
Qed.

Lemma write_row_failure_witness :
  write_row_by_header_order [] vm_eth 4 (world_btc []) = (None, world_btc []) /\
  sheet (write_row_by_header_order ["ticker"] vm_eth 4 (world_btc [true])).2 = sheet_btc.
Proof.
  split.
  - apply (proj1 (proj2 (proj2 (write_row_failure [] vm_eth 4 (world_btc []))))).
    reflexivity.
  - apply (proj1 (proj2 (write_row_failure ["ticker"] vm_eth 4 (world_btc [true])))).
    apply (proj1 (write_row_failure ["ticker"] vm_eth 4 (world_btc [true]))).
    right. reflexivity.
Defined.

(** ** The identity column after a write *)

Lemma set_row_at (r : nat) (values : list json) (sh : list (list json)) :
  1 <= r ->
  set_row r values sh !! (r - 1)
  = Some (values ++ drop (length values) (default [] (sh !! (r - 1)))).
Proof.
  intros Hr. unfold set_row.
  destruct (decide (r <= length sh)) as [Hin|Hout].
  - destruct (lookup_lt_is_Some_2 sh (r - 1) ltac:(lia)) as [old Hold].
    rewrite lookup_app_l by lia. rewrite Hold.
    apply list_lookup_insert_eq. rewrite length_app. lia.
  - rewrite (lookup_ge_None_2 sh) by lia.
    rewrite lookup_app_r by lia. rewrite lookup_replicate_2 by lia.
    apply list_lookup_insert_eq. rewrite length_app, length_replicate. lia.
Qed.

Lemma set_row_length (r : nat) (values : list json) (sh : list (list json)) :
  length (set_row r values sh) = Nat.max r (length sh).
Proof.
  unfold set_row.
  destruct ((sh ++ replicate (r - length sh) []) !! (r - 1));
    rewrite ?length_insert, length_app, length_replicate; lia.
Qed.

(** Inside its length, column A as read is the first cell of each row. *)
Lemma col_a_lookup (sh : list (list json)) (k : nat) :
  k < length (col_a sh) -> col_a sh !! k = first_cell_text <$> (sh !! k).
Proof.
  intros Hk. destruct (col_a_split sh) as [n Hn].
  rewrite <- list_lookup_fmap.
  change (first_cell_text <$> sh) with (List.map first_cell_text sh).
  rewrite Hn, lookup_app_l by exact Hk. reflexivity.
Qed.

(** A row written with a filled first cell shows that cell in column A. *)
Lemma col_a_set_row_target (r : nat) (c : json) (rest : list json)
    (sh : list (list json)) :
  1 <= r -> cell_text c <> "" ->
  col_a (set_row r (c :: rest) sh) !! (r - 1) = Some (cell_text c).
Proof.
  intros Hr Hc.
  pose proof (set_row_at r (c :: rest) sh Hr) as Hat.
  rewrite col_a_lookup.
  - rewrite Hat. reflexivity.
  - eapply col_a_below_empty; [exact Hat|exact Hc].
Qed.

(** The cells of column A above the row written are as before. *)
Lemma col_a_set_row_before (r : nat) (c : json) (rest : list json)
    (sh : list (list json)) (k : nat) :
  k < r - 1 -> k < length (col_a sh) -> cell_text c <> "" ->
  col_a (set_row r (c :: rest) sh) !! k = col_a sh !! k.
Proof.
  intros Hk Hlen Hc.
  pose proof (set_row_at r (c :: rest) sh ltac:(lia)) as Hat.
  assert (Hnew : r - 1 < length (col_a (set_row r (c :: rest) sh))).
  { eapply col_a_below_empty; [exact Hat|exact Hc]. }
  pose proof (col_a_length sh).
  rewrite !col_a_lookup by lia. rewrite set_row_other by lia. reflexivity.
Qed.

(** One upsert while no store call fails. *)
Lemma upsert_fault_free (headers : list string) (values_map : gmap string json)
    (j : json) (t : string) (w : world) :
  headers <> [] -> faults w = [] ->
  exists end_col lg,
    upsert headers values_map j t w
    = (Some (),
       World (set_row (target_row (scan_from 4 (drop 3 (col_a (sheet w))) t) (sheet w))
                (first_cells headers values_map (scan_from 4 (drop 3 (col_a (sheet w))) t))
                (sheet w))
             [] lg
             (updates w ++
                [UpdateCall (target_row (scan_from 4 (drop 3 (col_a (sheet w))) t) (sheet w))
                   end_col
                   (first_cells headers values_map (scan_from 4 (drop 3 (col_a (sheet w))) t))
                   true])).
Proof.
  intros Hne Hf.
  assert (Hpos : 0 < length headers) by (destruct headers; [congruence|simpl; lia]).
  destruct (number_to_column_pos _ Hpos) as [c Hc].
  destruct w as [sh fs lg us]. simpl in Hf. subst fs. exists c.
  unfold upsert. unfold mbind at 1, M_bind, bind. rewrite find_row_for_ticker_eq.
  simpl. unfold try_catch at 1.
  destruct (scan_from 4 (drop 3 (col_a sh)) t) as [r|]; simpl.
  - unfold mbind at 1, M_bind, bind. rewrite write_row_by_header_order_eq.
    cbv zeta. rewrite Hc. simpl. eexists. reflexivity.
  - unfold mbind at 1, M_bind, bind. rewrite next_free_row_eq. simpl.
    unfold mbind at 1, M_bind, bind. rewrite for_each_append_cell.
    rewrite length_fmap, Hc. simpl. eexists. reflexivity.
Qed.

(** One upsert when the read of the identity column fails and the two
    calls after it go through. *)
Lemma upsert_failed_read (headers : list string) (values_map : gmap string json)
    (j : json) (t : string) (w : world) (fs : list bool) :
  headers <> [] -> faults w = true :: false :: false :: fs ->
  exists end_col lg,
    upsert headers values_map j t w
    = (Some (),
       World (set_row (free_row (sheet w)) (fallback_cell values_map <$> headers) (sheet w))
             fs lg
             (updates w ++
                [UpdateCall (free_row (sheet w)) end_col
                   (fallback_cell values_map <$> headers) true])).
Proof.
  intros Hne Hf.
  assert (Hpos : 0 < length headers) by (destruct headers; [congruence|simpl; lia]).
  destruct (number_to_column_pos _ Hpos) as [c Hc].
  destruct w as [sh fs0 lg us]. simpl in Hf. subst fs0. exists c.
  unfold upsert. unfold mbind at 1, M_bind, bind. rewrite find_row_for_ticker_eq.
  simpl. unfold try_catch at 1. simpl.
  unfold mbind at 1, M_bind, bind. rewrite next_free_row_eq. simpl.
  unfold mbind at 1, M_bind, bind. rewrite for_each_append_cell.
  rewrite length_fmap, Hc. simpl. eexists. reflexivity.
Qed.

(** X12.  When the read of the identity column fails and the calls after
    it go through, the upsert takes the ticker for a new one: it writes the
    row below the last filled row, whether or not the sheet already has a
    row for the ticker, and no other row is sent. *)
Theorem failed_read_appends_row (headers : list string) (values_map : gmap string json)
    (j : json) (t : string) (w : world) (fs : list bool) :
  headers <> [] -> faults w = true :: false :: false :: fs ->
  (find_row_for_ticker t 4 w).1 = Some None /\
  sheet (upsert headers values_map j t w).2
  = set_row (free_row (sheet w)) (fallback_cell values_map <$> headers) (sheet w) /\
  exists end_col,
    updates (upsert headers values_map j t w).2
    = updates w ++ [UpdateCall (free_row (sheet w)) end_col
                      (fallback_cell values_map <$> headers) true].
Proof.
  intros Hne Hf. split.
  - rewrite find_row_for_ticker_eq. unfold next_fault. rewrite Hf. reflexivity.
  - destruct (upsert_failed_read headers values_map j t w fs Hne Hf) as (c & lg & ->).
    split; [reflexivity|]. exists c. reflexivity.
Qed.

Lemma failed_read_appends_row_witness :
  (find_row_for_ticker "BTC" 4 (world_btc [])).1 = Some (Some 4) /\
  sheet (upsert ["ticker"; "asset_price"] vm_btc JNull "BTC"
           (world_btc [true; false; false])).2
  = sheet_btc ++ [[JStr "BTC"; JStr "65000"]].
Proof.
  split; [reflexivity|].
  rewrite (proj1 (proj2 (failed_read_appends_row ["ticker"; "asset_price"] vm_btc JNull
                           "BTC" (world_btc [true; false; false]) []
                           ltac:(discriminate) eq_refl))).
  vm_compute. reflexivity.
Defined.

Lemma same_ticker_refl (t : string) : same_ticker t t = true.
Proof. unfold same_ticker. apply bool_decide_eq_true_2. reflexivity. Qed.

(** The cells an upsert sends begin with the ticker when the first header
    is ticker and the map holds the ticker as a text that fits a cell. *)
Lemma first_cells_ticker (rest : list string) (values_map : gmap string json)
    (t : string) (row_idx : option nat) :
  values_map !! "ticker" = Some (JStr t) -> is_too_large t = false ->
  exists cells, first_cells ("ticker" :: rest) values_map row_idx = JStr t :: cells.
Proof.
  intros Hvm Hfit. destruct row_idx as [r|]; simpl.
  - eexists. unfold row_value at 1. simpl. unfold vm_get. rewrite Hvm. reflexivity.
  - eexists. unfold fallback_cell at 1. unfold vm_get. rewrite Hvm. simpl.
    rewrite Hfit. reflexivity.
Qed.

(** After a write of [t] into the row the upsert targets, the scan finds
    [t] in that row. *)
Lemma scan_after_write (sh : list (list json)) (t : string) (cells : list json) :
  t <> "" ->
  let ri := scan_from 4 (drop 3 (col_a sh)) t in
  scan_from 4 (drop 3 (col_a (set_row (target_row ri sh) (JStr t :: cells) sh))) t
  = Some (target_row ri sh).
Proof.
  intros Ht ri.
  assert (Hc : cell_text (JStr t) <> "") by exact Ht.
  assert (H4 : 4 <= target_row ri sh).
  { unfold target_row. destruct ri as [r|] eqn:Eri.
    - apply scan_in_sheet in Eri. lia.
    - unfold free_row. lia. }
  apply scan_from_Some. exists (target_row ri sh - 4), t.
  split; [lia|]. split; [|split].
  - rewrite lookup_drop. replace (3 + (target_row ri sh - 4)) with (target_row ri sh - 1) by lia.
    apply (col_a_set_row_target _ (JStr t)); [lia|exact Hc].
  - apply same_ticker_refl.
  - intros i' v' Hi' Hv'. rewrite lookup_drop in Hv'.
    destruct ri as [r|] eqn:Eri; simpl in *.
    + apply scan_from_Some in Eri as (i & v & -> & Hi & _ & Hfirst).
      rewrite lookup_drop in Hi. apply lookup_lt_Some in Hi.
      rewrite col_a_set_row_before in Hv' by (lia || exact Hc).
      apply (Hfirst i' v'); [lia|]. rewrite lookup_drop. exact Hv'.
    + unfold free_row in *.
      rewrite col_a_set_row_before in Hv' by (lia || exact Hc).
      eapply scan_from_None; [exact Eri|]. rewrite lookup_drop. exact Hv'.
Qed.

(** X13.  While no store call fails, with ticker as the first header and a
    ticker that is not empty and fits a cell: after the upsert the search
    finds the ticker in the row that was written, at or below row 4, and a
    second upsert of the same ticker, with any values, goes to that row
    and adds no row to the sheet. *)
Theorem upsert_then_find (headers : list string) (values_map : gmap string json)
    (j : json) (t : string) (w : world) :
  head headers = Some "ticker" -> values_map !! "ticker" = Some (JStr t) ->
  t <> "" -> is_too_large t = false -> faults w = [] ->
  exists r w',
    upsert headers values_map j t w = (Some (), w') /\
    (find_row_for_ticker t 4 w').1 = Some (Some r) /\
    4 <= r /\
    col_a (sheet w') !! (r - 1) = Some t /\
    forall values_map2 j2,
      length (sheet (upsert headers values_map2 j2 t w').2) = length (sheet w') /\
      exists us,
        updates (upsert headers values_map2 j2 t w').2 = updates w' ++ us /\
        Forall (fun u => uc_row u = r) us.
Proof.
  intros Hhead Hvm Ht Hfit Hf.
  destruct headers as [|h rest]; [discriminate|]. injection Hhead as ->.
  destruct (upsert_fault_free ("ticker" :: rest) values_map j t w ltac:(discriminate) Hf)
    as (c & lg & Hup).
  destruct (first_cells_ticker rest values_map t
              (scan_from 4 (drop 3 (col_a (sheet w))) t) Hvm Hfit) as [cells Hcells].
  rewrite Hcells in Hup.
  pose proof (scan_after_write (sheet w) t cells Ht) as Hscan. cbv zeta in Hscan.
  eexists _, _. split; [exact Hup|].
  assert (Hfind : (find_row_for_ticker t 4
                     (World (set_row (target_row (scan_from 4 (drop 3 (col_a (sheet w))) t)
                                        (sheet w)) (JStr t :: cells) (sheet w))
                            [] lg
                            (updates w ++
                               [UpdateCall (target_row (scan_from 4 (drop 3 (col_a (sheet w))) t)
                                              (sheet w)) c (JStr t :: cells) true]))).1
                  = Some (Some (target_row (scan_from 4 (drop 3 (col_a (sheet w))) t) (sheet w)))).
  { rewrite find_row_for_ticker_eq. simpl. rewrite Hscan. reflexivity. }
  split; [exact Hfind|].
  pose proof (scan_in_sheet _ _ _ Hscan) as Hin.
  split; [lia|]. split.
  - simpl. apply (col_a_set_row_target _ (JStr t)); [lia|exact Ht].
  - intros values_map2 j2.
    match goal with |- context [upsert _ _ _ _ ?w1] => set (w' := w1) in * end.
    destruct (upsert_outcome ("ticker" :: rest) values_map2 j2 t w') as (ri & Hri & Hpost).
    rewrite Hfind in Hri. injection Hri as <-. simpl in Hpost. split.
    + eapply sheet_length_inside; [exact Hpost|]. subst w'. simpl. lia.
    + destruct (updates_target _ _ _ _ _ _ Hpost) as (us & Hu & _ & Hall).
      exists us. split; assumption.
Qed.

Lemma upsert_then_find_witness :
  exists w',
    upsert ["ticker"; "asset_price"] vm_eth JNull "eth" (world_btc []) = (Some (), w') /\
    (find_row_for_ticker "eth" 4 w').1 = Some (Some 5) /\
    length (sheet (upsert ["ticker"; "asset_price"] vm_btc JNull "eth" w').2) = 5.
Proof.
  destruct (upsert_then_find ["ticker"; "asset_price"] vm_eth JNull "eth" (world_btc [])
              eq_refl eq_refl ltac:(discriminate) eq_refl eq_refl)
    as (r & w' & Hup & Hfind & _ & _ & Hagain).
  exists w'. split; [exact Hup|].
  assert (Hw' : w' = (upsert ["ticker"; "asset_price"] vm_eth JNull "eth" (world_btc [])).2)
    by (rewrite Hup; reflexivity).
  assert (Hr : r = 5).
  { rewrite Hw' in Hfind. vm_compute in Hfind. congruence. }
  subst r. split; [exact Hfind|].
  rewrite (proj1 (Hagain vm_btc JNull)). rewrite Hw'. vm_compute. reflexivity.
Defined.

(** ** The values map of a ticker in [run_once] *)

(** Lines 563-568: the map the builder returns, the empty map when the
    builder raises, with the ticker put in. *)
Definition run_values_map (g : globals) (j : json) (t : string) : gmap string json :=
  <["ticker" := JStr t]>
    (default ∅ (build_values_map_for_ticker g j (change_interval_keys_local g))).

Lemma run_values_map_no_raw_json (g : globals) (j : json) (t : string) :
  run_values_map g j t !! "raw_json" = None.
Proof.
  unfold run_values_map. rewrite lookup_insert_ne by discriminate.
  destruct (build_values_map_for_ticker g j (change_interval_keys_local g)) as [m|] eqn:Hm;
    [|apply lookup_empty].
  destruct j as [| | | | | |top]; [discriminate..|]. simpl.
  apply eq_None_not_Some. intros H.
  apply (build_values_map_is_Some g top _ m "raw_json" Hm) in H.
  revert H. apply builder_keys_not. right. left.
Qed.

Lemma first_cells_without_raw_json (headers : list string) (values_map : gmap string json)
    (row_idx : option nat) (k : nat) :
  values_map !! "raw_json" = None -> headers !! k = Some "raw_json" ->
  first_cells headers values_map row_idx !! k = Some (JStr "").
Proof.
  intros Hvm Hk.
  assert (Hget : vm_get values_map "raw_json" = JStr "").
  { unfold vm_get. rewrite Hvm. reflexivity. }
  destruct row_idx as [r|]; simpl; rewrite list_lookup_fmap, Hk; simpl; f_equal.
  - unfold row_value. rewrite bool_decide_eq_false_2 by discriminate.
    rewrite Hget. reflexivity.
  - unfold fallback_cell. rewrite Hget. reflexivity.
Qed.

(** X14.  The values map of a ticker has no raw_json entry, whatever the
    document, so the first write attempt for a ticker sends the raw_json
    column empty: the text of the document reaches the sheet only through
    the second attempt, after a first one that failed. *)
Theorem first_write_leaves_raw_json_empty (g : globals) (j : json) (t : string)
    (headers : list string) (row_idx : option nat) (w : world) (k : nat) :
  headers !! k = Some "raw_json" ->
  run_values_map g j t !! "raw_json" = None /\
  exists us,
    updates (first_attempt headers (run_values_map g j t) t row_idx w).2 = updates w ++ us /\
    length us <= 1 /\
    Forall (fun u => uc_values u !! k = Some (JStr "")) us.
Proof.
  intros Hk. split; [apply run_values_map_no_raw_json|].
  pose proof (first_cells_without_raw_json headers (run_values_map g j t) row_idx k
                (run_values_map_no_raw_json g j t) Hk) as Hcell.
  destruct (first_attempt_post headers (run_values_map g j t) t row_idx w)
    as [(_ & _ & [Hu|[c Hu]])|(_ & _ & c & Hu)].
  - exists []. rewrite app_nil_r. split; [exact Hu|]. split; [simpl; lia|constructor].
  - eexists. split; [exact Hu|]. split; [simpl; lia|]. repeat constructor. exact Hcell.
  - eexists. split; [exact Hu|]. split; [simpl; lia|]. repeat constructor. exact Hcell.
Qed.

Lemma first_write_leaves_raw_json_empty_witness :
  updates (first_attempt ["ticker"; "raw_json"] (run_values_map (Globals []) doc_btc "BTC")
             "BTC" (Some 4) (world_btc [])).2
  = [UpdateCall 4 "B" [JStr "BTC"; JStr ""] true].
Proof.
  destruct (first_write_leaves_raw_json_empty (Globals []) doc_btc "BTC"
              ["ticker"; "raw_json"] (Some 4) (world_btc []) 1 eq_refl)
    as (_ & us & Hu & _ & _).
  rewrite Hu. vm_compute in Hu. vm_compute. rewrite <- Hu. reflexivity.
Defined.

(** * One pass of [run_once] over the tickers *)

(** ** Module-level state and the lines of [run_once] *)

(** The lines [run_once] and [read_existing_headers] log besides those of
    the row write. *)
Inductive run_event : Type :=
  | CouldNotReadHeaders
  | NoTickersFound
  | TickersToProcess (tickers : list string)
  | WroteInitialHeaders (n : nat)
  | FailedInitialHeaders
  | FetchingJson (idx total : nat) (t : string)
  | NoJson (t : string)
  | AlreadyExists (t : string) (row_idx : nat)
  | MinimalRowAppended (idx : nat)
  | FailedMinimalRow (t : string)
  | DiscoveredKeys (t : string) (new_to_add : list string)
  | FailedBuildValuesMap (t : string)
  | RunComplete.

Definition run_level_of (e : run_event) : level :=
  match e with
  | TickersToProcess _ | WroteInitialHeaders _ | FetchingJson _ _ _
  | AlreadyExists _ _ | MinimalRowAppended _ | DiscoveredKeys _ _ | RunComplete => INFO
  | CouldNotReadHeaders | NoTickersFound | NoJson _ => WARNING
  | FailedInitialHeaders | FailedMinimalRow _ | FailedBuildValuesMap _ => ERROR
  end.

(** The data worksheet with its remote calls, the module-level list, and
    the lines above, each with the number of lines the world's own log held
    when it was written, which fixes its place among them. *)
Record run_state : Type := RunState {
  data_ws : world;
  module_globals : globals;
  run_log : list (nat * run_event)
}.

Definition R (A : Type) : Type := run_state -> option A * run_state.

Definition retR {A : Type} (a : A) : R A := fun s => (Some a, s).

Definition raiseR {A : Type} : R A := fun s => (None, s).

Definition bindR {A B : Type} (c : R A) (k : A -> R B) : R B :=
  fun s => match c s with
           | (Some a, s') => k a s'
           | (None, s') => (None, s')
           end.

Definition try_catchR {A : Type} (body handler : R A) : R A :=
  fun s => match body s with
           | (Some a, s') => (Some a, s')
           | (None, s') => handler s'
           end.

Global Instance R_ret : MRet R := @retR.
Global Instance R_bind : MBind R := fun A B k c => bindR c k.

(** A call on the data worksheet. *)
Definition lift {A : Type} (c : M A) : R A :=
  fun s => let '(a, w') := c (data_ws s) in
           (a, RunState w' (module_globals s) (run_log s)).

Definition note (e : run_event) : R unit :=
  fun s => (Some (), RunState (data_ws s) (module_globals s)
                              (run_log s ++ [(length (log (data_ws s)), e)])).

Definition get_globals : R globals := fun s => (Some (module_globals s), s).

(** [change_interval_keys_local.extend(new_to_add)]. *)
Definition extend_change_interval_keys (new_to_add : list string) : R unit :=
  fun s => (Some (),
            RunState (data_ws s)
                     (Globals (change_interval_keys_local (module_globals s) ++ new_to_add))
                     (run_log s)).

(** ** Reading the sheet *)

(** [ws.row_values(r)]: the cells of row [r] up to its last filled one. *)
Definition row_texts (sh : list (list json)) (r : nat) : list string :=
  rev (drop_leading_empty (rev (cell_text <$> default [] (sh !! (r - 1))))).

Definition ws_row_values (r : nat) : M (list string) :=
  fun w =>
    let '(f, fs) := next_fault w in
    let w' := World (sheet w) fs (log w) (updates w) in
    if f then (None, w') else (Some (row_texts (sheet w) r), w').

Definition read_existing_headers : R (list string) :=
  try_catchR (lift (ws_row_values 3)) (note CouldNotReadHeaders;; mret []).

(** Line 494: the tickers of the ticker sheet's first column, header cell
    left out. *)
Definition tickers_of (raw_tickers : list string) : list string :=
  strip <$> filter (fun t => strip t <> "") (drop 1 raw_tickers).

(** [list(ci.keys())] for the dict under data.change_intervals, in
    insertion order.  The keys of a dict are distinct; a statement that
    needs this says so. *)
Definition gather_change_interval_keys_from_json (j : json) : list string :=
  match get_nested j ["data"; "change_intervals"] (JObj []) with
  | JObj ci => fst <$> ci
  | _ => []
  end.

(** ** The steps of the run *)

(** Lines 501-519.  [None] is the early [return] after a failed write of
    the initial header. *)
Definition setup_headers : R (option (list string)) :=
  existing_headers ← read_existing_headers;
  match existing_headers with
  | [] =>
      let headers := initial_headers in
      try_catchR
        (match number_to_column (length headers) with
         | None => raiseR
         | Some end_col =>
             lift (ws_update_row 3 end_col (JStr <$> headers));;
             note (WroteInitialHeaders (length headers));;
             mret (Some headers)
         end)
        (note FailedInitialHeaders;; mret None)
  | _ :: _ =>
      if bool_decide ("raw_json" ∈ existing_headers) then mret (Some existing_headers)
      else
        headers ← lift (append_new_headers existing_headers ["raw_json"]);
        mret (Some headers)
  end.

(** Lines 526-537: no document for the ticker.  [if row_idx:] holds for a
    row number other than 0. *)
Definition minimal_row (headers : list string) (idx : nat) (t : string) : R unit :=
  note (NoJson t);;
  row_idx ← lift (find_row_for_ticker t 4);
  match row_idx with
  | Some (S n) => note (AlreadyExists t (S n))
  | _ =>
      append_row_idx ← lift next_free_row;
      try_catchR
        (match number_to_column (length headers) with
         | None => raiseR
         | Some end_col =>
             lift (ws_update_row append_row_idx end_col
                     (JStr t :: replicate (length headers - 1) (JStr "")));;
             note (MinimalRowAppended idx)
         end)
        (note (FailedMinimalRow t))
  end.

(** The metric columns the header does not have yet (lines 550 and 554). *)
Definition needed_metric_headers (headers : list string) : list string :=
  filter (fun h => h ∉ headers) ((fun k => "metric_trends_" +:+ k) <$> METRIC_TRENDS_KEYS).

(** Lines 540-560: keys of the document not seen before go into the
    module-level list and get a column; the metric columns and raw_json are
    added when missing. *)
Definition discover_headers (headers : list string) (t : string) (j : json)
    : R (list string) :=
  let new_ci_keys := gather_change_interval_keys_from_json j in
  g ← get_globals;
  let new_to_add := filter (fun k => k ∉ change_interval_keys_local g) new_ci_keys in
  headers ←
    match new_to_add with
    | _ :: _ =>
        note (DiscoveredKeys t new_to_add);;
        extend_change_interval_keys new_to_add;;
        let new_change_interval_headers :=
          (fun k => "change_intervals_" +:+ k) <$> new_to_add in
        lift (append_new_headers headers
                (needed_metric_headers headers ++ new_change_interval_headers))
    | [] =>
        match needed_metric_headers headers with
        | _ :: _ => lift (append_new_headers headers (needed_metric_headers headers))
        | [] => mret headers
        end
    end;
  if bool_decide ("raw_json" ∈ headers) then mret headers
  else lift (append_new_headers headers ["raw_json"]).

(** Lines 563-568. *)
Definition build_for_run (t : string) (j : json) : R (gmap string json) :=
  g ← get_globals;
  values_map ←
    match build_values_map_for_ticker g j (change_interval_keys_local g) with
    | Some m => mret m
    | None => note (FailedBuildValuesMap t);; mret ∅
    end;
  mret (<["ticker" := JStr t]> values_map).

(** One turn of the loop at line 522; [j] is what [fetch_ticker_json]
    returned for [t], [JNull] when it returned None.  The result is the
    header list in force after the turn. *)
Definition process_ticker (headers : list string) (idx total : nat) (t : string)
    (j : json) : R (list string) :=
  note (FetchingJson idx total t);;
  match j with
  | JNull => minimal_row headers idx t;; mret headers
  | _ =>
      headers ← discover_headers headers t j;
      values_map ← build_for_run t j;
      lift (upsert headers values_map j t);;
      mret headers
  end.

(** The loop at line 522 over the tickers, each with its document. *)
Fixpoint process_tickers (headers : list string) (idx total : nat)
    (items : list (string * json)) : R (list string) :=
  match items with
  | [] => mret headers
  | (t, j) :: rest =>
      headers ← process_ticker headers idx total t j;
      process_tickers headers (S idx) total rest
  end.

(** Lines 495-612, from the ticker list on. *)
Definition run_from_tickers (items : list (string * json)) : R unit :=
  match items with
  | [] => note NoTickersFound
  | _ :: _ =>
      note (TickersToProcess (fst <$> items));;
      setup ← setup_headers;
      match setup with
      | None => mret ()
      | Some headers =>
          process_tickers headers 1 (length items) items;;
          note RunComplete
      end
  end.

Definition state_btc (fs : list bool) (known : list string) : run_state :=
  RunState (world_btc fs) (Globals known) [].

Example process_eth_discovers_key :
  let out := process_ticker ["ticker"; "asset_price"; "raw_json"] 1 1 "eth"
               (JObj [("data", JObj [("change_intervals", JObj [("1h", JInt 3)])]);
                      ("asset", JObj [("price", JInt 3000)])])
               (state_btc [] []) in
  option_map length out.1 = Some 19 /\
  change_interval_keys_local (module_globals out.2) = ["1h"] /\
  (take 3 <$> sheet (data_ws out.2) !! 4) = Some [JStr "eth"; JStr "3000"; JStr ""].
Proof. vm_compute. repeat split. Qed.

(** ** What one turn does to the header list and to the known keys *)

Ltac unfold_run :=
  unfold mbind, R_bind, mret, R_ret, bindR, retR, raiseR, try_catchR, note, lift,
    get_globals, extend_change_interval_keys in *.

Lemma append_new_headers_present (current new : list string) (w : world) :
  (forall h, h ∈ new -> h ∈ current) ->
  append_new_headers current new w = (Some current, w).
Proof.
  intros Hall. unfold append_new_headers.
  rewrite (filter_all_present _ _ Hall). reflexivity.
Qed.

(** The columns one turn asks for: the metric columns still missing, then
    one column for each key of the document that is not known yet. *)
Definition candidates (headers known : list string) (j : json) : list string :=
  needed_metric_headers headers
  ++ ((fun k => "change_intervals_" +:+ k)
        <$> filter (fun k => k ∉ known) (gather_change_interval_keys_from_json j)).

(** The state after the keys of [j] have been recorded. *)
Definition record_keys (t : string) (j : json) (s : run_state) : run_state :=
  match filter (fun k => k ∉ change_interval_keys_local (module_globals s))
               (gather_change_interval_keys_from_json j) with
  | [] => s
  | new_to_add =>
      RunState (data_ws s)
               (Globals (change_interval_keys_local (module_globals s) ++ new_to_add))
               (run_log s ++ [(length (log (data_ws s)), DiscoveredKeys t new_to_add)])
  end.

Lemma record_keys_data_ws (t : string) (j : json) (s : run_state) :
  data_ws (record_keys t j s) = data_ws s.
Proof. unfold record_keys. destruct (filter _ _); reflexivity. Qed.

Lemma record_keys_known (t : string) (j : json) (s : run_state) :
  change_interval_keys_local (module_globals (record_keys t j s))
  = change_interval_keys_local (module_globals s)
    ++ filter (fun k => k ∉ change_interval_keys_local (module_globals s))
              (gather_change_interval_keys_from_json j).
Proof.
  unfold record_keys. destruct (filter _ _); [|reflexivity].
  rewrite app_nil_r. reflexivity.
Qed.

(** [discover_headers] is two reconcile calls, one for the candidates and
    one for raw_json, after the new keys have been recorded. *)
Lemma discover_headers_eq (headers : list string) (t : string) (j : json) (s : run_state) :
  discover_headers headers t j s
  = let s1 := record_keys t j s in
    match append_new_headers headers
            (candidates headers (change_interval_keys_local (module_globals s)) j)
            (data_ws s) with
    | (Some hs1, w1) =>
        let '(r, w2) := append_new_headers hs1 ["raw_json"] w1 in
        (r, RunState w2 (module_globals s1) (run_log s1))
    | (None, w1) => (None, RunState w1 (module_globals s1) (run_log s1))
    end.
Proof.
  assert (Hraw : forall hs1 s2,
    (if bool_decide ("raw_json" ∈ hs1) then mret hs1
     else lift (append_new_headers hs1 ["raw_json"])) s2
    = let '(r, w2) := append_new_headers hs1 ["raw_json"] (data_ws s2) in
      (r, RunState w2 (module_globals s2) (run_log s2))).
  { intros hs1 s2. case_bool_decide as Hin.
    - rewrite append_new_headers_present.
      + destruct s2. reflexivity.
      + intros h Hh. apply list_elem_of_singleton in Hh. subst h. exact Hin.
    - reflexivity. }
  unfold discover_headers, candidates, record_keys. cbv zeta.
  unfold mbind at 1, R_bind, bindR, get_globals.
  destruct (filter (fun k => k ∉ change_interval_keys_local (module_globals s))
                   (gather_change_interval_keys_from_json j)) as [|k ks].
  - rewrite app_nil_r. unfold mbind at 1, R_bind, bindR.
    destruct (needed_metric_headers headers) as [|n ns] eqn:En.
    + rewrite append_new_headers_present by (intros h Hh; apply elem_of_nil in Hh; destruct Hh).
      unfold mret at 1, R_ret, retR. rewrite Hraw. destruct s. reflexivity.
    + unfold lift at 1.
      destruct (append_new_headers headers (n :: ns) (data_ws s)) as [[hs1|] w1].
      * rewrite Hraw. reflexivity.
      * reflexivity.
  - unfold mbind at 1, R_bind, bindR.
    unfold mbind at 1, R_bind, bindR, note at 1.
    unfold mbind at 1, R_bind, bindR, extend_change_interval_keys at 1.
    unfold lift at 1. simpl.
    destruct (append_new_headers headers _ (data_ws s)) as [[hs1|] w1].
    + rewrite Hraw. reflexivity.
    + reflexivity.
Qed.

Lemma build_for_run_eq (t : string) (j : json) (s : run_state) :
  exists lg,
    build_for_run t j s
    = (Some (run_values_map (module_globals s) j t),
       RunState (data_ws s) (module_globals s) lg).
Proof.
  unfold build_for_run, run_values_map. unfold mbind at 1, R_bind, bindR, get_globals.
  destruct (build_values_map_for_ticker (module_globals s) j _) as [m|].
  - exists (run_log s). destruct s. reflexivity.
  - eexists. reflexivity.
Qed.

(** The list in force after the header step of a turn holds every key of
    the turn's document, whether the step returned or raised. *)
Lemma discover_headers_known (headers : list string) (t : string) (j : json)
    (s : run_state) :
  change_interval_keys_local (module_globals (discover_headers headers t j s).2)
  = change_interval_keys_local (module_globals s)
    ++ filter (fun k => k ∉ change_interval_keys_local (module_globals s))
              (gather_change_interval_keys_from_json j).
Proof.
  rewrite discover_headers_eq. cbv zeta.
  destruct (append_new_headers headers _ (data_ws s)) as [[hs1|] w1].
  - destruct (append_new_headers hs1 ["raw_json"] w1) as [r w2]. apply record_keys_known.
  - apply record_keys_known.
Qed.

(** C3.  The list passed to the builder at its call in run_once is the
    accumulated module-level list itself, the one the builder's last loop
    runs over.  With that list passed, the values map holds a
    change_intervals_ entry for every key of the list and for no other key.
    The entry is the value under the key in data.change_intervals of the
    document, copied as it is, and None when the key is missing there, when
    change_intervals is missing, or when it is not an object; two documents
    with the same data.change_intervals give the same entries.  The map the
    call in run_once builds is that map with the ticker added, and by the
    time of the call the list holds every key of the turn's document. *)
Theorem change_interval_columns_follow_passed_list :
  (forall g j change_interval_keys m ck,
      change_interval_keys = change_interval_keys_local g ->
      build_values_map_for_ticker g j change_interval_keys = Some m ->
      m !! ("change_intervals_" +:+ ck)
      = if bool_decide (ck ∈ change_interval_keys)
        then Some (change_interval_entry j ck) else None) /\
  (forall j ci ck v,
      get_nested j ["data"; "change_intervals"] (JObj []) = JObj ci ->
      dict_lookup ck ci = Some v -> change_interval_entry j ck = v) /\
  (forall j ci ck,
      get_nested j ["data"; "change_intervals"] (JObj []) = JObj ci ->
      dict_lookup ck ci = None -> change_interval_entry j ck = JNull) /\
  (forall j ck,
      is_dict (get_nested j ["data"; "change_intervals"] (JObj [])) = false ->
      change_interval_entry j ck = JNull) /\
  (forall top d ck,
      dict_lookup "data" top = Some (JObj d) ->
      dict_lookup "change_intervals" d = None ->
      change_interval_entry (JObj top) ck = JNull) /\
  (forall j1 j2 ck,
      get_nested j1 ["data"; "change_intervals"] (JObj [])
      = get_nested j2 ["data"; "change_intervals"] (JObj []) ->
      change_interval_entry j1 ck = change_interval_entry j2 ck) /\
  (forall t top s,
      exists m,
        build_values_map_for_ticker (module_globals s) (JObj top)
          (change_interval_keys_local (module_globals s)) = Some m /\
        (build_for_run t (JObj top) s).1 = Some (<["ticker" := JStr t]> m) /\
        forall ck,
          (<["ticker" := JStr t]> m) !! ("change_intervals_" +:+ ck)
          = if bool_decide (ck ∈ change_interval_keys_local (module_globals s))
            then Some (change_interval_entry (JObj top) ck) else None) /\
  (forall headers t j s k,
      k ∈ gather_change_interval_keys_from_json j ->
      k ∈ change_interval_keys_local (module_globals (discover_headers headers t j s).2)).
Proof.
  repeat apply conj.
  - intros g j keys m ck -> Hm. apply (build_lookup_change_interval g j _ m ck Hm).
  - intros j ci ck v Hci Hv. unfold change_interval_entry, dict_get. rewrite Hci, Hv. reflexivity.
  - intros j ci ck Hci Hv. unfold change_interval_entry, dict_get. rewrite Hci, Hv. reflexivity.
  - intros j ck Hnd. unfold change_interval_entry.
    destruct (get_nested j _ _); simpl in Hnd; try reflexivity. discriminate.
  - intros top d ck Hd Hci. unfold change_interval_entry. simpl. rewrite Hd, Hci. reflexivity.
  - intros j1 j2 ck Heq. unfold change_interval_entry. rewrite Heq. reflexivity.
  - intros t top s.
    destruct (build_values_map_for_ticker (module_globals s) (JObj top)
                (change_interval_keys_local (module_globals s))) as [m|] eqn:Hm;
      [|discriminate Hm].
    exists m. split; [reflexivity|]. split.
    + destruct (build_for_run_eq t (JObj top) s) as [lg Hrun]. rewrite Hrun.
      unfold run_values_map. rewrite Hm. reflexivity.
    + intros ck. rewrite lookup_insert_ne by discriminate.
      apply (build_lookup_change_interval _ _ _ m ck Hm).
  - intros headers t j s k Hk. rewrite discover_headers_known.
    destruct (decide (k ∈ change_interval_keys_local (module_globals s))) as [Hin|Hout].
    + apply elem_of_app. left. exact Hin.
    + apply elem_of_app. right. apply list_elem_of_filter. split; assumption.
Qed.

Lemma change_interval_columns_follow_passed_list_witness :
  exists m, build_values_map_for_ticker (Globals ["1h"; "24h"; "7d"]) doc_btc
              ["1h"; "24h"; "7d"] = Some m /\
            m !! ("change_intervals_" +:+ "1h") = Some (JInt 3) /\
            m !! ("change_intervals_" +:+ "24h") = Some (JObj [("x", JInt 1)]) /\
            m !! ("change_intervals_" +:+ "7d") = Some JNull /\
            m !! ("change_intervals_" +:+ "30d") = None.
Proof.
  eexists. split; [reflexivity|].
  split; [|split; [|split]].
  - etrans; [apply (proj1 change_interval_columns_follow_passed_list
                      (Globals ["1h"; "24h"; "7d"]) doc_btc ["1h"; "24h"; "7d"] _ "1h");
             reflexivity|].
    vm_compute. reflexivity.
  - etrans; [apply (proj1 change_interval_columns_follow_passed_list
                      (Globals ["1h"; "24h"; "7d"]) doc_btc ["1h"; "24h"; "7d"] _ "24h");
             reflexivity|].
    vm_compute. reflexivity.
  - etrans; [apply (proj1 change_interval_columns_follow_passed_list
                      (Globals ["1h"; "24h"; "7d"]) doc_btc ["1h"; "24h"; "7d"] _ "7d");
             reflexivity|].
    vm_compute. reflexivity.
  - etrans; [apply (proj1 change_interval_columns_follow_passed_list
                      (Globals ["1h"; "24h"; "7d"]) doc_btc ["1h"; "24h"; "7d"] _ "30d");
             reflexivity|].
    vm_compute. reflexivity.
Defined.

Lemma upsert_returns (headers : list string) (values_map : gmap string json)
    (j : json) (t : string) (w : world) :
  (upsert headers values_map j t w).1 = Some ().
Proof.
  destruct (upsert_outcome headers values_map j t w) as (ri & _ & Hres & _). exact Hres.
Qed.

(** One turn on a document, step by step: the keys are recorded, the two
    reconcile calls are made, and when both return the row is written. *)
Lemma process_ticker_doc (headers : list string) (idx total : nat) (t : string)
    (j : json) (s : run_state) :
  j <> JNull ->
  module_globals (process_ticker headers idx total t j s).2
  = module_globals (record_keys t j s) /\
  match append_new_headers headers
          (candidates headers (change_interval_keys_local (module_globals s)) j)
          (data_ws s) with
  | (None, w1) =>
      (process_ticker headers idx total t j s).1 = None /\
      data_ws (process_ticker headers idx total t j s).2 = w1
  | (Some hs1, w1) =>
      match append_new_headers hs1 ["raw_json"] w1 with
      | (None, w2) =>
          (process_ticker headers idx total t j s).1 = None /\
          data_ws (process_ticker headers idx total t j s).2 = w2
      | (Some hs2, w2) =>
          (process_ticker headers idx total t j s).1 = Some hs2 /\
          data_ws (process_ticker headers idx total t j s).2
          = (upsert hs2 (run_values_map (module_globals (record_keys t j s)) j t) j t w2).2
      end
  end.
Proof.
  intros Hj.
  destruct (process_ticker headers idx total t j s) as [r s'] eqn:E. simpl.
  assert (Hbody : process_ticker headers idx total t j s
                  = (headers' ← discover_headers headers t j;
                     values_map ← build_for_run t j;
                     lift (upsert headers' values_map j t);;
                     mret headers')
                      (RunState (data_ws s) (module_globals s)
                         (run_log s ++ [(length (log (data_ws s)), FetchingJson idx total t)]))).
  { destruct j; [congruence|reflexivity..]. }
  rewrite Hbody in E. clear Hbody.
  set (s0 := RunState (data_ws s) (module_globals s)
               (run_log s ++ [(length (log (data_ws s)), FetchingJson idx total t)])) in *.
  assert (Hg : module_globals (record_keys t j s0) = module_globals (record_keys t j s)).
  { unfold record_keys. simpl. destruct (filter _ _); reflexivity. }
  unfold mbind at 1, R_bind, bindR in E. rewrite discover_headers_eq in E. cbv zeta in E.
  change (data_ws s0) with (data_ws s) in E.
  change (module_globals s0) with (module_globals s) in E.
  destruct (append_new_headers headers _ (data_ws s)) as [[hs1|] w1].
  - destruct (append_new_headers hs1 ["raw_json"] w1) as [[hs2|] w2].
    + unfold mbind at 1, R_bind, bindR in E.
      match type of E with context [build_for_run t j ?s2] =>
        destruct (build_for_run_eq t j s2) as [lg Hb]; rewrite Hb in E end.
      cbn [module_globals data_ws] in E. rewrite Hg in E.
      unfold mbind at 1, R_bind, bindR, lift in E. cbn [data_ws] in E.
      pose proof (upsert_returns hs2 (run_values_map (module_globals (record_keys t j s)) j t)
                    j t w2) as Hret.
      destruct (upsert hs2 _ j t w2) as [[[]|] w3]; [|discriminate Hret].
      injection E as <- <-. split; [reflexivity|]. split; reflexivity.
    + injection E as <- <-. split; [exact Hg|]. split; reflexivity.
  - injection E as <- <-. split; [exact Hg|]. split; reflexivity.
Qed.

(** One turn without a document, step by step. *)
Lemma process_ticker_null (headers : list string) (idx total : nat) (t : string)
    (s : run_state) :
  module_globals (process_ticker headers idx total t JNull s).2 = module_globals s /\
  match find_row_for_ticker t 4 (data_ws s) with
  | (Some (Some (S n)), w1) =>
      (process_ticker headers idx total t JNull s).1 = Some headers /\
      data_ws (process_ticker headers idx total t JNull s).2 = w1
  | (_, w1) =>
      match next_free_row w1 with
      | (None, w2) =>
          (process_ticker headers idx total t JNull s).1 = None /\
          data_ws (process_ticker headers idx total t JNull s).2 = w2
      | (Some r, w2) =>
          (process_ticker headers idx total t JNull s).1 = Some headers /\
          data_ws (process_ticker headers idx total t JNull s).2
          = match number_to_column (length headers) with
            | None => w2
            | Some end_col =>
                (ws_update_row r end_col
                   (JStr t :: replicate (length headers - 1) (JStr "")) w2).2
            end
      end
  end.
Proof.
  destruct (process_ticker headers idx total t JNull s) as [res s'] eqn:E. simpl.
  unfold process_ticker in E. unfold mbind at 1, R_bind, bindR, note at 1 in E.
  unfold mbind at 1, R_bind, bindR in E. unfold minimal_row in E.
  unfold mbind at 1, R_bind, bindR, note at 1 in E.
  unfold mbind at 1, R_bind, bindR, lift at 1 in E. cbn [data_ws module_globals run_log] in E.
  assert (Hfind : exists ri w1, find_row_for_ticker t 4 (data_ws s) = (Some ri, w1)).
  { rewrite find_row_for_ticker_eq. destruct (next_fault (data_ws s)) as [[] fs]; eauto. }
  destruct Hfind as (ri & w1 & Hfind). rewrite Hfind in *.
  assert (Happend : forall (s1 : run_state) (res0 : option unit) (s1' : run_state),
    data_ws s1 = w1 -> module_globals s1 = module_globals s ->
    (append_row_idx ← lift next_free_row;
     try_catchR
       (match number_to_column (length headers) with
        | None => raiseR
        | Some end_col =>
            lift (ws_update_row append_row_idx end_col
                    (JStr t :: replicate (length headers - 1) (JStr "")));;
            note (MinimalRowAppended idx)
        end)
       (note (FailedMinimalRow t))) s1 = (res0, s1') ->
    module_globals s1' = module_globals s /\
    match next_free_row w1 with
    | (None, w2) => res0 = None /\ data_ws s1' = w2
    | (Some r, w2) =>
        res0 = Some () /\
        data_ws s1'
        = match number_to_column (length headers) with
          | None => w2
          | Some end_col =>
              (ws_update_row r end_col
                 (JStr t :: replicate (length headers - 1) (JStr "")) w2).2
          end
    end).
  { intros s1 res0 s1' Hw Hg Hrun.
    unfold mbind at 1, R_bind, bindR, lift at 1 in Hrun. rewrite Hw in Hrun.
    destruct (next_free_row w1) as [[r|] w2].
    - unfold try_catchR in Hrun.
      destruct (number_to_column (length headers)) as [c|].
      + unfold mbind at 1, R_bind, bindR, lift at 1 in Hrun. cbn [data_ws] in Hrun.
        destruct (ws_update_row r c _ w2) as [[[]|] w3] eqn:Hup.
        * unfold note in Hrun. injection Hrun as <- <-. simpl. auto.
        * unfold note in Hrun. injection Hrun as <- <-. simpl. auto.
      + unfold raiseR, note in Hrun. injection Hrun as <- <-. simpl. auto.
    - injection Hrun as <- <-. simpl. auto. }
  destruct ri as [[|n]|].
  - match type of E with
    | match ?c ?s1 with _ => _ end = _ =>
        destruct (c s1) as [res0 s1'] eqn:Hrun;
        destruct (Happend s1 res0 s1' eq_refl eq_refl Hrun) as [Hg Hcase]
    end.
    destruct (next_free_row w1) as [[r|] w2]; destruct Hcase as [-> Hd];
      injection E as <- <-; auto.
  - unfold note in E. injection E as <- <-. simpl. auto.
  - match type of E with
    | match ?c ?s1 with _ => _ end = _ =>
        destruct (c s1) as [res0 s1'] eqn:Hrun;
        destruct (Happend s1 res0 s1' eq_refl eq_refl Hrun) as [Hg Hcase]
    end.
    destruct (next_free_row w1) as [[r|] w2]; destruct Hcase as [-> Hd];
      injection E as <- <-; auto.
Qed.

Lemma json_null_or_not (j : json) : j = JNull \/ j <> JNull.
Proof. destruct j; [left; reflexivity|right; discriminate..]. Qed.

(** X15.  After a turn of the loop, whether it returned or raised and
    whatever the store did, the module-level list is the list as it was
    followed by the keys of the document's data.change_intervals that were
    not in it, in the document's order: the list only grows, it holds every
    key of the document, and it stays free of duplicates when it was and
    the keys of the document are distinct. *)
Theorem known_keys_only_grow (headers : list string) (idx total : nat) (t : string)
    (j : json) (s : run_state) :
  change_interval_keys_local (module_globals (process_ticker headers idx total t j s).2)
  = change_interval_keys_local (module_globals s)
    ++ filter (fun k => k ∉ change_interval_keys_local (module_globals s))
              (gather_change_interval_keys_from_json j) /\
  (forall k, k ∈ gather_change_interval_keys_from_json j ->
     k ∈ change_interval_keys_local
           (module_globals (process_ticker headers idx total t j s).2)) /\
  (NoDup (change_interval_keys_local (module_globals s)) ->
   NoDup (gather_change_interval_keys_from_json j) ->
   NoDup (change_interval_keys_local
            (module_globals (process_ticker headers idx total t j s).2))).
Proof.
  assert (Hknown :
    change_interval_keys_local (module_globals (process_ticker headers idx total t j s).2)
    = change_interval_keys_local (module_globals s)
      ++ filter (fun k => k ∉ change_interval_keys_local (module_globals s))
                (gather_change_interval_keys_from_json j)).
  { destruct (json_null_or_not j) as [->|Hj].
    - rewrite (proj1 (process_ticker_null headers idx total t s)).
      simpl. rewrite app_nil_r. reflexivity.
    - rewrite (proj1 (process_ticker_doc headers idx total t j s Hj)).
      apply record_keys_known. }
  split; [exact Hknown|]. rewrite Hknown. split.
  - intros k Hk. apply (append_new_headers_covers _ _ k Hk).
  - intros Hnd Hj. apply append_keeps_nodup; assumption.
Qed.

Lemma known_keys_only_grow_witness :
  change_interval_keys_local
    (module_globals
       (process_ticker ["ticker"] 1 1 "BTC" doc_btc (state_btc [true] ["24h"])).2)
  = ["24h"; "1h"].
Proof.
  rewrite (proj1 (known_keys_only_grow ["ticker"] 1 1 "BTC" doc_btc (state_btc [true] ["24h"]))).
  vm_compute. reflexivity.
Defined.

(** The header list a turn returns. *)
Lemma process_ticker_headers (headers : list string) (idx total : nat) (t : string)
    (j : json) (s : run_state) (headers' : list string) :
  (process_ticker headers idx total t j s).1 = Some headers' ->
  (j = JNull /\ headers' = headers) \/
  (j <> JNull /\
   exists hs1,
     hs1 = headers ++ filter (fun h => h ∉ headers)
                        (candidates headers (change_interval_keys_local (module_globals s)) j) /\
     headers' = hs1 ++ filter (fun h => h ∉ hs1) ["raw_json"]).
Proof.
  intros Hret. destruct (json_null_or_not j) as [->|Hj].
  - left. split; [reflexivity|].
    pose proof (proj2 (process_ticker_null headers idx total t s)) as H.
    destruct (find_row_for_ticker t 4 (data_ws s)) as [[[[|n]|]|] w1];
      try (destruct (next_free_row w1) as [[r|] w2]);
      destruct H as [H _]; rewrite H in Hret; congruence.
  - right. split; [exact Hj|].
    pose proof (proj2 (process_ticker_doc headers idx total t j s Hj)) as H.
    destruct (append_new_headers headers _ (data_ws s)) as [[hs1|] w1] eqn:E1;
      [|destruct H as [H _]; rewrite H in Hret; discriminate].
    destruct (append_new_headers hs1 ["raw_json"] w1) as [[hs2|] w2] eqn:E2;
      [|destruct H as [H _]; rewrite H in Hret; discriminate].
    destruct H as [H _]. rewrite H in Hret. injection Hret as <-.
    apply append_new_headers_result in E1, E2. exists hs1. split; assumption.
Qed.

Lemma metric_header_not_change_interval (k k' : string) :
  "metric_trends_" +:+ k <> "change_intervals_" +:+ k'.
Proof. discriminate. Qed.

Lemma candidates_nodup (headers known : list string) (j : json) :
  NoDup (gather_change_interval_keys_from_json j) -> NoDup (candidates headers known j).
Proof.
  intros Hj. unfold candidates. apply NoDup_app. split; [|split].
  - unfold needed_metric_headers. apply NoDup_filter.
    apply (bool_decide_unpack _). vm_compute. exact I.
  - intros x Hx Hx'. unfold needed_metric_headers in Hx.
    apply list_elem_of_filter in Hx as [_ Hx].
    apply list_elem_of_fmap in Hx as (k & -> & _).
    apply list_elem_of_fmap in Hx' as (k' & Heq & _).
    exact (metric_header_not_change_interval k k' Heq).
  - apply NoDup_fmap_2; [|apply NoDup_filter, Hj].
    intros a b Hab. exact (append_inj_r _ _ _ Hab).
Qed.

(** X16.  The header list a turn returns begins with the list it was
    given.  For a turn without a document it is that list.  For a turn on a
    document it has raw_json, every metric_trends_ column, and a
    change_intervals_ column for every key of the document that was not
    known before the turn. *)
Theorem turn_extends_headers (headers : list string) (idx total : nat) (t : string)
    (j : json) (s : run_state) (headers' : list string) :
  (process_ticker headers idx total t j s).1 = Some headers' ->
  headers `prefix_of` headers' /\
  (j = JNull -> headers' = headers) /\
  (j <> JNull ->
   "raw_json" ∈ headers' /\
   (forall k, k ∈ METRIC_TRENDS_KEYS -> "metric_trends_" +:+ k ∈ headers') /\
   (forall k, k ∈ gather_change_interval_keys_from_json j ->
              k ∉ change_interval_keys_local (module_globals s) ->
              "change_intervals_" +:+ k ∈ headers')).
Proof.
  intros Hret.
  destruct (process_ticker_headers _ _ _ _ _ _ _ Hret) as [[-> ->]|(Hj & hs1 & Hhs1 & ->)].
  - split; [reflexivity|]. split; [reflexivity|congruence].
  - assert (Hpre : headers `prefix_of` hs1) by (subst hs1; apply prefix_app_r; reflexivity).
    split; [etrans; [exact Hpre|apply prefix_app_r; reflexivity]|].
    split; [congruence|]. intros _. split; [|split].
    + apply append_new_headers_covers. left.
    + intros k Hk. apply elem_of_app. left. subst hs1.
      destruct (decide ("metric_trends_" +:+ k ∈ headers)) as [Hin|Hout].
      * apply elem_of_app. left. exact Hin.
      * apply append_new_headers_covers. unfold candidates. apply elem_of_app. left.
        unfold needed_metric_headers. apply list_elem_of_filter. split; [exact Hout|].
        apply list_elem_of_fmap. exists k. split; [reflexivity|exact Hk].
    + intros k Hk Hnew. apply elem_of_app. left. subst hs1.
      apply append_new_headers_covers. unfold candidates. apply elem_of_app. right.
      apply list_elem_of_fmap. exists k. split; [reflexivity|].
      apply list_elem_of_filter. split; assumption.
Qed.

Lemma turn_extends_headers_witness :
  exists headers',
    (process_ticker ["ticker"] 1 1 "BTC" doc_btc (state_btc [] ["24h"])).1 = Some headers' /\
    ["ticker"] `prefix_of` headers' /\
    "raw_json" ∈ headers' /\ "change_intervals_1h" ∈ headers'.
Proof.
  destruct (process_ticker ["ticker"] 1 1 "BTC" doc_btc (state_btc [] ["24h"])).1
    as [headers'|] eqn:E; [|vm_compute in E; discriminate E].
  exists headers'. split; [reflexivity|].
  destruct (turn_extends_headers ["ticker"] 1 1 "BTC" doc_btc (state_btc [] ["24h"])
              headers' E) as (Hpre & _ & Hdoc).
  destruct (Hdoc ltac:(discriminate)) as (Hraw & _ & Hci).
  split; [exact Hpre|]. split; [exact Hraw|].
  apply (Hci "1h").
  - vm_compute. left.
  - intros H. apply list_elem_of_singleton in H. discriminate H.
Defined.

(** X17.  A turn never puts a column into the header list twice: when
    the list it is given has no duplicates and the keys of the document are
    distinct, as the keys of a dict are, the list it returns has none. *)
Theorem turn_keeps_headers_distinct (headers : list string) (idx total : nat) (t : string)
    (j : json) (s : run_state) (headers' : list string) :
  NoDup headers -> NoDup (gather_change_interval_keys_from_json j) ->
  (process_ticker headers idx total t j s).1 = Some headers' ->
  NoDup headers'.
Proof.
  intros Hnd Hj Hret.
  destruct (process_ticker_headers _ _ _ _ _ _ _ Hret) as [[_ ->]|(_ & hs1 & Hhs1 & ->)];
    [exact Hnd|].
  apply append_keeps_nodup.
  - subst hs1. apply append_keeps_nodup; [exact Hnd|]. apply candidates_nodup, Hj.
  - apply NoDup_singleton.
Qed.

Lemma turn_keeps_headers_distinct_witness :
  exists headers',
    (process_ticker ["ticker"] 1 1 "BTC" doc_btc (state_btc [] [])).1 = Some headers' /\
    NoDup headers'.
Proof.
  destruct (process_ticker ["ticker"] 1 1 "BTC" doc_btc (state_btc [] [])).1
    as [headers'|] eqn:E; [|vm_compute in E; discriminate E].
  exists headers'. split; [reflexivity|].
  apply (turn_keeps_headers_distinct ["ticker"] 1 1 "BTC" doc_btc (state_btc [] []) headers');
    [apply NoDup_singleton| |exact E].
  apply (bool_decide_unpack _). vm_compute. exact I.
Defined.

(** ** Turns that leave the header alone, and turns that fail *)

Lemma set_row_default_other (r : nat) (values : list json) (sh : list (list json))
    (k : nat) :
  k <> r - 1 -> default [] (set_row r values sh !! k) = default [] (sh !! k).
Proof.
  intros Hk. destruct (decide (k < length sh)) as [Hin|Hout].
  - rewrite set_row_other by assumption. reflexivity.
  - rewrite (lookup_ge_None_2 sh) by lia. unfold set_row.
    assert (Hpad : default [] ((sh ++ replicate (r - length sh) []) !! k) = []).
    { rewrite lookup_app_r by lia.
      destruct (replicate (r - length sh) [] !! (k - length sh)) as [x|] eqn:E;
        [|reflexivity].
      apply lookup_replicate_1 in E as [-> _]. reflexivity. }
    destruct ((sh ++ replicate (r - length sh) []) !! (r - 1)).
    + rewrite list_lookup_insert_ne by lia. exact Hpad.
    + exact Hpad.
Qed.

Lemma row_texts_set_row (r : nat) (values : list json) (sh : list (list json)) (k : nat) :
  k <> r -> 1 <= k -> 1 <= r -> row_texts (set_row r values sh) k = row_texts sh k.
Proof.
  intros Hk H1 Hr. unfold row_texts. rewrite set_row_default_other by lia. reflexivity.
Qed.

Lemma target_row_ge_4 (t : string) (w : world) (row_idx : option nat) :
  (find_row_for_ticker t 4 w).1 = Some row_idx -> 4 <= target_row row_idx (sheet w).
Proof.
  intros Hfind. destruct row_idx as [r|]; simpl.
  - apply find_result in Hfind as [_ Hscan]. apply scan_in_sheet in Hscan. lia.
  - unfold free_row. lia.
Qed.

(** One upsert sends at most two updates, to rows from 4 on, and leaves
    every row above row 4 as it reads. *)
Lemma upsert_below_header (headers : list string) (values_map : gmap string json)
    (j : json) (t : string) (w : world) :
  (forall k, 1 <= k < 4 ->
     row_texts (sheet (upsert headers values_map j t w).2) k = row_texts (sheet w) k) /\
  exists us,
    updates (upsert headers values_map j t w).2 = updates w ++ us /\
    length us <= 2 /\
    Forall (fun u => 4 <= uc_row u) us.
Proof.
  destruct (upsert_outcome headers values_map j t w) as (ri & Hri & Hpost).
  pose proof (target_row_ge_4 t w ri Hri) as H4. split.
  - intros k Hk.
    destruct Hpost as (_ & [(Hs & _)|[(Hs & _)|(Hs & _)]]); rewrite Hs;
      [apply row_texts_set_row; lia|apply row_texts_set_row; lia|reflexivity].
  - destruct (updates_target _ _ _ _ _ _ Hpost) as (us & Hu & Hlen & Hall).
    exists us. split; [exact Hu|]. split; [exact Hlen|].
    eapply Forall_impl; [exact Hall|]. intros u Hu'. simpl in Hu'. lia.
Qed.

Lemma needed_metric_headers_none (headers : list string) :
  (forall k, k ∈ METRIC_TRENDS_KEYS -> "metric_trends_" +:+ k ∈ headers) ->
  needed_metric_headers headers = [].
Proof.
  intros Hall. unfold needed_metric_headers. apply filter_all_present.
  intros h Hh. apply list_elem_of_fmap in Hh as (k & -> & Hk). apply Hall, Hk.
Qed.

(** X18.  A turn on a document that brings no new key, with a header
    list that already has the metric columns and raw_json, never raises,
    whatever the store does: it returns the header list it was given, leaves
    the module-level list and rows 1 to 3 of the sheet alone, and sends at
    most two updates, all to rows from 4 on.  A row write that fails does
    not stop the loop. *)
Theorem settled_turn_never_raises (headers : list string) (idx total : nat) (t : string)
    (j : json) (s : run_state) :
  j <> JNull ->
  (forall k, k ∈ gather_change_interval_keys_from_json j ->
             k ∈ change_interval_keys_local (module_globals s)) ->
  (forall k, k ∈ METRIC_TRENDS_KEYS -> "metric_trends_" +:+ k ∈ headers) ->
  "raw_json" ∈ headers ->
  (process_ticker headers idx total t j s).1 = Some headers /\
  module_globals (process_ticker headers idx total t j s).2 = module_globals s /\
  (forall k, 1 <= k < 4 ->
     row_texts (sheet (data_ws (process_ticker headers idx total t j s).2)) k
     = row_texts (sheet (data_ws s)) k) /\
  exists us,
    updates (data_ws (process_ticker headers idx total t j s).2)
    = updates (data_ws s) ++ us /\
    length us <= 2 /\
    Forall (fun u => 4 <= uc_row u) us.
Proof.
  intros Hj Hknown Hmetric Hraw.
  assert (Hnew : filter (fun k => k ∉ change_interval_keys_local (module_globals s))
                        (gather_change_interval_keys_from_json j) = []).
  { apply filter_all_present. exact Hknown. }
  assert (Hcands : candidates headers (change_interval_keys_local (module_globals s)) j = []).
  { unfold candidates. rewrite Hnew, needed_metric_headers_none by exact Hmetric. reflexivity. }
  assert (Hrec : record_keys t j s = s).
  { unfold record_keys. rewrite Hnew. reflexivity. }
  destruct (process_ticker_doc headers idx total t j s Hj) as [Hg Hstep].
  rewrite Hcands, Hrec in *.
  rewrite append_new_headers_present in Hstep
    by (intros h Hh; apply elem_of_nil in Hh; destruct Hh).
  rewrite append_new_headers_present in Hstep
    by (intros h Hh; apply list_elem_of_singleton in Hh; subst h; exact Hraw).
  destruct Hstep as [Hres Hws]. split; [exact Hres|]. split; [exact Hg|].
  rewrite Hws. apply upsert_below_header.
Qed.

Lemma settled_turn_never_raises_witness :
  (process_ticker (initial_headers ++ ["change_intervals_1h"; "change_intervals_24h"])
     1 1 "BTC" doc_btc (state_btc [false; true; true; true] ["1h"; "24h"])).1
  = Some (initial_headers ++ ["change_intervals_1h"; "change_intervals_24h"]).
Proof.
  apply settled_turn_never_raises.
  - discriminate.
  - intros k Hk. exact Hk.
  - intros k Hk. apply elem_of_app. left. unfold initial_headers.
    apply elem_of_app. right. apply elem_of_app. left.
    apply list_elem_of_fmap. exists k. split; [reflexivity|exact Hk].
  - apply elem_of_app. left. unfold initial_headers.
    apply elem_of_app. right. apply elem_of_app. right. left.
Defined.

Lemma append_new_headers_fault (current new : list string) (w : world) (h : string) :
  h ∈ new -> h ∉ current -> (next_fault w).1 = true ->
  (append_new_headers current new w).1 = None /\
  sheet (append_new_headers current new w).2 = sheet w.
Proof.
  intros Hin Hout Hf. unfold append_new_headers.
  destruct (filter (fun h => h ∉ current) new) as [|m ms] eqn:Em.
  - exfalso. assert (Hm : h ∈ filter (fun h => h ∉ current) new)
      by (apply list_elem_of_filter; split; assumption).
    rewrite Em in Hm. apply elem_of_nil in Hm. destruct Hm.
  - assert (Hpos : 0 < length (current ++ m :: ms)) by (rewrite length_app; simpl; lia).
    destruct (number_to_column_pos _ Hpos) as [c Hc]. rewrite Hc.
    unfold_monad. destruct (faults w) as [|[] fs]; simpl in *;
      try discriminate Hf; split; reflexivity.
Qed.

(** X19.  The keys are recorded before their columns are written, and a
    key that is recorded never gets a column later.  When the write of the
    header fails for a key that is new and has no column, the turn raises
    with the sheet as it was and the key in the module-level list.  And a
    turn that starts with a key in the module-level list returns a header
    list that has the column of that key only if the list it was given had
    it. *)
Theorem keys_recorded_before_columns :
  (forall headers idx total t j s k,
      k ∈ gather_change_interval_keys_from_json j ->
      k ∉ change_interval_keys_local (module_globals s) ->
      "change_intervals_" +:+ k ∉ headers ->
      (next_fault (data_ws s)).1 = true ->
      (process_ticker headers idx total t j s).1 = None /\
      sheet (data_ws (process_ticker headers idx total t j s).2) = sheet (data_ws s) /\
      k ∈ change_interval_keys_local
            (module_globals (process_ticker headers idx total t j s).2)) /\
  (forall headers idx total t j s k headers',
      k ∈ change_interval_keys_local (module_globals s) ->
      (process_ticker headers idx total t j s).1 = Some headers' ->
      ("change_intervals_" +:+ k ∈ headers' <-> "change_intervals_" +:+ k ∈ headers)).
Proof.
  split.
  - intros headers idx total t j s k Hk Hnew Hcol Hf.
    assert (Hj : j <> JNull).
    { intros ->. vm_compute in Hk. apply elem_of_nil in Hk. destruct Hk. }
    destruct (process_ticker_doc headers idx total t j s Hj) as [Hg Hstep].
    assert (Hcand : "change_intervals_" +:+ k
                    ∈ candidates headers (change_interval_keys_local (module_globals s)) j).
    { unfold candidates. apply elem_of_app. right.
      apply list_elem_of_fmap. exists k. split; [reflexivity|].
      apply list_elem_of_filter. split; assumption. }
    destruct (append_new_headers_fault headers _ (data_ws s) _ Hcand Hcol Hf) as [Hnone Hsheet].
    destruct (append_new_headers headers _ (data_ws s)) as [[hs1|] w1];
      [discriminate Hnone|].
    destruct Hstep as [Hres Hws]. split; [exact Hres|]. split.
    + rewrite Hws. exact Hsheet.
    + rewrite Hg, record_keys_known. apply elem_of_app. right.
      apply list_elem_of_filter. split; assumption.
  - intros headers idx total t j s k headers' Hk Hret.
    destruct (process_ticker_headers _ _ _ _ _ _ _ Hret) as [[_ ->]|(_ & hs1 & Hhs1 & ->)];
      [reflexivity|].
    rewrite elem_of_app, list_elem_of_filter, list_elem_of_singleton. subst hs1.
    rewrite elem_of_app, list_elem_of_filter. unfold candidates.
    rewrite elem_of_app, list_elem_of_fmap. unfold needed_metric_headers.
    rewrite list_elem_of_filter, list_elem_of_fmap. split; [|tauto].
    intros [[H|[_ [H|H]]]|[_ H]]; [exact H| | |discriminate H].
    + destruct H as (_ & k' & Heq & _). symmetry in Heq.
      destruct (metric_header_not_change_interval k' k Heq).
    + destruct H as (k' & Heq & Hk'). apply append_inj_r in Heq. subst k'.
      apply list_elem_of_filter in Hk' as [Hnot _]. contradiction.
Qed.

Lemma keys_recorded_before_columns_witness :
  (process_ticker ["ticker"; "raw_json"] 1 1 "BTC" doc_btc (state_btc [true] [])).1 = None /\
  exists headers',
    (process_ticker ["ticker"; "raw_json"] 1 1 "BTC" doc_btc
       (process_ticker ["ticker"; "raw_json"] 1 1 "BTC" doc_btc (state_btc [true] [])).2).1
    = Some headers' /\
    "change_intervals_1h" ∉ headers'.
Proof.
  assert (Hk : "1h" ∈ gather_change_interval_keys_from_json doc_btc) by (vm_compute; left).
  destruct (proj1 keys_recorded_before_columns ["ticker"; "raw_json"] 1 1 "BTC" doc_btc
              (state_btc [true] []) "1h" Hk)
    as (Hnone & _ & Hknown).
  { intros H. apply elem_of_nil in H. destruct H. }
  { apply (bool_decide_unpack _). vm_compute. exact I. }
  { reflexivity. }
  split; [exact Hnone|].
  destruct (process_ticker ["ticker"; "raw_json"] 1 1 "BTC" doc_btc
              (process_ticker ["ticker"; "raw_json"] 1 1 "BTC" doc_btc
                 (state_btc [true] [])).2).1 as [headers'|] eqn:E;
    [|vm_compute in E; discriminate E].
  exists headers'. split; [reflexivity|].
  rewrite (proj2 keys_recorded_before_columns _ _ _ _ _ _ "1h" headers' Hknown E).
  apply (bool_decide_unpack _). vm_compute. exact I.
Defined.

(** X20.  A turn for a ticker without a document leaves the header list
    and the module-level list alone.  When the search finds the ticker,
    nothing is sent.  When it does not, the free row is read outside any
    handler, so a failure of that read ends the run with an exception; when
    the read goes through, one update is sent to the free row, the ticker as
    it is followed by empty cells up to the width of the header, and the
    turn returns whether or not that update went through. *)
Theorem turn_without_document (headers : list string) (idx total : nat) (t : string)
    (s : run_state) :
  module_globals (process_ticker headers idx total t JNull s).2 = module_globals s /\
  (forall headers', (process_ticker headers idx total t JNull s).1 = Some headers' ->
                    headers' = headers) /\
  (forall r, (find_row_for_ticker t 4 (data_ws s)).1 = Some (Some r) ->
     (process_ticker headers idx total t JNull s).1 = Some headers /\
     sheet (data_ws (process_ticker headers idx total t JNull s).2) = sheet (data_ws s) /\
     updates (data_ws (process_ticker headers idx total t JNull s).2)
     = updates (data_ws s)) /\
  ((find_row_for_ticker t 4 (data_ws s)).1 = Some None ->
   (next_fault (find_row_for_ticker t 4 (data_ws s)).2).1 = true ->
     (process_ticker headers idx total t JNull s).1 = None /\
     sheet (data_ws (process_ticker headers idx total t JNull s).2) = sheet (data_ws s) /\
     updates (data_ws (process_ticker headers idx total t JNull s).2)
     = updates (data_ws s)) /\
  ((find_row_for_ticker t 4 (data_ws s)).1 = Some None ->
   (next_fault (find_row_for_ticker t 4 (data_ws s)).2).1 = false ->
   headers <> [] ->
     (process_ticker headers idx total t JNull s).1 = Some headers /\
     exists end_col ok,
       updates (data_ws (process_ticker headers idx total t JNull s).2)
       = updates (data_ws s)
         ++ [UpdateCall (free_row (sheet (data_ws s))) end_col
               (JStr t :: replicate (length headers - 1) (JStr "")) ok] /\
       sheet (data_ws (process_ticker headers idx total t JNull s).2)
       = if ok then set_row (free_row (sheet (data_ws s)))
                      (JStr t :: replicate (length headers - 1) (JStr ""))
                      (sheet (data_ws s))
         else sheet (data_ws s)).
Proof.
  destruct (process_ticker_null headers idx total t s) as [Hg Hstep].
  split; [exact Hg|]. split.
  { intros headers' Hret.
    destruct (process_ticker_headers _ _ _ _ _ _ _ Hret) as [[_ ->]|[Hj _]];
      [reflexivity|congruence]. }
  assert (Hsame : sheet (find_row_for_ticker t 4 (data_ws s)).2 = sheet (data_ws s) /\
                  updates (find_row_for_ticker t 4 (data_ws s)).2 = updates (data_ws s)).
  { rewrite find_row_for_ticker_eq.
    destruct (next_fault (data_ws s)) as [[] fs]; split; reflexivity. }
  destruct Hsame as [Hsh Hup].
  split; [|split].
  - intros r Hfind. pose proof (find_result _ _ _ Hfind) as [_ Hscan].
    apply scan_in_sheet in Hscan.
    destruct (find_row_for_ticker t 4 (data_ws s)) as [ri w1]. simpl in *. subst ri.
    destruct r as [|n]; [lia|]. destruct Hstep as [Hres Hws].
    rewrite Hws. auto.
  - intros Hfind Hfault.
    destruct (find_row_for_ticker t 4 (data_ws s)) as [ri w1]. simpl in *. subst ri.
    rewrite next_free_row_eq in Hstep.
    destruct (next_fault w1) as [f fs]. simpl in Hfault. subst f.
    destruct Hstep as [Hres Hws]. rewrite Hws. simpl. auto.
  - intros Hfind Hfault Hne.
    destruct (find_row_for_ticker t 4 (data_ws s)) as [ri w1]. simpl in *. subst ri.
    rewrite next_free_row_eq in Hstep.
    destruct (next_fault w1) as [f fs] eqn:Hnf. simpl in Hfault. subst f.
    destruct Hstep as [Hres Hws]. split; [exact Hres|].
    assert (Hpos : 0 < length headers) by (destruct headers; [congruence|simpl; lia]).
    destruct (number_to_column_pos _ Hpos) as [c Hc]. rewrite Hc in Hws.
    rewrite Hws, <- Hsh, <- Hup. exists c.
    unfold ws_update_row, next_fault. simpl.
    destruct fs as [|[] fs']; simpl.
    + exists true. split; reflexivity.
    + exists false. split; reflexivity.
    + exists true. split; reflexivity.
Qed.

Lemma turn_without_document_witness :
  sheet (data_ws (process_ticker ["ticker"; "asset_price"] 1 1 "BTC" JNull
                    (state_btc [] [])).2) = sheet_btc /\
  sheet (data_ws (process_ticker ["ticker"; "asset_price"] 1 1 "eth" JNull
                    (state_btc [] [])).2) = sheet_btc ++ [[JStr "eth"; JStr ""]] /\
  (process_ticker ["ticker"; "asset_price"] 1 1 "eth" JNull (state_btc [false; true] [])).1
  = None.
Proof.
  pose proof (turn_without_document ["ticker"; "asset_price"] 1 1 "BTC" (state_btc [] []))
    as (_ & _ & Hfound & _ & _).
  pose proof (turn_without_document ["ticker"; "asset_price"] 1 1 "eth" (state_btc [] []))
    as (_ & _ & _ & _ & Hnew).
  pose proof (turn_without_document ["ticker"; "asset_price"] 1 1 "eth"
                (state_btc [false; true] [])) as (_ & _ & _ & Hfail & _).
  split; [|split].
  - apply (Hfound 4). reflexivity.
  - destruct (Hnew eq_refl eq_refl ltac:(discriminate)) as (_ & c & ok & Hu & Hs).
    assert (ok = true) as ->.
    { vm_compute in Hu. injection Hu as _ Hok. symmetry. exact Hok. }
    rewrite Hs. vm_compute. reflexivity.
  - apply Hfail; reflexivity.
Defined.

(** ** Reading the header row and setting it up *)

Lemma read_existing_headers_eq (s : run_state) :
  read_existing_headers s
  = let w1 := World (sheet (data_ws s)) (next_fault (data_ws s)).2
                    (log (data_ws s)) (updates (data_ws s)) in
    if (next_fault (data_ws s)).1
    then (Some [], RunState w1 (module_globals s)
                     (run_log s ++ [(length (log (data_ws s)), CouldNotReadHeaders)]))
    else (Some (row_texts (sheet (data_ws s)) 3), RunState w1 (module_globals s) (run_log s)).
Proof.
  unfold read_existing_headers, try_catchR, lift, ws_row_values.
  destruct (next_fault (data_ws s)) as [[] fs]; reflexivity.
Qed.

Lemma initial_headers_column : number_to_column (length initial_headers) = Some "BT".
Proof. vm_compute. reflexivity. Qed.

(** The write of the initial header, lines 504-514. *)
Lemma write_initial_headers_eq (s : run_state) :
  try_catchR
    (match number_to_column (length initial_headers) with
     | None => raiseR
     | Some end_col =>
         lift (ws_update_row 3 end_col (JStr <$> initial_headers));;
         note (WroteInitialHeaders (length initial_headers));;
         mret (Some initial_headers)
     end)
    (note FailedInitialHeaders;; mret None) s
  = if (next_fault (data_ws s)).1
    then (Some None,
          RunState (World (sheet (data_ws s)) (next_fault (data_ws s)).2 (log (data_ws s))
                          (updates (data_ws s)
                           ++ [UpdateCall 3 "BT" (JStr <$> initial_headers) false]))
                   (module_globals s)
                   (run_log s ++ [(length (log (data_ws s)), FailedInitialHeaders)]))
    else (Some (Some initial_headers),
          RunState (World (set_row 3 (JStr <$> initial_headers) (sheet (data_ws s)))
                          (next_fault (data_ws s)).2 (log (data_ws s))
                          (updates (data_ws s)
                           ++ [UpdateCall 3 "BT" (JStr <$> initial_headers) true]))
                   (module_globals s)
                   (run_log s ++ [(length (log (data_ws s)),
                                   WroteInitialHeaders (length initial_headers))])).
Proof.
  rewrite initial_headers_column.
  unfold try_catchR. unfold mbind at 1, R_bind, bindR, lift at 1, ws_update_row.
  destruct (next_fault (data_ws s)) as [[] fs]; reflexivity.
Qed.

Lemma setup_headers_eq (s : run_state) :
  setup_headers s
  = match (read_existing_headers s).1 with
    | Some [] =>
        try_catchR
          (match number_to_column (length initial_headers) with
           | None => raiseR
           | Some end_col =>
               lift (ws_update_row 3 end_col (JStr <$> initial_headers));;
               note (WroteInitialHeaders (length initial_headers));;
               mret (Some initial_headers)
           end)
          (note FailedInitialHeaders;; mret None) (read_existing_headers s).2
    | Some existing =>
        let '(r, w2) := append_new_headers existing ["raw_json"]
                          (data_ws (read_existing_headers s).2) in
        (Some <$> r,
         RunState w2 (module_globals (read_existing_headers s).2)
                  (run_log (read_existing_headers s).2))
    | None => (None, (read_existing_headers s).2)
    end.
Proof.
  unfold setup_headers. unfold mbind at 1, R_bind, bindR.
  destruct (read_existing_headers s) as [[[|h hs]|] s1]; cbn [fst snd];
    [reflexivity| |reflexivity].
  case_bool_decide as Hin.
  - rewrite append_new_headers_present
      by (intros x Hx; apply list_elem_of_singleton in Hx; subst x; exact Hin).
    destruct s1. reflexivity.
  - unfold mbind at 1, R_bind, bindR, lift.
    destruct (append_new_headers (h :: hs) ["raw_json"] (data_ws s1)) as [[r|] w2];
      reflexivity.
Qed.

(** X21.  Setting up the header at the start of a run.  A header row that
    cannot be read is taken for an empty one.  When the row is empty or
    unreadable, the initial header is written over row 3; when that write
    fails, the run ends there without an exception and with the sheet as it
    was.  When the row is read and has a header, that header is kept, with
    raw_json added at its end when it is missing. *)
Theorem setup_headers_outcome (s : run_state) :
  ((next_fault (data_ws s)).1 = true \/ row_texts (sheet (data_ws s)) 3 = [] ->
   faults (data_ws s) !! 1 <> Some true ->
   (setup_headers s).1 = Some (Some initial_headers) /\
   sheet (data_ws (setup_headers s).2)
   = set_row 3 (JStr <$> initial_headers) (sheet (data_ws s))) /\
  ((next_fault (data_ws s)).1 = true \/ row_texts (sheet (data_ws s)) 3 = [] ->
   faults (data_ws s) !! 1 = Some true ->
   (setup_headers s).1 = Some None /\
   sheet (data_ws (setup_headers s).2) = sheet (data_ws s)) /\
  ((next_fault (data_ws s)).1 = false -> row_texts (sheet (data_ws s)) 3 <> [] ->
   (setup_headers s).1 <> Some None /\
   (forall headers, (setup_headers s).1 = Some (Some headers) ->
      row_texts (sheet (data_ws s)) 3 `prefix_of` headers /\ "raw_json" ∈ headers) /\
   ("raw_json" ∈ row_texts (sheet (data_ws s)) 3 ->
      (setup_headers s).1 = Some (Some (row_texts (sheet (data_ws s)) 3)) /\
      sheet (data_ws (setup_headers s).2) = sheet (data_ws s))).
Proof.
  rewrite setup_headers_eq, read_existing_headers_eq. cbv zeta.
  assert (Hsecond : forall w1 : world,
            faults w1 = (next_fault (data_ws s)).2 ->
            ((next_fault w1).1 = true <-> faults (data_ws s) !! 1 = Some true)).
  { intros w1 Hw1. unfold next_fault in *. rewrite Hw1.
    destruct (faults (data_ws s)) as [|f1 [|f2 fs]]; simpl;
      [split; discriminate|split; discriminate|].
    split; [intros ->; reflexivity|intros [= ->]; reflexivity]. }
  split; [|split].
  - intros Hempty Hok.
    assert (Hread : (if (next_fault (data_ws s)).1 then @nil string
                     else row_texts (sheet (data_ws s)) 3) = []).
    { destruct (next_fault (data_ws s)).1; [reflexivity|].
      destruct Hempty as [H|H]; [discriminate H|exact H]. }
    destruct (next_fault (data_ws s)) as [f fs] eqn:Hnf. simpl in *.
    destruct f; simpl; [|rewrite Hread]; rewrite write_initial_headers_eq; simpl;
      (destruct (next_fault (World _ fs _ _)).1 eqn:E2;
       [exfalso; apply Hok; eapply Hsecond; [|exact E2]; reflexivity|]);
      split; reflexivity.
  - intros Hempty Hbad.
    assert (Hread : (if (next_fault (data_ws s)).1 then @nil string
                     else row_texts (sheet (data_ws s)) 3) = []).
    { destruct (next_fault (data_ws s)).1; [reflexivity|].
      destruct Hempty as [H|H]; [discriminate H|exact H]. }
    destruct (next_fault (data_ws s)) as [f fs] eqn:Hnf. simpl in *.
    destruct f; simpl; [|rewrite Hread]; rewrite write_initial_headers_eq; simpl;
      (destruct (next_fault (World _ fs _ _)).1 eqn:E2;
       [|rewrite (proj2 (Hsecond (World (sheet (data_ws s)) fs (log (data_ws s))
                                        (updates (data_ws s))) eq_refl) Hbad) in E2;
         discriminate E2]);
      split; reflexivity.
  - intros Hf Hne. destruct (next_fault (data_ws s)) as [f fs]. simpl in Hf. subst f.
    simpl. destruct (row_texts (sheet (data_ws s)) 3) as [|h hs] eqn:Hrow; [congruence|].
    split; [|split].
    + destruct (append_new_headers (h :: hs) ["raw_json"] _) as [[r|] w2]; discriminate.
    + intros headers Hret.
      destruct (append_new_headers (h :: hs) ["raw_json"] _) as [[r|] w2] eqn:E;
        [|discriminate Hret].
      simpl in Hret. injection Hret as ->.
      apply append_new_headers_result in E. subst headers. split.
      * apply prefix_app_r. reflexivity.
      * apply append_new_headers_covers. left.
    + intros Hraw. rewrite append_new_headers_present
        by (intros x Hx; apply list_elem_of_singleton in Hx; subst x; exact Hraw).
      split; reflexivity.
Qed.

Lemma setup_headers_outcome_witness :
  row_texts sheet_btc 3 = ["ticker"; "asset_price"] /\
  (setup_headers (state_btc [true; true] [])).1 = Some None /\
  sheet (data_ws (setup_headers (state_btc [true; false] [])).2) !! 2
  = Some (JStr <$> initial_headers) /\
  (setup_headers (state_btc [] [])).1 = Some (Some ["ticker"; "asset_price"; "raw_json"]).
Proof.
  split; [reflexivity|]. split; [|split].
  - apply (proj1 (proj2 (setup_headers_outcome (state_btc [true; true] []))));
      [left; reflexivity|reflexivity].
  - rewrite (proj2 (proj1 (setup_headers_outcome (state_btc [true; false] []))
                      (or_introl eq_refl) ltac:(discriminate))).
    vm_compute. reflexivity.
  - destruct (setup_headers (state_btc [] [])).1 as [[hs|]|] eqn:E;
      vm_compute in E; congruence.
Defined.

(** ** Writing the header and reading it back *)

Lemma rev_replicate_blank (n : nat) : rev (replicate n "") = replicate n "".
Proof.
  induction n as [|n IH]; [reflexivity|]. simpl. rewrite IH.
  clear. induction n as [|n IH]; [reflexivity|]. simpl. rewrite <- IH. reflexivity.
Qed.

Lemma drop_leading_empty_blank (n : nat) (l : list string) :
  drop_leading_empty (replicate n "" ++ l) = drop_leading_empty l.
Proof. induction n as [|n IH]; [reflexivity|]. simpl. exact IH. Qed.

(** Empty cells at the end of a row do not show when the row is read. *)
Lemma trim_app_blank (l : list string) (n : nat) :
  rev (drop_leading_empty (rev (l ++ replicate n "")))
  = rev (drop_leading_empty (rev l)).
Proof. rewrite rev_app_distr, rev_replicate_blank, drop_leading_empty_blank. reflexivity. Qed.

Lemma trim_filled_last (l : list string) (x : string) :
  last l = Some x -> x <> "" -> rev (drop_leading_empty (rev l)) = l.
Proof.
  intros Hlast Hx. apply last_Some in Hlast as [l' ->].
  rewrite rev_app_distr. simpl. rewrite bool_decide_eq_false_2 by exact Hx.
  simpl. rewrite rev_involutive. reflexivity.
Qed.

Lemma trim_split (l : list string) :
  exists n, l = rev (drop_leading_empty (rev l)) ++ replicate n "".
Proof.
  destruct (drop_leading_empty_split (rev l)) as [n Hn]. exists n.
  apply (f_equal (@rev string)) in Hn. rewrite rev_involutive in Hn.
  rewrite Hn at 1. rewrite rev_app_distr, rev_replicate_blank. reflexivity.
Qed.

Lemma cell_text_of_texts (l : list string) : cell_text <$> (JStr <$> l) = l.
Proof. induction l as [|x l IH]; [reflexivity|]. simpl. f_equal. exact IH. Qed.

Lemma append_new_headers_ok (current new : list string) (w : world) :
  filter (fun h => h ∉ current) new <> [] -> (next_fault w).1 = false ->
  exists w',
    append_new_headers current new w
    = (Some (current ++ filter (fun h => h ∉ current) new), w') /\
    sheet w' = set_row 3 (JStr <$> (current ++ filter (fun h => h ∉ current) new)) (sheet w).
Proof.
  intros Hmiss Hf. unfold append_new_headers.
  destruct (filter (fun h => h ∉ current) new) as [|m ms]; [congruence|].
  assert (Hpos : 0 < length (current ++ m :: ms)) by (rewrite length_app; simpl; lia).
  destruct (number_to_column_pos _ Hpos) as [c Hc]. rewrite Hc.
  unfold_monad. destruct (faults w) as [|[] fs]; simpl in *;
    try discriminate Hf; eexists; split; reflexivity.
Qed.

(** X22.  A header that has been written is read back as it was written.
    When the header row reads as the current header, some candidate is
    missing, no candidate is the empty text and the update goes through,
    then after [append_new_headers] the header row reads as the header
    returned. *)
Theorem appended_headers_read_back (current new : list string) (w : world) :
  row_texts (sheet w) 3 = current ->
  filter (fun h => h ∉ current) new <> [] ->
  "" ∉ new ->
  (next_fault w).1 = false ->
  exists w',
    append_new_headers current new w
    = (Some (current ++ filter (fun h => h ∉ current) new), w') /\
    row_texts (sheet w') 3 = current ++ filter (fun h => h ∉ current) new.
Proof.
  intros Hrow Hmiss Hblank Hf.
  destruct (append_new_headers_ok current new w Hmiss Hf) as (w' & Happ & Hsheet).
  exists w'. split; [exact Happ|].
  set (missing := filter (fun h => h ∉ current) new) in *.
  unfold row_texts. rewrite Hsheet.
  change (3 - 1) with 2. rewrite (set_row_at 3 _ (sheet w)) by lia.
  change (3 - 1) with 2. unfold row_texts in Hrow. change (3 - 1) with 2 in Hrow.
  set (old := default [] (sheet w !! 2)) in *.
  cbn [default from_option]. unfold id.
  rewrite fmap_app, cell_text_of_texts, fmap_drop.
  destruct (trim_split (cell_text <$> old)) as [n Hn].
  rewrite Hrow in Hn. rewrite Hn, length_fmap.
  rewrite drop_app_ge by (rewrite length_app; lia).
  rewrite drop_replicate, trim_app_blank.
  destruct (last missing) as [x|] eqn:Hlast.
  - apply (trim_filled_last _ x).
    + rewrite last_app, Hlast. reflexivity.
    + intros ->. apply Hblank.
      apply last_Some in Hlast as [l' Hl'].
      assert (Hin : "" ∈ missing) by (rewrite Hl'; apply elem_of_app; right; left).
      apply list_elem_of_filter in Hin as [_ Hin]. exact Hin.
  - apply last_None in Hlast. congruence.
Qed.

Lemma appended_headers_read_back_witness :
  row_texts (sheet (append_new_headers ["ticker"; "asset_price"]
                      ["raw_json"; "asset_price"; "change_intervals_1h"]
                      (world_btc [])).2) 3
  = ["ticker"; "asset_price"; "raw_json"; "change_intervals_1h"].
Proof.
  destruct (appended_headers_read_back ["ticker"; "asset_price"]
              ["raw_json"; "asset_price"; "change_intervals_1h"] (world_btc []))
    as (w' & Happ & Hrow).
  - reflexivity.
  - apply (bool_decide_unpack _). vm_compute. exact I.
  - apply (bool_decide_unpack _). vm_compute. exact I.
  - reflexivity.
  - rewrite Happ. etrans; [exact Hrow|]. vm_compute. reflexivity.
Defined.

(** * A pass over the tickers *)

(** ** Rows of tickers *)

(** [has_row sh t]: from row 4 on, some row of the sheet has a filled
    first cell that matches [t]. *)
Definition has_row (sh : list (list json)) (t : string) : Prop :=
  exists k row,
    3 <= k /\ sh !! k = Some row /\ first_cell_text row <> "" /\
    same_ticker (first_cell_text row) t = true.

Lemma lower_empty (s : string) : lower s = "" -> s = "".
Proof. destruct s; [reflexivity|discriminate]. Qed.

Lemma same_ticker_filled (v t : string) :
  strip t <> "" -> same_ticker v t = true -> v <> "".
Proof.
  intros Ht Hsame ->. unfold same_ticker in Hsame.
  apply bool_decide_eq_true_1 in Hsame. symmetry in Hsame.
  apply lower_empty in Hsame. contradiction.
Qed.

Lemma same_ticker_shared (v t t0 : string) :
  same_ticker v t = true -> same_ticker v t0 = true -> same_ticker t t0 = true.
Proof.
  unfold same_ticker. intros H1 H2.
  apply bool_decide_eq_true_1 in H1, H2. apply bool_decide_eq_true_2. congruence.
Qed.

Lemma has_row_found (sh : list (list json)) (t : string) :
  has_row sh t -> exists r, scan_from 4 (drop 3 (col_a sh)) t = Some r.
Proof.
  intros (k & row & Hk & Hrow & Hfilled & Hsame).
  destruct (scan_from 4 (drop 3 (col_a sh)) t) as [r|] eqn:E; [exists r; reflexivity|].
  exfalso. pose proof (proj1 (scan_from_None _ _ _) E (k - 3) (first_cell_text row)) as Hno.
  rewrite Hno in Hsame; [discriminate|].
  rewrite lookup_drop. replace (3 + (k - 3)) with k by lia.
  rewrite col_a_lookup by (eapply col_a_below_empty; eassumption).
  rewrite Hrow. reflexivity.
Qed.

Lemma found_has_row (sh : list (list json)) (t : string) (r : nat) :
  strip t <> "" -> scan_from 4 (drop 3 (col_a sh)) t = Some r ->
  exists row, 4 <= r /\ sh !! (r - 1) = Some row /\ first_cell_text row <> "" /\
              same_ticker (first_cell_text row) t = true.
Proof.
  intros Ht Hscan. apply scan_from_Some in Hscan as (i & v & -> & Hi & Hv & _).
  rewrite lookup_drop in Hi. pose proof (lookup_lt_Some _ _ _ Hi) as Hlen.
  rewrite col_a_lookup in Hi by exact Hlen.
  replace (4 + i - 1) with (3 + i) by lia.
  destruct (sh !! (3 + i)) as [row|]; [|discriminate]. simpl in Hi. injection Hi as <-.
  exists row. split; [lia|]. split; [reflexivity|].
  split; [eapply same_ticker_filled; eassumption|exact Hv].
Qed.

Lemma has_row_header_write (sh : list (list json)) (t : string) (cells : list json) :
  has_row sh t -> has_row (set_row 3 cells sh) t.
Proof.
  intros (k & row & Hk & Hrow & Hfilled & Hsame). exists k, row.
  split; [exact Hk|]. split; [|split; assumption].
  rewrite set_row_other; [exact Hrow|simpl; lia|eapply lookup_lt_Some; exact Hrow].
Qed.

Lemma has_row_written (sh : list (list json)) (t : string) (cells : list json) (r : nat) :
  4 <= r -> t <> "" -> has_row (set_row r (JStr t :: cells) sh) t.
Proof.
  intros Hr Ht. eexists (r - 1), _. split; [lia|].
  split; [apply set_row_at; lia|]. split; [exact Ht|apply same_ticker_refl].
Qed.

(** Writing the row of [t] where the upsert targets it keeps a row for
    every other ticker that had one. *)
Lemma has_row_kept (sh : list (list json)) (t t0 : string) (cells : list json) :
  strip t <> "" -> t <> "" -> has_row sh t0 ->
  has_row (set_row (target_row (scan_from 4 (drop 3 (col_a sh)) t) sh) (JStr t :: cells) sh) t0.
Proof.
  intros Hst Ht (k & row & Hk & Hrow & Hfilled & Hsame).
  set (r := target_row (scan_from 4 (drop 3 (col_a sh)) t) sh).
  destruct (decide (k = r - 1)) as [Heq|Hne].
  - assert (H4 : 4 <= r).
    { unfold r, target_row. destruct (scan_from 4 _ t) as [r0|] eqn:E.
      - apply scan_in_sheet in E. lia.
      - unfold free_row. lia. }
    eexists (r - 1), _. split; [lia|]. split; [apply set_row_at; lia|].
    split; [exact Ht|]. simpl.
    unfold r, target_row in *. destruct (scan_from 4 _ t) as [r0|] eqn:E.
    + destruct (found_has_row sh t r0 Hst E) as (row0 & _ & Hrow0 & _ & Hsame0).
      rewrite <- Heq, Hrow in Hrow0. injection Hrow0 as <-.
      eapply same_ticker_shared; eassumption.
    + exfalso. pose proof (col_a_below_empty sh k row Hrow Hfilled) as Hlt.
      unfold free_row in Heq. lia.
  - exists k, row. split; [exact Hk|]. split; [|split; assumption].
    rewrite set_row_other; [exact Hrow|exact Hne|eapply lookup_lt_Some; exact Hrow].
Qed.

(** ** One turn while no call fails *)

Lemma append_new_headers_fault_free (current new : list string) (w : world) :
  faults w = [] ->
  exists w1,
    append_new_headers current new w
    = (Some (current ++ filter (fun h => h ∉ current) new), w1) /\
    faults w1 = [] /\
    (sheet w1 = sheet w \/ exists cells, sheet w1 = set_row 3 cells (sheet w)).
Proof.
  intros Hf. unfold append_new_headers.
  destruct (filter (fun h => h ∉ current) new) as [|m ms].
  - exists w. rewrite app_nil_r. split; [reflexivity|]. split; [exact Hf|left; reflexivity].
  - assert (Hpos : 0 < length (current ++ m :: ms)) by (rewrite length_app; simpl; lia).
    destruct (number_to_column_pos _ Hpos) as [c Hc]. rewrite Hc.
    unfold_monad. rewrite Hf. simpl. eexists. split; [reflexivity|].
    split; [reflexivity|]. right. eexists. reflexivity.
Qed.

Lemma strip_filled (t : string) : strip t <> "" -> t <> "".
Proof. intros H ->. apply H. reflexivity. Qed.

Lemma head_app_ticker (l k : list string) :
  head l = Some "ticker" -> head (l ++ k) = Some "ticker".
Proof. destruct l; [discriminate|]. intros H. exact H. Qed.

Lemma process_ticker_fault_free (headers : list string) (idx total : nat) (t : string)
    (j : json) (s : run_state) :
  faults (data_ws s) = [] -> head headers = Some "ticker" ->
  strip t <> "" -> is_too_large t = false ->
  exists headers',
    (process_ticker headers idx total t j s).1 = Some headers' /\
    faults (data_ws (process_ticker headers idx total t j s).2) = [] /\
    head headers' = Some "ticker" /\
    has_row (sheet (data_ws (process_ticker headers idx total t j s).2)) t /\
    forall t0, has_row (sheet (data_ws s)) t0 ->
               has_row (sheet (data_ws (process_ticker headers idx total t j s).2)) t0.
Proof.
  intros Hf Hhead Hst Hfit. pose proof (strip_filled t Hst) as Ht.
  destruct (json_null_or_not j) as [->|Hj].
  - destruct (process_ticker_null headers idx total t s) as [_ Hstep].
    rewrite find_row_for_ticker_eq in Hstep. unfold next_fault in Hstep.
    rewrite Hf in Hstep. cbv iota beta in Hstep.
    destruct (scan_from 4 (drop 3 (col_a (sheet (data_ws s)))) t) as [r|] eqn:Hscan.
    + destruct (found_has_row _ _ _ Hst Hscan) as (row & H4 & Hrow & Hfilled & Hsame).
      destruct r as [|n]; [lia|]. destruct Hstep as [Hres Hws].
      exists headers. split; [exact Hres|]. rewrite Hws. simpl.
      split; [reflexivity|]. split; [exact Hhead|]. split; [|tauto].
      exists (S n - 1), row. split; [lia|]. tauto.
    + rewrite next_free_row_eq in Hstep. unfold next_fault in Hstep. simpl in Hstep.
      destruct Hstep as [Hres Hws]. exists headers. split; [exact Hres|].
      assert (Hpos : 0 < length headers) by (destruct headers; [discriminate|simpl; lia]).
      destruct (number_to_column_pos _ Hpos) as [c Hc]. rewrite Hc in Hws.
      rewrite Hws. unfold ws_update_row, next_fault. simpl.
      split; [reflexivity|]. split; [exact Hhead|]. split.
      * apply has_row_written; [unfold free_row; lia|exact Ht].
      * intros t0 H0.
        pose proof (has_row_kept (sheet (data_ws s)) t t0
                      (replicate (length headers - 1) (JStr "")) Hst Ht H0) as Hk.
        rewrite Hscan in Hk. exact Hk.
  - destruct (process_ticker_doc headers idx total t j s Hj) as [_ Hstep].
    destruct (append_new_headers_fault_free headers
                (candidates headers (change_interval_keys_local (module_globals s)) j)
                (data_ws s) Hf) as (w1 & E1 & Hf1 & Hs1).
    rewrite E1 in Hstep.
    set (hs1 := headers ++ filter (fun h => h ∉ headers)
                  (candidates headers (change_interval_keys_local (module_globals s)) j)) in *.
    destruct (append_new_headers_fault_free hs1 ["raw_json"] w1 Hf1) as (w2 & E2 & Hf2 & Hs2).
    rewrite E2 in Hstep. destruct Hstep as [Hres Hws].
    set (hs2 := hs1 ++ filter (fun h => h ∉ hs1) ["raw_json"]) in *.
    assert (Hhead2 : head hs2 = Some "ticker").
    { unfold hs2, hs1. apply head_app_ticker, head_app_ticker, Hhead. }
    exists hs2. split; [exact Hres|]. rewrite Hws.
    destruct hs2 as [|h rest] eqn:Ehs2; [discriminate|]. injection Hhead2 as ->.
    set (vm := run_values_map (module_globals (record_keys t j s)) j t) in *.
    destruct (upsert_fault_free ("ticker" :: rest) vm j t w2 ltac:(discriminate) Hf2)
      as (c & lg & Hup).
    assert (Hvm : vm !! "ticker" = Some (JStr t)) by apply lookup_insert_eq.
    destruct (first_cells_ticker rest vm t (scan_from 4 (drop 3 (col_a (sheet w2))) t)
                Hvm Hfit) as [cells Hcells].
    rewrite Hcells in Hup. rewrite Hup. simpl.
    split; [reflexivity|]. split; [reflexivity|].
    assert (Hkeep : forall t0, has_row (sheet (data_ws s)) t0 -> has_row (sheet w2) t0).
    { intros t0 H0.
      assert (H1 : has_row (sheet w1) t0).
      { destruct Hs1 as [->|[cs ->]]; [exact H0|apply has_row_header_write, H0]. }
      destruct Hs2 as [->|[cs ->]]; [exact H1|apply has_row_header_write, H1]. }
    split.
    + apply has_row_written; [|exact Ht].
      destruct (scan_from 4 (drop 3 (col_a (sheet w2))) t) as [r|] eqn:E; simpl.
      * apply scan_in_sheet in E. lia.
      * unfold free_row. lia.
    + intros t0 H0. apply has_row_kept; [exact Hst|exact Ht|apply Hkeep, H0].
Qed.

(** ** The loop *)

Lemma process_tickers_cons (headers : list string) (idx total : nat) (t : string)
    (j : json) (rest : list (string * json)) (s : run_state) :
  process_tickers headers idx total ((t, j) :: rest) s
  = match process_ticker headers idx total t j s with
    | (Some headers1, s1) => process_tickers headers1 (S idx) total rest s1
    | (None, s1) => (None, s1)
    end.
Proof. reflexivity. Qed.

Lemma process_ticker_known (headers : list string) (idx total : nat) (t : string)
    (j : json) (s : run_state) :
  change_interval_keys_local (module_globals (process_ticker headers idx total t j s).2)
  = change_interval_keys_local (module_globals s)
    ++ filter (fun k => k ∉ change_interval_keys_local (module_globals s))
              (gather_change_interval_keys_from_json j).
Proof.
  destruct (json_null_or_not j) as [->|Hj].
  - rewrite (proj1 (process_ticker_null headers idx total t s)).
    simpl. rewrite app_nil_r. reflexivity.
  - rewrite (proj1 (process_ticker_doc headers idx total t j s Hj)).
    apply record_keys_known.
Qed.

Lemma process_ticker_covers (headers : list string) (idx total : nat) (t : string)
    (j : json) (s : run_state) (headers' : list string) :
  (process_ticker headers idx total t j s).1 = Some headers' ->
  headers `prefix_of` headers' /\
  forall k, k ∈ gather_change_interval_keys_from_json j ->
            k ∉ change_interval_keys_local (module_globals s) ->
            "change_intervals_" +:+ k ∈ headers'.
Proof.
  intros Hret.
  destruct (process_ticker_headers _ _ _ _ _ _ _ Hret) as [[-> ->]|(Hj & hs1 & Hhs1 & ->)].
  - split; [reflexivity|]. intros k Hk. vm_compute in Hk. apply elem_of_nil in Hk. destruct Hk.
  - split.
    + etrans; [|apply prefix_app_r; reflexivity]. subst hs1. apply prefix_app_r. reflexivity.
    + intros k Hk Hnew. apply elem_of_app. left. subst hs1.
      apply append_new_headers_covers. unfold candidates. apply elem_of_app. right.
      apply list_elem_of_fmap. exists k. split; [reflexivity|].
      apply list_elem_of_filter. split; assumption.
Qed.

(** X23.  Over a pass of the loop that returns, the header list and the
    module-level list only grow at their ends; at the end the module-level
    list holds every key of every document of the pass, and the header list
    has a change_intervals_ column for every such key that was not known
    when the pass began. *)
Theorem pass_extends_headers_and_keys (items : list (string * json)) :
  forall (headers : list string) (idx total : nat) (s : run_state) (headers' : list string),
    (process_tickers headers idx total items s).1 = Some headers' ->
    headers `prefix_of` headers' /\
    change_interval_keys_local (module_globals s)
      `prefix_of` change_interval_keys_local
                    (module_globals (process_tickers headers idx total items s).2) /\
    (forall t j k, (t, j) ∈ items -> k ∈ gather_change_interval_keys_from_json j ->
       k ∈ change_interval_keys_local
             (module_globals (process_tickers headers idx total items s).2)) /\
    (forall t j k, (t, j) ∈ items -> k ∈ gather_change_interval_keys_from_json j ->
       k ∉ change_interval_keys_local (module_globals s) ->
       "change_intervals_" +:+ k ∈ headers').
Proof.
  induction items as [|[t j] rest IH]; intros headers idx total s headers' Hret.
  - simpl in Hret. injection Hret as <-. simpl.
    split; [reflexivity|]. split; [reflexivity|].
    split; intros t j k Hin; apply elem_of_nil in Hin; destruct Hin.
  - rewrite process_tickers_cons in *.
    pose proof (process_ticker_known headers idx total t j s) as Hknown.
    pose proof (process_ticker_covers headers idx total t j s) as Hcov.
    destruct (process_ticker headers idx total t j s) as [[hs1|] s1]; [|discriminate Hret].
    simpl in Hknown. destruct (Hcov hs1 eq_refl) as [Hpre1 Hcol1]. clear Hcov.
    destruct (IH hs1 (S idx) total s1 headers' Hret) as (Hpre & Hkpre & Hkeys & Hcols).
    assert (Hk1 : change_interval_keys_local (module_globals s)
                    `prefix_of` change_interval_keys_local (module_globals s1)).
    { rewrite Hknown. apply prefix_app_r. reflexivity. }
    split; [etrans; eassumption|]. split; [etrans; eassumption|]. split.
    + intros t' j' k Hin Hk. apply elem_of_cons in Hin as [[= -> ->]|Hin].
      * destruct Hkpre as [more ->]. apply elem_of_app. left. rewrite Hknown.
        apply (append_new_headers_covers _ _ k Hk).
      * eapply Hkeys; eassumption.
    + intros t' j' k Hin Hk Hnew.
      assert (Hfirst : k ∈ gather_change_interval_keys_from_json j ->
                       "change_intervals_" +:+ k ∈ headers').
      { intros Hkj. destruct Hpre as [more ->]. apply elem_of_app. left.
        apply Hcol1; assumption. }
      apply elem_of_cons in Hin as [[= -> ->]|Hin]; [apply Hfirst, Hk|].
      destruct (decide (k ∈ change_interval_keys_local (module_globals s1))) as [Hin1|Hout1].
      * rewrite Hknown in Hin1. apply elem_of_app in Hin1 as [Hin1|Hin1]; [contradiction|].
        apply list_elem_of_filter in Hin1 as [_ Hkj]. apply Hfirst, Hkj.
      * eapply Hcols; eassumption.
Qed.

Lemma pass_extends_headers_and_keys_witness :
  exists headers',
    (process_tickers ["ticker"] 1 2 [("BTC", doc_btc); ("eth", JNull)] (state_btc [] [])).1
    = Some headers' /\
    ["ticker"] `prefix_of` headers' /\
    "change_intervals_24h" ∈ headers'.
Proof.
  destruct (process_tickers ["ticker"] 1 2 [("BTC", doc_btc); ("eth", JNull)]
              (state_btc [] [])).1 as [headers'|] eqn:E; [|vm_compute in E; discriminate E].
  exists headers'. split; [reflexivity|].
  destruct (pass_extends_headers_and_keys _ _ _ _ _ _ E) as (Hpre & _ & _ & Hcols).
  split; [exact Hpre|]. apply (Hcols "BTC" doc_btc "24h").
  - left.
  - vm_compute. right. left.
  - intros H. apply elem_of_nil in H. destruct H.
Defined.

Lemma process_tickers_fault_free (items : list (string * json)) :
  forall (headers : list string) (idx total : nat) (s : run_state),
    faults (data_ws s) = [] -> head headers = Some "ticker" ->
    Forall (fun it : string * json => strip it.1 <> "" /\ is_too_large it.1 = false) items ->
    exists headers',
      (process_tickers headers idx total items s).1 = Some headers' /\
      faults (data_ws (process_tickers headers idx total items s).2) = [] /\
      (forall t j, (t, j) ∈ items ->
         has_row (sheet (data_ws (process_tickers headers idx total items s).2)) t) /\
      (forall t0, has_row (sheet (data_ws s)) t0 ->
         has_row (sheet (data_ws (process_tickers headers idx total items s).2)) t0).
Proof.
  induction items as [|[t j] rest IH]; intros headers idx total s Hf Hhead Hall.
  - exists headers. simpl. split; [reflexivity|]. split; [exact Hf|].
    split; [|tauto]. intros t j Hin. apply elem_of_nil in Hin. destruct Hin.
  - inversion Hall as [|it rest' [Hst Hfit] Hrest]; subst it rest'. simpl in Hst, Hfit.
    rewrite process_tickers_cons.
    destruct (process_ticker_fault_free headers idx total t j s Hf Hhead Hst Hfit)
      as (hs1 & Hres & Hf1 & Hhead1 & Hrow & Hkeep).
    destruct (process_ticker headers idx total t j s) as [[hs1'|] s1];
      simpl in Hres; [|discriminate Hres]. injection Hres as ->. simpl in *.
    destruct (IH hs1 (S idx) total s1 Hf1 Hhead1 Hrest)
      as (headers' & Hres' & Hf' & Hrows' & Hkeep').
    exists headers'. split; [exact Hres'|]. split; [exact Hf'|]. split.
    + intros t' j' Hin. apply elem_of_cons in Hin as [[= -> ->]|Hin].
      * apply Hkeep', Hrow.
      * eapply Hrows', Hin.
    + intros t0 H0. apply Hkeep', Hkeep, H0.
Qed.

(** X24.  A pass of the loop during which no call fails, on a header
    list that begins with ticker and over tickers that are not blank and
    fit a cell, returns, and afterwards every ticker of the pass has a row:
    the search finds each of them, at row 4 or below, whether the ticker
    came with a document or without one. *)
Theorem fault_free_pass_gives_rows (items : list (string * json)) (headers : list string)
    (idx total : nat) (s : run_state) :
  faults (data_ws s) = [] -> head headers = Some "ticker" ->
  Forall (fun it : string * json => strip it.1 <> "" /\ is_too_large it.1 = false) items ->
  exists headers',
    (process_tickers headers idx total items s).1 = Some headers' /\
    forall t j, (t, j) ∈ items ->
      exists r,
        (find_row_for_ticker t 4 (data_ws (process_tickers headers idx total items s).2)).1
        = Some (Some r) /\
        4 <= r.
Proof.
  intros Hf Hhead Hall.
  destruct (process_tickers_fault_free items headers idx total s Hf Hhead Hall)
    as (headers' & Hres & Hf' & Hrows & _).
  exists headers'. split; [exact Hres|]. intros t j Hin.
  destruct (has_row_found _ _ (Hrows t j Hin)) as [r Hr].
  exists r. rewrite find_row_for_ticker_eq. unfold next_fault. rewrite Hf'. simpl.
  split; [rewrite Hr; reflexivity|]. apply scan_in_sheet in Hr. lia.
Qed.

Lemma fault_free_pass_gives_rows_witness :
  (find_row_for_ticker "eth" 4
     (data_ws (process_tickers ["ticker"; "raw_json"] 1 2
                 [("BTC", doc_btc); ("eth", JNull)] (state_btc [] [])).2)).1
  = Some (Some 5).
Proof.
  destruct (fault_free_pass_gives_rows [("BTC", doc_btc); ("eth", JNull)]
              ["ticker"; "raw_json"] 1 2 (state_btc [] []) eq_refl eq_refl)
    as (headers' & _ & Hrows).
  { repeat constructor; simpl; discriminate. }
  destruct (Hrows "eth" JNull) as (r & Hr & _); [right; left|].
  rewrite Hr. vm_compute in Hr. symmetry. exact Hr.
Defined.

(** ** A whole pass from the ticker list *)

Lemma initial_headers_head : head initial_headers = Some "ticker".
Proof. reflexivity. Qed.

Lemma setup_headers_fault_free (s : run_state) :
  faults (data_ws s) = [] ->
  row_texts (sheet (data_ws s)) 3 = [] \/
  head (row_texts (sheet (data_ws s)) 3) = Some "ticker" ->
  exists headers,
    (setup_headers s).1 = Some (Some headers) /\
    faults (data_ws (setup_headers s).2) = [] /\
    head headers = Some "ticker" /\
    forall t0, has_row (sheet (data_ws s)) t0 ->
               has_row (sheet (data_ws (setup_headers s).2)) t0.
Proof.
  intros Hf Hrow. rewrite setup_headers_eq, read_existing_headers_eq. cbv zeta.
  unfold next_fault. rewrite Hf. cbn [fst snd].
  destruct (row_texts (sheet (data_ws s)) 3) as [|h hs] eqn:Erow.
  - rewrite write_initial_headers_eq. cbn [data_ws next_fault faults fst snd sheet].
    exists initial_headers. split; [reflexivity|]. split; [reflexivity|].
    split; [exact initial_headers_head|]. intros t0 H0. apply has_row_header_write, H0.
  - destruct Hrow as [Hrow|Hrow]; [discriminate Hrow|].
    destruct (append_new_headers_fault_free (h :: hs) ["raw_json"]
                (World (sheet (data_ws s)) [] (log (data_ws s)) (updates (data_ws s)))
                eq_refl) as (w1 & E1 & Hf1 & Hs1).
    cbn [data_ws module_globals run_log]. rewrite E1. cbn [fst snd fmap option_fmap option_map data_ws].
    eexists. split; [reflexivity|]. split; [exact Hf1|].
    split; [apply (head_app_ticker (h :: hs)), Hrow|].
    intros t0 H0. destruct Hs1 as [->|[cells ->]]; [exact H0|apply has_row_header_write, H0].
Qed.

(** X25.  A whole pass from the ticker list.  With no ticker the data
    sheet is not touched and one warning is logged.  With tickers that are
    not blank and fit a cell, a header row that is empty or begins with
    ticker, and no failing call, the pass runs to its end: the last line it
    logs is the completion line and every ticker of the list has a row at
    row 4 or below. *)
Theorem fault_free_run_completes :
  (forall s, run_from_tickers [] s
             = (Some (), RunState (data_ws s) (module_globals s)
                           (run_log s ++ [(length (log (data_ws s)), NoTickersFound)]))) /\
  (forall items s,
      items <> [] ->
      faults (data_ws s) = [] ->
      row_texts (sheet (data_ws s)) 3 = [] \/
      head (row_texts (sheet (data_ws s)) 3) = Some "ticker" ->
      Forall (fun it : string * json => strip it.1 <> "" /\ is_too_large it.1 = false) items ->
      (run_from_tickers items s).1 = Some () /\
      snd <$> last (run_log (run_from_tickers items s).2) = Some RunComplete /\
      forall t j, (t, j) ∈ items ->
        exists r,
          (find_row_for_ticker t 4 (data_ws (run_from_tickers items s).2)).1
          = Some (Some r) /\
          4 <= r).
Proof.
  split; [reflexivity|]. intros items s Hne Hf Hrow Hall.
  destruct items as [|it rest]; [congruence|]. clear Hne.
  destruct (run_from_tickers (it :: rest) s) as [res s'] eqn:E. cbn [fst snd].
  unfold run_from_tickers in E. unfold mbind at 1, R_bind, bindR, note at 1 in E.
  unfold mbind at 1, R_bind, bindR in E.
  match type of E with context [setup_headers ?s0] =>
    destruct (setup_headers_fault_free s0 Hf Hrow) as (headers & Hres & Hf1 & Hhead & Hkeep);
    destruct (setup_headers s0) as [r1 s1] end.
  cbn [fst snd] in Hres, Hf1, Hkeep. subst r1.
  unfold mbind at 1, R_bind, bindR in E.
  destruct (process_tickers_fault_free (it :: rest) headers 1 (length (it :: rest)) s1
              Hf1 Hhead Hall) as (headers' & Hres' & Hf' & Hrows & _).
  destruct (process_tickers headers 1 (length (it :: rest)) (it :: rest) s1) as [r2 s2].
  cbn [fst snd] in Hres', Hf', Hrows. subst r2.
  unfold note in E. injection E as <- <-. cbn [run_log data_ws].
  split; [reflexivity|]. split; [rewrite last_snoc; reflexivity|].
  intros t j Hin. destruct (has_row_found _ _ (Hrows t j Hin)) as [r Hr].
  exists r. rewrite find_row_for_ticker_eq. unfold next_fault. rewrite Hf'. cbn [fst snd].
  split; [rewrite Hr; reflexivity|]. apply scan_in_sheet in Hr. lia.
Qed.

Lemma fault_free_run_completes_witness :
  (run_from_tickers [("BTC", doc_btc); ("eth", JNull)] (state_btc [] [])).1 = Some () /\
  (find_row_for_ticker "eth" 4
     (data_ws (run_from_tickers [("BTC", doc_btc); ("eth", JNull)] (state_btc [] [])).2)).1
  = Some (Some 5).
Proof.
  destruct (proj2 fault_free_run_completes [("BTC", doc_btc); ("eth", JNull)]
              (state_btc [] []) ltac:(discriminate) eq_refl (or_intror eq_refl))
    as (Hres & _ & Hrows).
  { repeat constructor; simpl; discriminate. }
  split; [exact Hres|].
  destruct (Hrows "eth" JNull) as (r & Hr & _); [right; left|].
  rewrite Hr. vm_compute in Hr. symmetry. exact Hr.
Defined.

(** ** The ticker list *)

Lemma string_app_cons (c : ascii) (s1 s2 : string) :
  String c s1 +:+ s2 = String c (s1 +:+ s2).
Proof. reflexivity. Qed.

Lemma string_app_assoc (s1 s2 s3 : string) : (s1 +:+ s2) +:+ s3 = s1 +:+ (s2 +:+ s3).
Proof.
  induction s1 as [|c s1 IH]; [reflexivity|].
  rewrite !string_app_cons, IH. reflexivity.
Qed.

Lemma rev_app_append (u acc : string) : String.rev_app u acc = String.rev u +:+ acc.
Proof.
  revert acc. induction u as [|d u IH]; intros acc; [reflexivity|].
  unfold String.rev. simpl. rewrite (IH (String d acc)), (IH (String d "")).
  rewrite string_app_assoc. reflexivity.
Qed.

Lemma rev_app_of_append (y z acc : string) :
  String.rev_app (y +:+ z) acc = String.rev_app z (String.rev_app y acc).
Proof.
  revert acc. induction y as [|d y IH]; intros acc; [reflexivity|].
  rewrite string_app_cons. simpl. apply IH.
Qed.

Lemma rev_app_twice (s1 s2 : string) :
  String.rev_app (String.rev_app s1 s2) "" = String.rev_app s2 s1.
Proof.
  revert s2. induction s1 as [|a s1 IH]; intros s2; [reflexivity|].
  simpl. rewrite IH. reflexivity.
Qed.

Lemma string_rev_involutive (s : string) : String.rev (String.rev s) = s.
Proof. unfold String.rev. rewrite rev_app_twice. reflexivity. Qed.

Lemma lstrip_idempotent (s : string) : lstrip (lstrip s) = lstrip s.
Proof.
  induction s as [|c s IH]; [reflexivity|]. simpl.
  destruct (is_space c) eqn:E; [exact IH|]. simpl. rewrite E. reflexivity.
Qed.

(** What [lstrip] returns is empty or begins with a character that is not
    a blank. *)
Lemma lstrip_head (s : string) :
  lstrip s = "" \/ exists c rest, lstrip s = String c rest /\ is_space c = false.
Proof.
  induction s as [|c s IH]; [left; reflexivity|]. simpl.
  destruct (is_space c) eqn:E; [exact IH|]. right. exists c, s. split; [reflexivity|exact E].
Qed.

Lemma lstrip_app_filled (x : string) (c : ascii) (w : string) :
  is_space c = false -> lstrip (x +:+ String c w) = lstrip x +:+ String c w.
Proof.
  intros Hc. induction x as [|d x IH].
  - simpl. rewrite Hc. reflexivity.
  - rewrite string_app_cons. simpl. destruct (is_space d); [exact IH|reflexivity].
Qed.

Lemma strip_idempotent (s : string) : strip (strip s) = strip s.
Proof.
  change (strip s) with (String.rev (lstrip (String.rev (lstrip s)))).
  destruct (lstrip_head s) as [E|(c & a & E & Hc)]; rewrite E.
  - reflexivity.
  - assert (Hra : String.rev (String c a) = String.rev a +:+ String c "").
    { unfold String.rev at 1. simpl. apply rev_app_append. }
    rewrite Hra. rewrite lstrip_app_filled by exact Hc.
    set (y := lstrip (String.rev a)).
    assert (Hrev : String.rev (y +:+ String c "") = String c (String.rev y)).
    { unfold String.rev at 1. rewrite rev_app_of_append. reflexivity. }
    rewrite Hrev. unfold strip. simpl. rewrite Hc.
    rewrite <- Hrev, string_rev_involutive.
    rewrite lstrip_app_filled by exact Hc.
    unfold y. rewrite lstrip_idempotent. reflexivity.
Qed.

(** X26.  Every ticker of the list built from the ticker sheet's first
    column comes from a cell below the first one, is that cell without the
    blanks around it, is not empty, and has no blanks around it itself:
    stripping it again changes nothing. *)
Theorem tickers_are_stripped (raw_tickers : list string) (t : string) :
  t ∈ tickers_of raw_tickers <->
  exists i c, 1 <= i /\ raw_tickers !! i = Some c /\ t = strip c /\
              t <> "" /\ strip t = t.
Proof.
  unfold tickers_of. rewrite list_elem_of_fmap. split.
  - intros (c & -> & Hc). apply list_elem_of_filter in Hc as [Hne Hc].
    apply list_elem_of_lookup in Hc as [i Hi]. rewrite lookup_drop in Hi.
    exists (1 + i), c. split; [lia|]. split; [exact Hi|]. split; [reflexivity|].
    split; [exact Hne|apply strip_idempotent].
  - intros (i & c & Hi & Hc & -> & Hne & _). exists c. split; [reflexivity|].
    apply list_elem_of_filter. split; [exact Hne|].
    apply list_elem_of_lookup. exists (i - 1). rewrite lookup_drop.
    replace (1 + (i - 1)) with i by lia. exact Hc.
Qed.

(** ** The kind of value picked for a metric *)

Lemma first_conventional_scalar (cs : list string) (kv : list (string * json)) (v : json) :
  first_conventional cs kv = Some v -> is_scalar v = true.
Proof.
  induction cs as [|c cs IH]; [discriminate|]. simpl.
  destruct (dict_lookup c kv) as [x|]; [|exact IH].
  destruct (is_scalar x) eqn:E; [|exact IH]. intros [= <-]. exact E.
Qed.

Lemma first_scalar_item_scalar (kv : list (string * json)) (v : json) :
  first_scalar_item kv = Some v -> is_scalar v = true.
Proof.
  induction kv as [|[k x] kv IH]; [discriminate|]. simpl.
  destruct (is_scalar x) eqn:E; [|exact IH]. intros [= <-]. exact E.
Qed.

Lemma pick_scalar_kind (x : json) :
  is_scalar (pick_scalar_from_metric_obj x) = true \/ pick_scalar_from_metric_obj x = JNull.
Proof.
  destruct x as [|b|z|s|s|l|kv]; try (left; reflexivity); try (right; reflexivity).
  - destruct l as [|y l]; [right; reflexivity|]. simpl.
    destruct (is_scalar y) eqn:E; left; [exact E|reflexivity].
  - unfold pick_scalar_from_metric_obj.
    destruct (first_conventional CONVENTIONAL_KEYS kv) as [v|] eqn:E1.
    + left. eapply first_conventional_scalar, E1.
    + destruct (first_scalar_item kv) as [v|] eqn:E2.
      * left. eapply first_scalar_item_scalar, E2.
      * left. reflexivity.
Qed.

(** X27.  What [pick_scalar_from_metric_obj] returns is a scalar or None,
    never a dict or a list, so picking again changes nothing.  It is None
    only for None and for the empty list: a list that is not empty gives its
    first item when that is a scalar and the text of the whole list
    otherwise. *)
Theorem pick_scalar_result (x : json) :
  (is_scalar (pick_scalar_from_metric_obj x) = true \/
   pick_scalar_from_metric_obj x = JNull) /\
  pick_scalar_from_metric_obj (pick_scalar_from_metric_obj x)
  = pick_scalar_from_metric_obj x /\
  (pick_scalar_from_metric_obj x = JNull <-> x = JNull \/ x = JArr []) /\
  (forall y l, x = JArr (y :: l) ->
     pick_scalar_from_metric_obj x = if is_scalar y then y else JStr (json_dumps x)).
Proof.
  split; [apply pick_scalar_kind|]. split; [|split].
  - destruct (pick_scalar_kind x) as [H|H].
    + destruct (pick_scalar_from_metric_obj x); try discriminate H; reflexivity.
    + rewrite H. reflexivity.
  - split.
    + intros H. destruct (pick_scalar_kind x) as [Hs|_].
      * rewrite H in Hs. discriminate Hs.
      * destruct x as [|b|z|s|s|l|kv]; try discriminate H.
        -- left. reflexivity.
        -- destruct l as [|y l]; [right; reflexivity|]. simpl in H.
           destruct (is_scalar y) eqn:E; [|discriminate H]. subst y. discriminate E.
        -- unfold pick_scalar_from_metric_obj in H.
           destruct (first_conventional CONVENTIONAL_KEYS kv) as [v|] eqn:E1.
           ++ apply first_conventional_scalar in E1. subst v. discriminate E1.
           ++ destruct (first_scalar_item kv) as [v|] eqn:E2; [|discriminate H].
              apply first_scalar_item_scalar in E2. subst v. discriminate E2.
    + intros [->| ->]; reflexivity.
  - intros y l ->. reflexivity.
Qed.

Lemma pick_scalar_result_witness :
  pick_scalar_from_metric_obj (JArr [JInt 4; JObj []]) = JInt 4 /\
  pick_scalar_from_metric_obj (JArr [JObj []; JInt 4]) = JStr "[{}, 4]".
Proof.
  split.
  - apply (proj2 (proj2 (proj2 (pick_scalar_result (JArr [JInt 4; JObj []]))))
             (JInt 4) [JObj []] eq_refl).
  - apply (proj2 (proj2 (proj2 (pick_scalar_result (JArr [JObj []; JInt 4]))))
             (JObj []) [JInt 4] eq_refl).
Defined.
